(** * Location-tracker core: sliding window, kinematic features,
      fallback scorer, safety score and anomaly-record resets.

    Shallow embedding of
      - [aiml/location_tracker/feature_engineering.py]
      - [aiml/location_tracker/redis_utils.py]
      - [aiml/location_tracker/utils.py]
      - [aiml/location_tracker/ml_models.py] ([predict_anomaly])
      - [aiml/location_tracker/views.py] (journey start and end,
        tracking, safety score, anomaly reset)
      - [aiml/location_tracker/consumers.py] ([TrackLocationConsumer])
    followed by the properties of the specification, each stated on the
    embedded code, and by further properties of the same code.

    Numbers.  Python [float]s and numpy [float64]s are IEEE-754 binary64
    values and are modelled by Rocq's primitive floats, so that every
    concrete run below is bit-exact.  Python [int]s are [Z].  The few
    functions of the C runtime that have no counterpart among the
    primitive operations (trigonometry, numpy's reductions, the
    timestamp and number parsers) are fields of a [Runtime] record; the
    theorems hold for every runtime.  Exceptions are values: a function
    that can raise returns a [result]. *)

From Stdlib Require Import ZArith QArith Qabs Qminmax Lia Lqa.
From Stdlib Require Import String Ascii DecimalString.
From Stdlib Require Import Uint63 PrimFloat SpecFloat FloatOps.
From Stdlib Require OrderedTypeEx.
From stdpp Require Import gmap strings list sorting.

Local Open Scope Z_scope.

(* ===================================================================== *)
(** * Python runtime fragments                                            *)
(* ===================================================================== *)

Module Py.

(** Exceptions that the embedded code raises or catches. *)
Inductive exn : Set :=
| ValueError
| TypeError
| IndexError
| DoesNotExist
| MultipleObjectsReturned
| ConnectionError
| ResponseError
| OverflowError.

(** A computation either returns or raises. *)
Inductive result (A : Type) : Type :=
| Ok (a : A)
| Raise (e : exn).
Arguments Ok {A} a.
Arguments Raise {A} e.

Definition bind {A B} (m : result A) (k : A -> result B) : result B :=
  match m with
  | Ok a => k a
  | Raise e => Raise e
  end.

(** [int -> float] conversion, correctly rounded. *)
Definition Z2float (z : Z) : float :=
  SF2Prim (binary_normalize 53 1024 z 0 false).

(** [str(n)] for an [int]. *)
Definition str_of_Z (z : Z) : string :=
  NilZero.string_of_int (Z.to_int z).

Definition is_digit (c : ascii) : bool :=
  let n := nat_of_ascii c in ((48 <=? n) && (n <=? 57))%nat.

Definition digit_val (c : ascii) : Z := Z.of_nat (nat_of_ascii c) - 48.

Fixpoint digits_val (acc : Z) (s : string) : option Z :=
  match s with
  | EmptyString => Some acc
  | String c s' =>
      if is_digit c then digits_val (10 * acc + digit_val c) s' else None
  end.

(** A non-empty run of ASCII digits. *)
Definition nat_literal (s : string) : option Z :=
  match s with
  | EmptyString => None
  | _ => digits_val 0 s
  end.

(** Strings.  A [str] is given by the UTF-8 encoding of its code
    points, one byte per character of a Rocq [string]: an ASCII
    character is itself, and byte-wise equality and order are those of
    the code points. *)
Definition byte_val (c : ascii) : Z := Z.of_nat (nat_of_ascii c).

(** The payload of a continuation byte [10xxxxxx]. *)
Definition continuation (c : ascii) : option Z :=
  let b := byte_val c in
  if (128 <=? b) && (b <? 192) then Some (b - 128) else None.

(** The code points of a string; [None] on a byte sequence that encodes
    no text. *)
Fixpoint code_points (s : string) : option (list Z) :=
  match s with
  | EmptyString => Some []
  | String c0 s1 =>
      let b := byte_val c0 in
      if b <? 128 then cons b <$> code_points s1
      else if b <? 192 then None
      else if b <? 224 then
        match s1 with
        | String c1 s2 =>
            x1 ← continuation c1;
            let cp := (b - 192) * 64 + x1 in
            if 128 <=? cp then cons cp <$> code_points s2 else None
        | _ => None
        end
      else if b <? 240 then
        match s1 with
        | String c1 (String c2 s3) =>
            x1 ← continuation c1;
            x2 ← continuation c2;
            let cp := ((b - 224) * 64 + x1) * 64 + x2 in
            if 2048 <=? cp then cons cp <$> code_points s3 else None
        | _ => None
        end
      else if b <? 248 then
        match s1 with
        | String c1 (String c2 (String c3 s4)) =>
            x1 ← continuation c1;
            x2 ← continuation c2;
            x3 ← continuation c3;
            let cp := (((b - 240) * 64 + x1) * 64 + x2) * 64 + x3 in
            if (65536 <=? cp) && (cp <? 1114112)
            then cons cp <$> code_points s4 else None
        | _ => None
        end
      else None
  end.

(** [Py_UNICODE_ISSPACE] above ASCII. *)
Definition unicode_spaces : list Z :=
  [133; 160; 5760; 8192; 8193; 8194; 8195; 8196; 8197; 8198; 8199; 8200;
   8201; 8202; 8232; 8233; 8239; 8287; 12288].

(** The characters with a decimal digit value ([Py_UNICODE_TODECIMAL],
    Unicode 14.0 as in CPython 3.11) come in runs of ten, from the zero
    to the nine of a script; these are the zeros. *)
Definition decimal_zeros : list Z :=
  [48; 1632; 1776; 1984; 2406; 2534; 2662; 2790; 2918; 3046; 3174; 3302;
   3430; 3558; 3664; 3792; 3872; 4160; 4240; 6112; 6160; 6470; 6608; 6784;
   6800; 6992; 7088; 7232; 7248; 42528; 43216; 43264; 43472; 43504; 43600;
   44016; 65296; 66720; 68912; 69734; 69872; 69942; 70096; 70384; 70736;
   70864; 71248; 71360; 71472; 71904; 72016; 72784; 73040; 73120; 92768;
   92864; 93008; 120782; 120792; 120802; 120812; 120822; 123200; 123632;
   125264; 130032].

Definition decimal_of (cp : Z) : option Z :=
  (fun zero => cp - zero)
    <$> List.find (fun zero => (zero <=? cp) && (cp <=? zero + 9))
          decimal_zeros.

(** [_PyUnicode_TransformDecimalAndSpaceToASCII]: every space becomes an
    ASCII space and every decimal digit its ASCII digit; a character
    that is neither ends the text with a question mark. *)
Fixpoint to_ascii (cps : list Z) : list Z :=
  match cps with
  | [] => []
  | cp :: cps' =>
      if cp <? 127 then cp :: to_ascii cps'
      else if existsb (Z.eqb cp) unicode_spaces then 32 :: to_ascii cps'
      else
        match decimal_of cp with
        | Some d => (48 + d) :: to_ascii cps'
        | None => [63]
        end
  end.

(** [Py_ISSPACE] *)
Definition is_space (c : Z) : bool := ((9 <=? c) && (c <=? 13)) || (c =? 32).

Definition is_digit_code (c : Z) : bool := (48 <=? c) && (c <=? 57).

Fixpoint skip_spaces (l : list Z) : list Z :=
  match l with
  | c :: l' => if is_space c then skip_spaces l' else l
  | [] => []
  end.

(** The run of digits at the head of [l], in which single underscores
    may stand between two digits: its value, the number of its digits
    and what follows it.  [None] if an underscore is not followed by a
    digit. *)
Fixpoint scan_digits (acc : Z) (count : nat) (l : list Z)
  : option (Z * nat * list Z) :=
  match l with
  | c :: l' =>
      if is_digit_code c then scan_digits (10 * acc + (c - 48)) (S count) l'
      else if c =? 95 then
        match l' with
        | d :: _ => if is_digit_code d then scan_digits acc count l' else None
        | [] => None
        end
      else Some (acc, count, l)
  | [] => Some (acc, count, [])
  end.

(** [sys.int_max_str_digits], as CPython sets it from version 3.11 on. *)
Definition int_max_str_digits : nat := 4300.

(** [PyLong_FromString] in base 10: spaces, an optional sign, a run of
    digits that starts with a digit, spaces, and nothing else. *)
Definition long_from_string (l : list Z) : option Z :=
  let l := skip_spaces l in
  let '(sign, l) :=
    match l with
    | 43 :: l' => (1, l')
    | 45 :: l' => (-1, l')
    | _ => (1, l)
    end in
  match l with
  | c :: _ =>
      if is_digit_code c then
        '(n, count, rest) ← scan_digits 0 0 l;
        match skip_spaces rest with
        | [] =>
            if (count <=? int_max_str_digits)%nat then Some (sign * n)
            else None
        | _ => None
        end
      else None
  | [] => None
  end.

(** [int(s)] for a [str]; [None] stands for [ValueError]. *)
Definition int_of_str (s : string) : option Z :=
  cps ← code_points s; long_from_string (to_ascii cps).

(** [sorted(l, key=...)] with string keys: a stable sort that compares
    keys with [<] only. *)
Fixpoint insert_by {A} (key : A -> string) (x : A) (l : list A) : list A :=
  match l with
  | [] => [x]
  | y :: l' =>
      if String.ltb (key y) (key x) then y :: insert_by key x l' else x :: l
  end.

Definition sorted {A} (key : A -> string) (l : list A) : list A :=
  foldr (insert_by key) [] l.

(** [s.replace('Z', '+00:00')]. *)
Fixpoint replace_Z (s : string) : string :=
  match s with
  | EmptyString => EmptyString
  | String c s' =>
      if Ascii.eqb c "Z" then ("+00:00" ++ replace_Z s')%string
      else String c (replace_Z s')
  end.

(** [datetime]: the wall-clock fields as microseconds on the proleptic
    Gregorian time line, and the UTC offset of an aware value. *)
Record datetime : Set := mk_datetime {
  dt_micros : Z;
  dt_utcoffset : option Z
}.

(** [a - b] on datetimes, in microseconds.  Mixing a naive and an aware
    value raises [TypeError]. *)
Definition datetime_sub (a b : datetime) : result Z :=
  match dt_utcoffset a, dt_utcoffset b with
  | None, None => Ok (dt_micros a - dt_micros b)
  | Some oa, Some ob => Ok ((dt_micros a - oa) - (dt_micros b - ob))
  | _, _ => Raise TypeError
  end.

(** [timedelta.total_seconds()]: microseconds / 10**6 (one rounding for
    every delta below 2^53 microseconds, about 285 years). *)
Definition total_seconds (td : Z) : float :=
  PrimFloat.div (Z2float td) (Z2float 1000000).

End Py.

Import Py.

(** [result] is a monad; stdpp's [x ← m; k] notation sequences calls and
    propagates the first exception. *)
#[global] Instance result_ret : MRet result := fun _ a => Ok a.
#[global] Instance result_bind : MBind result := fun _ _ k m => Py.bind m k.

(** The part of the C runtime and of numpy that the code calls. *)
Record Runtime : Type := mk_Runtime {
  (* math; [None] stands for [ValueError] (math domain error) *)
  math_radians : float -> float;
  math_degrees : float -> float;
  math_sin : float -> option float;
  math_cos : float -> option float;
  math_asin : float -> option float;
  math_atan2 : float -> float -> float;
  float_pow : float -> float -> float;          (* x ** y *)
  float_mod : float -> float -> float;          (* x % y  *)
  (* numpy reductions over a non-empty sequence *)
  np_mean : list float -> float;
  np_std : list float -> float;
  np_max : list float -> float;
  np_min : list float -> float;
  np_sum : list float -> float;
  (* parsers; [None] stands for [ValueError] *)
  float_of_str : string -> option float;
  fromisoformat : string -> option datetime
}.

(* ===================================================================== *)
(** * feature_engineering.py                                              *)
(* ===================================================================== *)

(** [bearing_difference] uses subtraction, [abs], one comparison and two
    integer literals.  Python runs it on whatever numbers it is given; the
    class lists exactly the operations it needs, with the binary64
    instance (the one the application uses) and an exact rational one. *)
Class PyNum (F : Type) : Type := {
  num_of_Z : Z -> F;
  num_sub : F -> F -> F;
  num_abs : F -> F;
  num_gtb : F -> F -> bool
}.

#[global] Instance float_PyNum : PyNum float := {|
  num_of_Z := Z2float;
  num_sub := PrimFloat.sub;
  num_abs := PrimFloat.abs;
  num_gtb := fun x y => PrimFloat.ltb y x
|}.



Module FeatureEngineering.

Import PrimFloat.

Section WithRuntime.

Variable R : Runtime.

(** A call that raises [ValueError] where the runtime has no value. *)
Definition call (f : float -> option float) (x : float) : result float :=
  match f x with
  | Some y => Ok y
  | None => Raise ValueError
  end.

(** [math.sqrt]: negative arguments are a domain error. *)
Definition math_sqrt (x : float) : result float :=
  if ltb x 0 then Raise ValueError else Ok (sqrt x).

(** [haversine_distance]: great-circle distance in meters. *)
Definition haversine_distance (lat1 lon1 lat2 lon2 : float) : result float :=
  let lat1 := math_radians R lat1 in
  let lon1 := math_radians R lon1 in
  let lat2 := math_radians R lat2 in
  let lon2 := math_radians R lon2 in
  let dlat := sub lat2 lat1 in
  let dlon := sub lon2 lon1 in
  sin_dlat ← call (math_sin R) (div dlat 2);
  cos_lat1 ← call (math_cos R) lat1;
  cos_lat2 ← call (math_cos R) lat2;
  sin_dlon ← call (math_sin R) (div dlon 2);
  let a :=
    add (float_pow R sin_dlat 2)
        (mul (mul cos_lat1 cos_lat2) (float_pow R sin_dlon 2)) in
  root ← math_sqrt a;
  angle ← call (math_asin R) root;
  let c := mul 2 angle in
  let r := 6371000%float in
  Ok (mul c r).

(** [calculate_bearing]: bearing in degrees, normalised with [% 360]. *)
Definition calculate_bearing (lat1 lon1 lat2 lon2 : float) : result float :=
  let lat1 := math_radians R lat1 in
  let lon1 := math_radians R lon1 in
  let lat2 := math_radians R lat2 in
  let lon2 := math_radians R lon2 in
  let dlon := sub lon2 lon1 in
  sin_dlon ← call (math_sin R) dlon;
  cos_lat2 ← call (math_cos R) lat2;
  let y := mul sin_dlon cos_lat2 in
  cos_lat1 ← call (math_cos R) lat1;
  sin_lat2 ← call (math_sin R) lat2;
  sin_lat1 ← call (math_sin R) lat1;
  cos_dlon ← call (math_cos R) dlon;
  let x :=
    sub (mul cos_lat1 sin_lat2) (mul (mul sin_lat1 cos_lat2) cos_dlon) in
  let bearing := math_atan2 R y x in
  let bearing := math_degrees R bearing in
  Ok (float_mod R (add bearing 360) 360).

End WithRuntime.

(** [bearing_difference]:
<<
    diff = abs(bearing2 - bearing1)
    if diff > 180:
        diff = 360 - diff
    return diff
>> *)
Definition bearing_difference {F} `{PyNum F} (bearing1 bearing2 : F) : F :=
  let diff := num_abs (num_sub bearing2 bearing1) in
  if num_gtb diff (num_of_Z 180) then num_sub (num_of_Z 360) diff else diff.

(** A location point as the views put it in the window: a dict whose
    three values are strings. *)
Record Point : Set := mk_Point {
  latitude : string;
  longitude : string;
  timestamp : string
}.

(** A numpy array of rank 2, row by row. *)
Definition ndarray : Type := list (list float).

(** [a[i, j]] for non-negative literal indices. *)
Definition getitem2 (a : ndarray) (i j : nat) : result float :=
  match a !! i with
  | Some row =>
      match row !! j with
      | Some x => Ok x
      | None => Raise IndexError
      end
  | None => Raise IndexError
  end.

(** [f(l[i-1], l[i]) for i in range(1, len(l))]. *)
Fixpoint consecutive {A B} (f : A -> A -> B) (l : list A) : list B :=
  match l with
  | prev :: (curr :: _) as tl => f prev curr :: consecutive f tl
  | _ => []
  end.

(** The body of the second loop of [extract_features]. *)
Definition bearing_changes_of (bearings : list float) : list float :=
  consecutive (fun prev curr => bearing_difference prev curr) bearings.

(** The body of the third loop of [extract_features]:
<<
    time_diff = 10.0  # seconds (approximate)
    acceleration = (speeds[i] - speeds[i-1]) / time_diff
>> *)
Definition accelerations_of (speeds : list float) : list float :=
  consecutive (fun prev curr => let time_diff := 10%float in
                                div (sub curr prev) time_diff) speeds.

Section WithRuntime.

Variable R : Runtime.

(** The [try] block of the first loop.  [Ok None] is [continue]: a
    timestamp that does not parse ([ValueError] is caught) or a time
    difference [<= 0].  Subtracting a naive from an aware datetime raises
    [TypeError], which the [except] clause does not catch. *)
Definition pair_time_diff (prev_point curr_point : Point)
  : result (option float) :=
  match fromisoformat R (replace_Z (timestamp prev_point)) with
  | None => Ok None
  | Some prev_time =>
      match fromisoformat R (replace_Z (timestamp curr_point)) with
      | None => Ok None
      | Some curr_time =>
          td ← datetime_sub curr_time prev_time;
          let time_diff := total_seconds td in
          if leb time_diff 0 then Ok None else Ok (Some time_diff)
      end
  end.

(** [float(s)], raising [ValueError]. *)
Definition float_ (s : string) : result float :=
  match float_of_str R s with
  | Some x => Ok x
  | None => Raise ValueError
  end.

(** The first loop, from the pair [(prev_point, next point)] on, with the
    two accumulators. *)
Fixpoint pair_loop (prev_point : Point) (rest : list Point)
    (speeds bearings : list float) : result (list float * list float) :=
  match rest with
  | [] => Ok (speeds, bearings)
  | curr_point :: rest' =>
      o ← pair_time_diff prev_point curr_point;
      match o with
      | None => pair_loop curr_point rest' speeds bearings
      | Some time_diff =>
          lat1 ← float_ (latitude prev_point);
          lon1 ← float_ (longitude prev_point);
          lat2 ← float_ (latitude curr_point);
          lon2 ← float_ (longitude curr_point);
          distance ← haversine_distance R lat1 lon1 lat2 lon2;
          let speed :=
            if ltb 0 time_diff then div distance time_diff else 0%float in
          bearing ← calculate_bearing R lat1 lon1 lat2 lon2;
          pair_loop curr_point rest' (speeds ++ [speed]) (bearings ++ [bearing])
      end
  end.

(** The four series that [extract_features] derives from a window. *)
Record Series : Type := mk_Series {
  s_sorted_window : list Point;
  s_speeds : list float;
  s_bearing_changes : list float;
  s_accelerations : list float
}.

(** [extract_features] up to the aggregation: the length test, the sort,
    the three loops.  [Ok None] is [return None]. *)
Definition kinematic_series (location_window : list Point)
  : result (option Series) :=
  if (length location_window <? 2)%nat then Ok None else
  let sorted_window := sorted timestamp location_window in
  match sorted_window with
  | [] => Ok None
  | first :: rest =>
      '(speeds, bearings) ← pair_loop first rest [] [];
      match speeds with
      | [] => Ok None
      | _ =>
          Ok (Some (mk_Series sorted_window speeds
                      (bearing_changes_of bearings)
                      (accelerations_of speeds)))
      end
  end.

Definition is_nil {A} (l : list A) : bool :=
  match l with [] => true | _ => false end.

(** The aggregation: the list of 14 features. *)
Definition aggregate (s : Series) : list float :=
  let speeds := s_speeds s in
  let bearing_changes := s_bearing_changes s in
  let accelerations := s_accelerations s in
  [ if is_nil speeds then 0 else np_mean R speeds;
    if (1 <? length speeds)%nat then np_std R speeds else 0;
    if is_nil speeds then 0 else np_max R speeds;
    if is_nil speeds then 0 else np_min R speeds;
    if is_nil bearing_changes then 0 else np_mean R bearing_changes;
    if (1 <? length bearing_changes)%nat then np_std R bearing_changes else 0;
    if is_nil bearing_changes then 0 else np_max R bearing_changes;
    if is_nil accelerations then 0 else np_mean R accelerations;
    if (1 <? length accelerations)%nat then np_std R accelerations else 0;
    if is_nil accelerations then 0 else np_max R accelerations;
    if is_nil accelerations then 0 else np_min R accelerations;
    Z2float (Z.of_nat (length (s_sorted_window s)));
    default 0 (last speeds);
    if is_nil accelerations then 0 else np_sum R (abs <$> accelerations)
  ]%float.

(** [LocationFeatureEngineer.extract_features]: the features as a 1 x 14
    array, or [None]. *)
Definition extract_features (location_window : list Point)
  : result (option ndarray) :=
  o ← kinematic_series location_window;
  match o with
  | None => Ok None
  | Some s => Ok (Some [aggregate s])
  end.

End WithRuntime.

(** The four indicators of the rule-based scorer, on the four features it
    reads. *)
Definition high_speed (speed_max : float) : bool := ltb 50 speed_max.
Definition sudden_turn (bearing_change_max : float) : bool :=
  ltb 120 bearing_change_max.
Definition high_acceleration (acceleration_max : float) : bool :=
  ltb 10 (abs acceleration_max).
Definition erratic (speed_mean bearing_change_max : float) : bool :=
  ltb speed_mean 1 && ltb 90 bearing_change_max.

Definition incr_if (b : bool) (n : Z) : Z := if b then n + 1 else n.

(** [LocationFeatureEngineer.is_anomalous_behavior] (the [threshold]
    argument is never read). *)
Definition is_anomalous_behavior (features : option ndarray)
  : result (bool * float) :=
  match features with
  | None => Ok (false, 0%float)
  | Some features =>
      speed_mean ← getitem2 features 0 0;
      speed_max ← getitem2 features 0 2;
      bearing_change_max ← getitem2 features 0 6;
      acceleration_max ← getitem2 features 0 9;
      let anomaly_indicators := 0 in
      let anomaly_indicators :=
        incr_if (high_speed speed_max) anomaly_indicators in
      let anomaly_indicators :=
        incr_if (sudden_turn bearing_change_max) anomaly_indicators in
      let anomaly_indicators :=
        incr_if (high_acceleration acceleration_max) anomaly_indicators in
      let anomaly_indicators :=
        incr_if (erratic speed_mean bearing_change_max) anomaly_indicators in
      let is_anomaly := 2 <=? anomaly_indicators in
      let confidence := div (Z2float anomaly_indicators) 4 in
      Ok (is_anomaly, confidence)
  end.

End FeatureEngineering.

(* ===================================================================== *)
(** * redis_utils.py                                                      *)
(* ===================================================================== *)

(** The Redis server, as far as the client uses it: a keyspace whose
    values are strings or non-empty lists of strings, and the commands
    SET, DEL, EXISTS, RPUSH, LTRIM and LRANGE with Redis' rules for
    negative and out-of-range indices. *)
Module Redis.

Inductive value : Set :=
| VString (s : string)
| VList (l : list string).

Abbreviation keyspace := (gmap string value).

(** A server that is reachable, with its keyspace, or one that is not:
    then every command raises [ConnectionError]. *)
Inductive server : Type :=
| Up (db : keyspace)
| Down.

Definition SET (key v : string) (db : keyspace) : keyspace :=
  <[key := VString v]> db.

Definition DEL (key : string) (db : keyspace) : keyspace :=
  delete key db.

Definition EXISTS (key : string) (db : keyspace) : bool :=
  bool_decide (is_Some (db !! key)).

(** The list at [key]; a missing key reads as the empty list, a string
    value is a WRONGTYPE error (redis-py raises [ResponseError]). *)
Definition list_at (key : string) (db : keyspace) : result (list string) :=
  match db !! key with
  | None => Ok []
  | Some (VList l) => Ok l
  | Some (VString _) => Raise ResponseError
  end.

(** Store a list; Redis removes a key whose list becomes empty. *)
Definition put_list (key : string) (l : list string) (db : keyspace)
  : keyspace :=
  match l with
  | [] => delete key db
  | _ => <[key := VList l]> db
  end.

(** Index normalisation shared by LTRIM and LRANGE: the offset and the
    number of elements selected by [start .. stop] in a list of length
    [llen]. *)
Definition range (llen start stop : Z) : nat * nat :=
  let start := if start <? 0 then llen + start else start in
  let stop := if stop <? 0 then llen + stop else stop in
  let start := if start <? 0 then 0 else start in
  if (stop <? start) || (llen <=? start) then (0%nat, 0%nat)
  else
    let stop := if llen <=? stop then llen - 1 else stop in
    (Z.to_nat start, Z.to_nat (stop - start + 1)).

Definition slice (l : list string) (start stop : Z) : list string :=
  let '(off, n) := range (Z.of_nat (length l)) start stop in
  take n (drop off l).

Definition RPUSH (key v : string) (db : keyspace) : result keyspace :=
  l ← list_at key db;
  Ok (put_list key (l ++ [v]) db).

Definition LTRIM (key : string) (start stop : Z) (db : keyspace)
  : result keyspace :=
  l ← list_at key db;
  Ok (put_list key (slice l start stop) db).

Definition LRANGE (key : string) (start stop : Z) (db : keyspace)
  : result (list string) :=
  l ← list_at key db;
  Ok (slice l start stop).

End Redis.

Module RedisClient.

Import Redis.

Definition dquote : string := String (ascii_of_nat 34) EmptyString.

(** [json.dumps({'status': 'active', 'start_time': str(json.dumps(None))})] *)
Definition journey_marker : string :=
  ("{" ++ dquote ++ "status" ++ dquote ++ ": "
       ++ dquote ++ "active" ++ dquote ++ ", "
       ++ dquote ++ "start_time" ++ dquote ++ ": "
       ++ dquote ++ "null" ++ dquote ++ "}")%string.

Definition journey_key (user_id : string) : string :=
  ("journey:" ++ user_id)%string.

Definition location_key (user_id : string) : string :=
  ("location:" ++ user_id)%string.

(** Every method starts by talking to the server. *)
Definition connect (srv : server) : result keyspace :=
  match srv with
  | Up db => Ok db
  | Down => Raise ConnectionError
  end.

Definition start_journey (srv : server) (user_id : string)
  : result (server * bool) :=
  db ← connect srv;
  let db := SET (journey_key user_id) journey_marker db in
  let db := DEL (location_key user_id) db in
  Ok (Up db, true).

Definition end_journey (srv : server) (user_id : string)
  : result (server * bool) :=
  db ← connect srv;
  let db := DEL (journey_key user_id) db in
  let db := DEL (location_key user_id) db in
  Ok (Up db, true).

Definition is_journey_active (srv : server) (user_id : string)
  : result bool :=
  db ← connect srv;
  Ok (EXISTS (journey_key user_id) db).

(** The two methods that move location points are generic in the
    payload, which goes through [json.dumps] on the way in and
    [json.loads] on the way out ([None]: the text does not decode, a
    [ValueError]). *)
Section Payload.

Context {A : Type}.
Variable json_dumps : A -> string.
Variable json_loads : string -> option A.

Fixpoint loads_all (l : list string) : result (list A) :=
  match l with
  | [] => Ok []
  | s :: l' =>
      match json_loads s with
      | None => Raise ValueError
      | Some a => t ← loads_all l'; Ok (a :: t)
      end
  end.

(** [add_location_point]:
<<
    self.client.rpush(location_key, json.dumps(location_data))
    self.client.ltrim(location_key, -30, -1)
    window_data = self.client.lrange(location_key, 0, -1)
    return [json.loads(point) for point in window_data]
>> *)
Definition add_location_point (srv : server) (user_id : string)
    (location_data : A) : result (server * list A) :=
  db ← connect srv;
  db ← RPUSH (location_key user_id) (json_dumps location_data) db;
  db ← LTRIM (location_key user_id) (-30) (-1) db;
  window_data ← LRANGE (location_key user_id) 0 (-1) db;
  window ← loads_all window_data;
  Ok (Up db, window).

Definition get_location_window (srv : server) (user_id : string)
  : result (list A) :=
  db ← connect srv;
  window_data ← LRANGE (location_key user_id) 0 (-1) db;
  loads_all window_data.

(** Appending a sequence of samples, one call after the other; the
    result of the last call is returned ([get_location_window] if there
    was no call). *)
Fixpoint append_all (srv : server) (user_id : string) (samples : list A)
  : result (server * list A) :=
  match samples with
  | [] => w ← get_location_window srv user_id; Ok (srv, w)
  | [x] => add_location_point srv user_id x
  | x :: samples' =>
      '(srv', _) ← add_location_point srv user_id x;
      append_all srv' user_id samples'
  end.

End Payload.

(** What the stored window of a subject is, whatever the payload. *)
Definition stored_window (srv : server) (user_id : string) : list string :=
  match srv with
  | Up db =>
      match db !! location_key user_id with
      | Some (VList l) => l
      | _ => []
      end
  | Down => []
  end.

(** The client operations as transitions of the server. *)
Inductive step : server -> server -> Prop :=
| step_start srv user_id srv' b :
    start_journey srv user_id = Ok (srv', b) -> step srv srv'
| step_end srv user_id srv' b :
    end_journey srv user_id = Ok (srv', b) -> step srv srv'
| step_add {A} (json_dumps : A -> string) (json_loads : string -> option A)
    srv user_id (location_data : A) srv' w :
    add_location_point json_dumps json_loads srv user_id location_data
    = Ok (srv', w) ->
    step srv srv'.

(** The servers that the client can produce from an empty keyspace. *)
Inductive reachable : server -> Prop :=
| reachable_empty : reachable (Up ∅)
| reachable_step srv srv' : reachable srv -> step srv srv' -> reachable srv'.

End RedisClient.

(* ===================================================================== *)
(** * models.py and the ORM queries that the code issues                  *)
(* ===================================================================== *)

Module Orm.

(** [django.contrib.auth.models.User], the columns that matter here. *)
Record User : Set := mk_User {
  id : Z;
  username : string;
  email : string
}.

(** [AnomalyAlert].  [user_id] is the foreign-key column: the primary key
    of a [User] row.  Instants are microseconds since the epoch. *)
Record AnomalyAlert : Set := mk_AnomalyAlert {
  alert_id : Z;
  user_id : Z;
  alert_latitude : string;
  alert_longitude : string;
  alert_timestamp : Z;
  anomaly_score : float;
  is_resolved : bool;
  resolution_notes : option string
}.

(** The two tables, in SQLite, the database of a Django project that
    configures no other.  Their keys are [AutoField]s, that is columns
    [integer PRIMARY KEY AUTOINCREMENT]: each table has a sequence that
    holds the largest key it has ever handed out. *)
Record database : Set := mk_database {
  users : list User;
  alerts : list AnomalyAlert;
  user_seq : Z;
  alert_seq : Z
}.

(** The key of a new row: one more than the largest key that the table
    has ever held, so that the key of a deleted row is never used
    again. *)
Definition next_pk (seq : Z) (pks : list Z) : Z :=
  Z.max seq (foldr Z.max 0 pks) + 1.

(** An integer column holds 64 bits; the driver raises [OverflowError]
    when it is to bind a query parameter outside this range. *)
Definition bind_integer (z : Z) : result Z :=
  if (- 2 ^ 63 <=? z) && (z <? 2 ^ 63) then Ok z else Raise OverflowError.

(** [User.objects.get(username=name)] *)
Definition User_objects_get (db : database) (name : string) : result User :=
  match List.filter (fun u => String.eqb (username u) name) (users db) with
  | [] => Raise DoesNotExist
  | [u] => Ok u
  | _ => Raise MultipleObjectsReturned
  end.

(** [User.objects.get_or_create(username=name, defaults={'email': mail})] *)
Definition User_objects_get_or_create (db : database) (name mail : string)
  : result (database * (User * bool)) :=
  match User_objects_get db name with
  | Ok u => Ok (db, (u, false))
  | Raise DoesNotExist =>
      let pk := next_pk (user_seq db) (id <$> users db) in
      let u := mk_User pk name mail in
      Ok (mk_database (users db ++ [u]) (alerts db) pk (alert_seq db),
          (u, true))
  | Raise e => Raise e
  end.

(** [AnomalyAlert.objects.create(user=..., latitude=..., ...)] *)
Definition AnomalyAlert_objects_create (db : database) (user : User)
    (lat lon : string) (ts : Z) (score : float)
  : database * AnomalyAlert :=
  let pk := next_pk (alert_seq db) (alert_id <$> alerts db) in
  let a := mk_AnomalyAlert pk (id user) lat lon ts score false None in
  (mk_database (users db) (alerts db ++ [a]) (user_seq db) pk, a).

(** [AnomalyAlert.objects.filter(user_id=pk)] *)
Definition alerts_of (db : database) (pk : Z) : list AnomalyAlert :=
  List.filter (fun a => user_id a =? pk) (alerts db).

(** [AnomalyAlert.objects.filter(user=user, timestamp__gte=since).count()] *)
Definition count_since (db : database) (user : User) (since : Z) : Z :=
  Z.of_nat (length (List.filter (fun a => since <=? alert_timestamp a)
                                (alerts_of db (id user)))).

(** [AnomalyAlert.objects.filter(user_id=pk).delete()]: the rows are
    removed and their number is the first component of the result. *)
Definition delete_alerts_of (db : database) (pk : Z) : database * Z :=
  (mk_database (users db)
     (List.filter (fun a => negb (user_id a =? pk)) (alerts db))
     (user_seq db) (alert_seq db),
   Z.of_nat (length (alerts_of db pk))).

End Orm.

(* ===================================================================== *)
(** * utils.py                                                            *)
(* ===================================================================== *)

Module Utils.

Import Orm.

Record SafetyScore : Set := mk_SafetyScore {
  score : Z;
  factors : list string
}.

(** [timedelta(days=1)], in microseconds. *)
Definition one_day : Z := 86400000000.

(** [datetime.now(pytz.timezone('Asia/Kolkata')).hour] at the instant
    [t]: the zone has been at UTC+05:30 since October 1945. *)
Definition kolkata_hour (t : Z) : Z := ((t / 1000000 + 19800) / 3600) mod 24.

Definition late_night (hour : Z) : bool := (22 <=? hour) || (hour <? 5).

(** The name under which [TrackLocationView] files a subject. *)
Definition username_of (subject : string) : string :=
  ("user_" ++ subject)%string.

(** [calculate_safety_score_by_user_id].  The clock is read twice:
    [timezone_now] is the value of [timezone.now()], [datetime_now] the
    instant of [datetime.now(ist)]. *)
Definition calculate_safety_score_by_user_id (db : database)
    (timezone_now datetime_now : Z) (subject : string)
  : result SafetyScore :=
  let base_score := 100 in
  let factors := [] in
  match User_objects_get db (username_of subject) with
  | Ok user =>
      let one_day_ago := timezone_now - one_day in
      let recent_anomalies := count_since db user one_day_ago in
      let anomaly_penalty := recent_anomalies * 15 in
      let factors :=
        if 0 <? anomaly_penalty then
          factors ++ [("Detected " ++ str_of_Z recent_anomalies
                         ++ " recent movement anomalies")%string]
        else factors in
      let '(time_penalty, factors) :=
        if late_night (kolkata_hour datetime_now)
        then (10, factors ++ ["Traveling during late night hours"%string])
        else (0, factors) in
      let final_score := base_score - anomaly_penalty - time_penalty in
      let final_score := Z.max 0 (Z.min 100 final_score) in
      Ok (mk_SafetyScore final_score factors)
  | Raise DoesNotExist =>
      let final_score := base_score in
      Ok (mk_SafetyScore final_score
            (factors ++ ["No tracking history available"%string]))
  | Raise e => Raise e
  end.

(** [calculate_safety_score(user)]: the same computation for a [User]
    object that the caller already holds.  Its two factor texts end with
    a full stop. *)
Definition calculate_safety_score (db : database)
    (timezone_now datetime_now : Z) (user : User) : SafetyScore :=
  let base_score := 100 in
  let factors := [] in
  let one_day_ago := timezone_now - one_day in
  let recent_anomalies := count_since db user one_day_ago in
  let anomaly_penalty := recent_anomalies * 15 in
  let factors :=
    if 0 <? anomaly_penalty then
      factors ++ [("Detected " ++ str_of_Z recent_anomalies
                     ++ " recent movement anomalies.")%string]
    else factors in
  let '(time_penalty, factors) :=
    if late_night (kolkata_hour datetime_now)
    then (10, factors ++ ["Traveling during late night hours."%string])
    else (0, factors) in
  let final_score := base_score - anomaly_penalty - time_penalty in
  let final_score := Z.max 0 (Z.min 100 final_score) in
  mk_SafetyScore final_score factors.

End Utils.

(* ===================================================================== *)
(** * ml_models.py                                                        *)
(* ===================================================================== *)

(** [AnomalyDetectionModel.predict_anomaly].  The fitted scaler and
    forest are sklearn objects: what they compute is left open, only
    whether a call returns ([None]: it raises) matters to the control
    flow.  [load_model], which reads the model files or trains a new
    model, is a parameter: it returns the updated object and its
    boolean result. *)
Module MlModels.

Import FeatureEngineering.

Record Scaler : Type := mk_Scaler {
  transform : ndarray -> option ndarray
}.

Record Forest : Type := mk_Forest {
  predict : ndarray -> option (list Z);
  decision_function : ndarray -> option (list float)
}.

Record AnomalyDetectionModel : Type := mk_AnomalyDetectionModel {
  model : option Forest;
  scaler : option Scaler
}.

(** The body of the [try] block; any exception is a [None]. *)
Definition infer (self : AnomalyDetectionModel) (features : ndarray)
  : option (bool * float) :=
  sc ← scaler self;
  scaled_features ← transform sc features;
  m ← model self;
  labels ← predict m scaled_features;
  prediction ← head labels;
  scores ← decision_function m scaled_features;
  anomaly_score ← head scores;
  let is_anomaly := prediction =? -1 in
  Some (is_anomaly, anomaly_score).

Section WithLoader.

Variable load_model : AnomalyDetectionModel -> AnomalyDetectionModel * bool.

(** [predict_anomaly]:
<<
    if self.model is None or self.scaler is None:
        if not self.load_model():
            return False, 0.0
    try:
        ...
        return is_anomaly, anomaly_score
    except Exception as e:
        return False, 0.0
>> *)
Definition predict_anomaly (self : AnomalyDetectionModel)
    (features : ndarray) : AnomalyDetectionModel * (bool * float) :=
  let '(self, ready) :=
    match model self, scaler self with
    | Some _, Some _ => (self, true)
    | _, _ => load_model self
    end in
  if ready then
    match infer self features with
    | Some verdict => (self, verdict)
    | None => (self, (false, 0%float))
    end
  else (self, (false, 0%float)).

End WithLoader.

End MlModels.

(* ===================================================================== *)
(** * views.py                                                            *)
(* ===================================================================== *)

Module Views.

Import Orm Utils.

(** A value in a JSON request or response body. *)
Inductive json : Set :=
| JNull
| JBool (b : bool)
| JInt (z : Z)
| JStr (s : string).

(** [str(e)] of a caught exception: its class name stands for the text. *)
Definition str_of_exn (e : exn) : string :=
  match e with
  | ValueError => "ValueError"
  | TypeError => "TypeError"
  | IndexError => "IndexError"
  | DoesNotExist => "DoesNotExist"
  | MultipleObjectsReturned => "MultipleObjectsReturned"
  | ConnectionError => "ConnectionError"
  | ResponseError => "ResponseError"
  | OverflowError => "OverflowError"
  end.

Record Response : Set := mk_Response {
  status : Z;
  body : list (string * json)
}.

(** The alert creation of [TrackLocationView.post], once the scorer has
    flagged the sample:
<<
    user, created = User.objects.get_or_create(
        username=f'user_{user_id}',
        defaults={'email': f'user_{user_id}@test.com'})
    alert = AnomalyAlert.objects.create(user=user, ...)
>> *)
Definition create_alert (db : database) (subject lat lon : string)
    (ts : Z) (score : float) : result (database * AnomalyAlert) :=
  '(db, (user, _)) ← User_objects_get_or_create db (username_of subject)
                        (username_of subject ++ "@test.com")%string;
  Ok (AnomalyAlert_objects_create db user lat lon ts score).

(** The inner [try] of [EndJourneyView.post]:
<<
    user = User.objects.get(username=f'user_{user_id}')
    deleted_count, _ = AnomalyAlert.objects.filter(user=user).delete()
>> *)
Definition clear_anomalies (db : database) (subject : string)
  : result (database * Z) :=
  user ← User_objects_get db (username_of subject);
  Ok (delete_alerts_of db (id user)).

(** ... with its [except User.DoesNotExist: deleted_count = 0]. *)
Definition clear_anomalies_1 (db : database) (subject : string)
  : result (database * Z) :=
  match clear_anomalies db subject with
  | Raise DoesNotExist => Ok (db, 0)
  | r => r
  end.

(** ... and, in the fallback, also [except Exception: deleted_count = 0]. *)
Definition clear_anomalies_2 (db : database) (subject : string)
  : database * Z :=
  match clear_anomalies db subject with
  | Ok r => r
  | Raise _ => (db, 0)
  end.

(** The [except Exception as e] branch of [EndJourneyView.post]. *)
Definition end_journey_fallback (db : database) (srv : Redis.server)
    (subject : string) (e : exn) : database * Redis.server * Response :=
  let '(db, deleted_count) := clear_anomalies_2 db subject in
  (db, srv,
   mk_Response 200
     [("message"%string,
        JStr "Journey end acknowledged (Redis not available - fallback mode)");
      ("warning"%string,
        JStr "Session management disabled. Please start Redis server.");
      ("safety_score_reset"%string, JBool true);
      ("anomalies_cleared"%string, JInt deleted_count);
      ("error"%string, JStr (str_of_exn e))]).

(** [EndJourneyView.post] on a request that passed the serializer, with
    [subject] the validated [user_id]. *)
Definition EndJourneyView_post (db : database) (srv : Redis.server)
    (subject : string) : database * Redis.server * Response :=
  match RedisClient.end_journey srv subject with
  | Raise e => end_journey_fallback db srv subject e
  | Ok (srv, success) =>
      match clear_anomalies_1 db subject with
      | Raise e => end_journey_fallback db srv subject e
      | Ok (db, deleted_count) =>
          (db, srv,
           if success then
             mk_Response 200
               [("message"%string, JStr "Journey ended successfully");
                ("safety_score_reset"%string, JBool true);
                ("anomalies_cleared"%string, JInt deleted_count)]
           else
             mk_Response 500
               [("error"%string, JStr "Failed to end journey")])
      end
  end.

Definition is_nil_string (s : string) : bool :=
  match s with EmptyString => true | _ => false end.

(** Python truthiness of a request value ([if not user_id]). *)
Definition truthy (v : option json) : bool :=
  match v with
  | None | Some JNull => false
  | Some (JBool b) => b
  | Some (JInt z) => negb (z =? 0)
  | Some (JStr s) => negb (is_nil_string s)
  end.

(** The number that the ORM binds for a value compared with an integer
    key column: [int(value)] of the field's [get_prep_value], which
    raises [ValueError] for a text that [int] rejects, and then the
    binding of the parameter, which raises [OverflowError] outside the
    column's range.  [None] is no number (no row has a null key); it
    never reaches the query of [ResetAnomaliesView], and the one of the
    consumer finds nothing. *)
Definition prep_pk (v : json) : result Z :=
  match v with
  | JInt z => bind_integer z
  | JBool b => Ok (if b then 1 else 0)
  | JStr s =>
      match int_of_str s with
      | Some z => bind_integer z
      | None => Raise ValueError
      end
  | JNull => Raise TypeError
  end.

Definition str_of_json (v : json) : string :=
  match v with
  | JInt z => str_of_Z z
  | JStr s => s
  | JBool true => "True"
  | JBool false => "False"
  | JNull => "None"
  end.

(** [ResetAnomaliesView.post], with [user_id = request.data.get('user_id')]:
<<
    count, _ = AnomalyAlert.objects.filter(user_id=user_id).delete()
>> *)
Definition ResetAnomaliesView_post (db : database) (user_id : option json)
  : result (database * Response) :=
  match user_id with
  | Some v =>
      if truthy user_id then
        pk ← prep_pk v;
        let '(db, count) := delete_alerts_of db pk in
        Ok (db,
            mk_Response 200
              [("message"%string,
                 JStr ("Successfully deleted " ++ str_of_Z count
                         ++ " anomalies for user " ++ str_of_json v ++ "."))])
      else
        Ok (db, mk_Response 400 [("error"%string, JStr "user_id is required")])
  | None =>
      Ok (db, mk_Response 400 [("error"%string, JStr "user_id is required")])
  end.

(** The anomaly records of a subject: the alerts of the user row that
    [TrackLocationView] keeps for it. *)
Definition records_of (db : database) (subject : string)
  : list AnomalyAlert :=
  match User_objects_get db (username_of subject) with
  | Ok user => alerts_of db (id user)
  | Raise _ => []
  end.

(** [StartJourneyView.post] on a request that passed the serializer. *)
Definition StartJourneyView_post (srv : Redis.server) (subject : string)
  : Redis.server * Response :=
  match RedisClient.start_journey srv subject with
  | Ok (srv, success) =>
      (srv,
       if success then
         mk_Response 200
           [("message"%string, JStr "Journey started successfully")]
       else
         mk_Response 500
           [("error"%string, JStr "Failed to start journey")])
  | Raise e =>
      (srv,
       mk_Response 200
         [("message"%string,
            JStr "Journey acknowledged (Redis not available - fallback mode)");
          ("warning"%string,
            JStr "Session management disabled. Please start Redis server.");
          ("error"%string, JStr (str_of_exn e))])
  end.

(** The three answers of [SafetyScoreView.get]. *)
Inductive ScoreResponse : Set :=
| ScoreBadRequest                       (* 400, user_id parameter is required *)
| ScoreOk (score_data : SafetyScore)    (* 200 *)
| ScoreError (details : string).        (* 500 *)

Definition score_status (r : ScoreResponse) : Z :=
  match r with
  | ScoreBadRequest => 400
  | ScoreOk _ => 200
  | ScoreError _ => 500
  end.

(** [SafetyScoreView.get], with
    [user_id = request.query_params.get('user_id')]. *)
Definition SafetyScoreView_get (db : database) (timezone_now datetime_now : Z)
    (user_id : option string) : ScoreResponse :=
  match user_id with
  | None => ScoreBadRequest
  | Some subject =>
      if is_nil_string subject then ScoreBadRequest
      else
        match calculate_safety_score_by_user_id db timezone_now datetime_now
                subject with
        | Ok score_data => ScoreOk score_data
        | Raise e => ScoreError (str_of_exn e)
        end
  end.

(** ** [TrackLocationView.post] *)

(** The validated request: [latitude] and [longitude] are the texts of
    the two decimals, [timestamp] is the instant. *)
Record TrackRequest : Set := mk_TrackRequest {
  tr_user_id : string;
  tr_latitude : string;
  tr_longitude : string;
  tr_timestamp : Z
}.

(** A value of the response body of this view. *)
Inductive tvalue : Set :=
| TStr (s : string)
| TBool (b : bool)
| TInt (z : Z)
| TFloat (f : float).

Record TrackResponse : Set := mk_TrackResponse {
  t_status : Z;
  t_body : list (string * tvalue)
}.

Definition no_journey_response : TrackResponse :=
  mk_TrackResponse 400
    [("error"%string,
       TStr "No active journey found. Please start a journey first.")].

Definition no_anomaly_response : TrackResponse :=
  mk_TrackResponse 202
    [("message"%string,
       TStr "Location data processed - no anomaly detected")].

Definition anomaly_response (anomaly_score : float) (alert : AnomalyAlert)
  : TrackResponse :=
  mk_TrackResponse 202
    [("message"%string, TStr "Location data processed");
     ("anomaly_detected"%string, TBool true);
     ("anomaly_score"%string, TFloat anomaly_score);
     ("alert_id"%string, TInt (alert_id alert))].

(** The answer of the outer [except Exception as e]. *)
Definition fallback_response (e : exn) : TrackResponse :=
  mk_TrackResponse 202
    [("message"%string,
       TStr "Location data received (Redis not available - fallback mode)");
     ("warning"%string,
       TStr "Real-time processing disabled. Please start Redis server.");
     ("error"%string, TStr (str_of_exn e))].

(** The server once the RPUSH and the LTRIM of [add_location_point] have
    run: this is the state that stays behind when the method raises later
    on. *)
Definition after_push (srv : Redis.server) (user_id v : string)
  : Redis.server :=
  match srv with
  | Redis.Up db =>
      match (db ← Redis.RPUSH (RedisClient.location_key user_id) v db;
             Redis.LTRIM (RedisClient.location_key user_id) (-30) (-1) db) with
      | Ok db' => Redis.Up db'
      | Raise _ => srv
      end
  | Redis.Down => Redis.Down
  end.

Section TrackLocation.

Import FeatureEngineering MlModels.

Variable R : Runtime.
Variable json_dumps : Point -> string.
Variable json_loads : string -> option Point.
Variable load_model : AnomalyDetectionModel -> AnomalyDetectionModel * bool.

(** [datetime.isoformat()] of an instant, in the time zone in which the
    serializer delivers it. *)
Variable isoformat : Z -> string.

(** What the database stores for a decimal given to a
    [DecimalField(max_digits=9, decimal_places=6)]; [Raise e] if the
    value does not fit the column. *)
Variable db_prep_decimal : string -> result string.

(** The state that a request works on: the database, the Redis server
    and the global [anomaly_model]. *)
Record World : Type := mk_World {
  w_db : database;
  w_srv : Redis.server;
  w_model : AnomalyDetectionModel
}.

(** The creation of the alert, inside the outer [try].  When it raises,
    the database is left as the last statement that ran has made it. *)
Definition record_anomaly (db : database) (req : TrackRequest)
    (anomaly_score : float) : database * result AnomalyAlert :=
  match User_objects_get_or_create db (username_of (tr_user_id req))
          (username_of (tr_user_id req) ++ "@test.com")%string with
  | Raise e => (db, Raise e)
  | Ok (db, (user, _)) =>
      match db_prep_decimal (tr_latitude req) with
      | Raise e => (db, Raise e)
      | Ok lat =>
          match db_prep_decimal (tr_longitude req) with
          | Raise e => (db, Raise e)
          | Ok lon =>
              let '(db, alert) :=
                AnomalyAlert_objects_create db user lat lon
                  (tr_timestamp req) anomaly_score in
              (db, Ok alert)
          end
      end
  end.

(** [TrackLocationView.post] on a request that passed the serializer.
    The webhook call that follows the creation of the alert has its own
    [try]/[except] and a time-out; its outcome reaches neither the
    response nor the state and is left out. *)
Definition TrackLocationView_post (w : World) (req : TrackRequest)
  : World * TrackResponse :=
  let user_id := tr_user_id req in
  match RedisClient.is_journey_active (w_srv w) user_id with
  | Raise e => (w, fallback_response e)
  | Ok false => (w, no_journey_response)
  | Ok true =>
      let location_data :=
        mk_Point (tr_latitude req) (tr_longitude req)
                 (isoformat (tr_timestamp req)) in
      match RedisClient.add_location_point json_dumps json_loads
              (w_srv w) user_id location_data with
      | Raise e =>
          (mk_World (w_db w)
             (after_push (w_srv w) user_id (json_dumps location_data))
             (w_model w),
           fallback_response e)
      | Ok (srv, window) =>
          if (2 <=? length window)%nat then
            match extract_features R window with
            | Raise e => (mk_World (w_db w) srv (w_model w),
                          fallback_response e)
            | Ok None => (mk_World (w_db w) srv (w_model w),
                          no_anomaly_response)
            | Ok (Some features) =>
                let '(ml, (is_anomaly, anomaly_score)) :=
                  predict_anomaly load_model (w_model w) features in
                if is_anomaly then
                  match record_anomaly (w_db w) req anomaly_score with
                  | (db, Ok alert) =>
                      (mk_World db srv ml,
                       anomaly_response anomaly_score alert)
                  | (db, Raise e) =>
                      (mk_World db srv ml, fallback_response e)
                  end
                else (mk_World (w_db w) srv ml, no_anomaly_response)
            end
          else (mk_World (w_db w) srv (w_model w), no_anomaly_response)
      end
  end.

End TrackLocation.

End Views.

(* ===================================================================== *)
(** * consumers.py                                                        *)
(* ===================================================================== *)

(** [TrackLocationConsumer]: the channel consumer that runs the same
    pipeline as [TrackLocationView] on an event.  It answers nothing;
    what it does is visible in the database, in the session store and in
    the messages handed to the channel layer.  Every [await] runs the
    call to completion before the next statement, so the coroutine is a
    sequential program. *)
Module Consumers.

Import Orm Utils Views FeatureEngineering MlModels.

(** [User.objects.get(id=pk)] *)
Definition User_objects_get_id (db : database) (pk : Z) : result User :=
  match List.filter (fun u => id u =? pk) (users db) with
  | [] => Raise DoesNotExist
  | [u] => Ok u
  | _ => Raise MultipleObjectsReturned
  end.

(** The value under ['timestamp'] in the event: a [str], or a [datetime]
    (given by its instant). *)
Inductive event_time : Set :=
| TimeStr (s : string)
| TimeOf (t : Z).

(** [event['data']].  [ev_latitude] and [ev_longitude] are the texts
    [str(data['latitude'])] and [str(data['longitude'])]. *)
Record TrackEvent : Set := mk_TrackEvent {
  ev_user_id : json;
  ev_latitude : string;
  ev_longitude : string;
  ev_timestamp : event_time
}.

(** The ['data'] of the message that [send_admin_alert] hands to the
    group [admin_alerts]. *)
Record AdminAlert : Set := mk_AdminAlert {
  aa_user_id : json;
  aa_latitude : float;
  aa_longitude : float;
  aa_timestamp : string;
  aa_anomaly_score : float
}.

(** The state that an event works on.  [c_layer] is the channel layer
    with the messages sent to the group so far; [None] is a layer on
    which [group_send] raises (none is configured, or its back end is
    down). *)
Record World : Type := mk_World {
  c_db : database;
  c_srv : Redis.server;
  c_model : AnomalyDetectionModel;
  c_layer : option (list AdminAlert)
}.

Section Consumer.

Variable R : Runtime.
Variable json_dumps : Point -> string.
Variable json_loads : string -> option Point.
Variable load_model : AnomalyDetectionModel -> AnomalyDetectionModel * bool.
Variable isoformat : Z -> string.
Variable db_prep_decimal : string -> result string.

(** The instant that the database stores for a [datetime] parsed from a
    string; [Raise e] if the column refuses it. *)
Variable db_prep_datetime : datetime -> result Z.

(** [data['timestamp'].isoformat() if hasattr(data['timestamp'],
    'isoformat') else str(data['timestamp'])] *)
Definition timestamp_text (t : event_time) : string :=
  match t with
  | TimeStr s => s
  | TimeOf t => isoformat t
  end.

(** [create_anomaly_alert]: the user is looked up by primary key; every
    exception is caught and turned into [None]. *)
Definition create_anomaly_alert (db : database) (user_id : json)
    (latitude longitude : string) (timestamp : event_time)
    (anomaly_score : float) : database * option AnomalyAlert :=
  match (pk ← prep_pk user_id;
         user ← User_objects_get_id db pk;
         timestamp ←
           match timestamp with
           | TimeStr s =>
               match fromisoformat R (replace_Z s) with
               | Some d => db_prep_datetime d
               | None => Raise ValueError
               end
           | TimeOf t => Ok t
           end;
         lat ← db_prep_decimal latitude;
         lon ← db_prep_decimal longitude;
         Ok (AnomalyAlert_objects_create db user lat lon timestamp
               anomaly_score)) with
  | Ok (db, alert) => (db, Some alert)
  | Raise _ => (db, None)
  end.

(** [send_admin_alert]; [None] if [group_send] raises. *)
Definition send_admin_alert (layer : option (list AdminAlert))
    (alert_data : AdminAlert) : option (list AdminAlert) :=
  sent ← layer; Some (sent ++ [alert_data]).

(** [track_location].  The outer [except Exception] ends the handler and
    leaves everything as the statements that ran have made it. *)
Definition track_location (w : World) (ev : TrackEvent) : World :=
  let user_id := ev_user_id ev in
  let location_data :=
    mk_Point (ev_latitude ev) (ev_longitude ev)
             (timestamp_text (ev_timestamp ev)) in
  match RedisClient.add_location_point json_dumps json_loads (c_srv w)
          (str_of_json user_id) location_data with
  | Raise _ =>
      mk_World (c_db w)
        (after_push (c_srv w) (str_of_json user_id)
           (json_dumps location_data))
        (c_model w) (c_layer w)
  | Ok (srv, window) =>
      if (2 <=? length window)%nat then
        match extract_features R window with
        | Raise _ | Ok None => mk_World (c_db w) srv (c_model w) (c_layer w)
        | Ok (Some features) =>
            let '(ml, (is_anomaly, anomaly_score)) :=
              predict_anomaly load_model (c_model w) features in
            if is_anomaly then
              let '(db, _) :=
                create_anomaly_alert (c_db w) user_id (ev_latitude ev)
                  (ev_longitude ev) (ev_timestamp ev) anomaly_score in
              match (lat ← float_ R (ev_latitude ev);
                     lon ← float_ R (ev_longitude ev);
                     Ok (mk_AdminAlert user_id lat lon
                           (timestamp_text (ev_timestamp ev))
                           anomaly_score)) with
              | Raise _ => mk_World db srv ml (c_layer w)
              | Ok alert_data =>
                  match send_admin_alert (c_layer w) alert_data with
                  | Some layer => mk_World db srv ml (Some layer)
                  | None => mk_World db srv ml (c_layer w)
                  end
              end
            else mk_World (c_db w) srv ml (c_layer w)
        end
      else mk_World (c_db w) srv (c_model w) (c_layer w)
  end.

End Consumer.

End Consumers.

(* ===================================================================== *)
(** * A runtime for concrete runs                                         *)
(* ===================================================================== *)

(** To run the embedded code on concrete windows the [Runtime] record
    has to be filled in.  The two parsers are implemented on the
    spellings that the views produce; the reductions follow numpy on
    short sequences; the trigonometric functions, which Rocq's floats do
    not provide, are placeholders.  The runs below exercise the control
    flow of the extractor, which does not depend on their values. *)
Module Example.

Import PrimFloat FeatureEngineering.

Definition field (s : string) (off len : nat) : option Z :=
  let t := substring off len s in
  if (String.length t =? len)%nat then nat_literal t else None.

Definition sep (s : string) (off : nat) (c : ascii) : bool :=
  match String.get off s with
  | Some c' => Ascii.eqb c c'
  | None => false
  end.

Definition leap (y : Z) : bool :=
  ((y mod 4 =? 0) && negb (y mod 100 =? 0)) || (y mod 400 =? 0).

Definition days_in_month (y m : Z) : Z :=
  if m =? 2 then (if leap y then 29 else 28)
  else if (m =? 4) || (m =? 6) || (m =? 9) || (m =? 11) then 30 else 31.

(** Days between 1970-01-01 and the civil date [y-m-d]. *)
Definition days_from_civil (y m d : Z) : Z :=
  let y := if m <=? 2 then y - 1 else y in
  let era := y / 400 in
  let yoe := y - era * 400 in
  let mp := (m + 9) mod 12 in
  let doy := (153 * mp + 2) / 5 + d - 1 in
  let doe := yoe * 365 + yoe / 4 - yoe / 100 + doy in
  era * 146097 + doe - 719468.

(** [YYYY-MM-DDTHH:MM:SS] in microseconds. *)
Definition wall_clock (s : string) : option Z :=
  y ← field s 0 4; mo ← field s 5 2; d ← field s 8 2;
  h ← field s 11 2; mi ← field s 14 2; se ← field s 17 2;
  if sep s 4 "-" && sep s 7 "-" && sep s 10 "T" && sep s 13 ":"
     && sep s 16 ":"
     && (1 <=? y) && (1 <=? mo) && (mo <=? 12)
     && (1 <=? d) && (d <=? days_in_month y mo)
     && (h <? 24) && (mi <? 60) && (se <? 60)
  then Some ((((days_from_civil y mo d * 24 + h) * 60 + mi) * 60 + se)
               * 1000000)
  else None.

(** [+HH:MM] or [-HH:MM] in microseconds. *)
Definition utc_offset (s : string) : option Z :=
  h ← field s 1 2; mi ← field s 4 2;
  if sep s 3 ":" && (h <? 24) && (mi <? 60) then
    let off := (h * 60 + mi) * 60 * 1000000 in
    if sep s 0 "+" then Some off
    else if sep s 0 "-" then Some (- off) else None
  else None.

(** [datetime.fromisoformat] on [YYYY-MM-DDTHH:MM:SS] and on
    [YYYY-MM-DDTHH:MM:SS+HH:MM]. *)
Definition iso_datetime (s : string) : option datetime :=
  match String.length s with
  | 19%nat => t ← wall_clock s; Some (mk_datetime t None)
  | 25%nat =>
      t ← wall_clock (substring 0 19 s);
      off ← utc_offset (substring 19 6 s);
      Some (mk_datetime t (Some off))
  | _ => None
  end.

Fixpoint split_dot (s : string) : string * option string :=
  match s with
  | EmptyString => (EmptyString, None)
  | String c s' =>
      if Ascii.eqb c "." then (EmptyString, Some s')
      else let '(a, b) := split_dot s' in (String c a, b)
  end.

(** The binary64 nearest to [m / 10^k]. *)
Definition decimal (neg : bool) (m : Z) (k : nat) : float :=
  match m with
  | Zpos p =>
      SF2Prim (SFdiv 53 1024 (S754_finite neg p 0)
                 (S754_finite false (Pos.pow 10 (Pos.of_nat k)) 0))
  | _ => if neg then (-0)%float else 0%float
  end.

Definition unsigned_decimal (neg : bool) (s : string) : option float :=
  match split_dot s with
  | (a, None) => m ← nat_literal a; Some (decimal neg (10 * m) 1)
  | (a, Some b) =>
      m ← nat_literal (a ++ b)%string;
      if (0 <? String.length a)%nat && (0 <? String.length b)%nat
      then Some (decimal neg m (String.length b)) else None
  end.

(** [float(s)] on plain decimal numerals such as [-12.9716]. *)
Definition decimal_float (s : string) : option float :=
  match s with
  | String "-" s' => unsigned_decimal true s'
  | _ => unsigned_decimal false s
  end.

Definition sum (l : list float) : float := foldl add 0%float l.

Definition mean (l : list float) : float :=
  div (sum l) (Z2float (Z.of_nat (length l))).

Definition std (l : list float) : float :=
  let m := mean l in
  sqrt (mean ((fun x => mul (abs (sub x m)) (abs (sub x m))) <$> l)).

Definition fmax (x y : float) : float := if ltb x y then y else x.
Definition fmin (x y : float) : float := if ltb y x then y else x.

Definition maximum (l : list float) : float :=
  match l with [] => nan | x :: l' => foldl fmax x l' end.

Definition minimum (l : list float) : float :=
  match l with [] => nan | x :: l' => foldl fmin x l' end.

Definition runtime : Runtime := {|
  math_radians := fun x => div (mul x 0x1.921fb54442d18p+1%float) 180;
  math_degrees := fun x => div (mul x 180) 0x1.921fb54442d18p+1%float;
  math_sin := fun x => Some x;
  math_cos := fun _ => Some 1%float;
  math_asin := fun x => Some x;
  math_atan2 := fun y x => div y x;
  float_pow := fun x _ => mul x x;
  float_mod := fun x _ => x;
  np_mean := mean;
  np_std := std;
  np_max := maximum;
  np_min := minimum;
  np_sum := sum;
  float_of_str := decimal_float;
  fromisoformat := iso_datetime
|}.

(** Two points ten seconds apart, and a third at the instant of the
    first. *)
Definition p_early : Point :=
  mk_Point "12.9716" "77.5946" "2024-01-01T00:00:00+00:00".
Definition p_late : Point :=
  mk_Point "12.9717" "77.5946" "2024-01-01T00:00:10+00:00".
Definition p_same : Point :=
  mk_Point "12.9800" "77.6000" "2024-01-01T00:00:00+00:00".
Definition p_garbled : Point :=
  mk_Point "12.9800" "77.6000" "yesterday".
(** A fourth sample, thirty seconds after [p_late]. *)
Definition p_later : Point :=
  mk_Point "12.9720" "77.5946" "2024-01-01T00:00:40+00:00".

(** A sample whose timestamp has no offset, and one whose latitude is not
    a number. *)
Definition p_naive : Point :=
  mk_Point "12.9717" "77.5946" "2024-01-01T00:00:10".
Definition p_no_fix : Point :=
  mk_Point "n/a" "77.5946" "2024-01-01T00:00:00+00:00".

(** A feature row: only the four cells that the scorer reads are set. *)
Definition row (speed_mean speed_max bearing_change_max acceleration_max
                : float) : list float :=
  [speed_mean; 0; speed_max; 0; 0; 0; bearing_change_max; 0; 0;
   acceleration_max; 0; 0; 0; 0]%float.

End Example.

(** Concrete databases, instants and samples. *)
Module Scenario.

Import Orm Utils Views.

Definition empty_db : database := mk_database [] [] 0 0.

(** 2024-01-01T00:00:00Z, that is 05:30 in Kolkata: day time. *)
Definition t_day : Z := 1704067200000000.

(** 2023-12-31T18:30:00Z, that is midnight in Kolkata: night time. *)
Definition t_night : Z := 1704047400000000.

(** The database after [create_alert], or the old one if it raised. *)
Definition with_alert (db : database) (subject : string) (ts : Z)
  : database :=
  match create_alert db subject "28.613900" "77.209000" ts 0.5%float with
  | Ok (db', _) => db'
  | Raise _ => db
  end.

(** Subject 42 with one alert, stamped [t_day]. *)
Definition db_one : database := with_alert empty_db "42" t_day.


(** Subject 7 with two alerts; its user row has primary key 1. *)
Definition db_two : database :=
  with_alert (with_alert empty_db "7" t_day) "7" (t_day + 10000000).

(** Thirty-five samples, named 0 to 34. *)
Definition samples35 : list string :=
  (fun n => str_of_Z (Z.of_nat n)) <$> seq 0 35.

(** A stand-in for the JSON codec of a location point: the three texts
    joined by semicolons. *)
Definition point_dumps (p : FeatureEngineering.Point) : string :=
  (FeatureEngineering.latitude p ++ ";" ++ FeatureEngineering.longitude p
     ++ ";" ++ FeatureEngineering.timestamp p)%string.

Fixpoint split_on (c : ascii) (s : string) : list string :=
  match s with
  | EmptyString => [EmptyString]
  | String x s' =>
      if Ascii.eqb x c then EmptyString :: split_on c s'
      else match split_on c s' with
           | t :: l => String x t :: l
           | [] => [String x EmptyString]
           end
  end.

Definition point_loads (s : string) : option FeatureEngineering.Point :=
  match split_on ";" s with
  | [a; b; c] => Some (FeatureEngineering.mk_Point a b c)
  | _ => None
  end.

(** [isoformat] on the two instants of the requests below. *)
Definition clock (t : Z) : string :=
  if t =? t_day then "2024-01-01T00:00:00+00:00"
  else "2024-01-01T00:00:10+00:00".

(** A fitted model that votes "anomaly" on everything, and an object
    without a model whose [load_model] fails. *)
Definition model_alarm : MlModels.AnomalyDetectionModel :=
  MlModels.mk_AnomalyDetectionModel
    (Some (MlModels.mk_Forest (fun _ => Some [-1])
                              (fun _ => Some [(-0.25)%float])))
    (Some (MlModels.mk_Scaler Some)).

Definition model_none : MlModels.AnomalyDetectionModel :=
  MlModels.mk_AnomalyDetectionModel None None.

Definition no_loader (m : MlModels.AnomalyDetectionModel)
  : MlModels.AnomalyDetectionModel * bool := (m, false).

(** Two requests of subject 42, ten seconds apart. *)
Definition req_first : TrackRequest :=
  mk_TrackRequest "42" "12.9716" "77.5946" t_day.
Definition req_second : TrackRequest :=
  mk_TrackRequest "42" "12.9717" "77.5946" (t_day + 10000000).

(** [TrackLocationView.post] with these stand-ins. *)
Definition track (w : World) (req : TrackRequest) : World * TrackResponse :=
  TrackLocationView_post Example.runtime point_dumps point_loads no_loader
    clock Ok w req.

(** The session store after [StartJourneyView.post] for subject 42. *)
Definition srv_started : Redis.server :=
  (StartJourneyView_post (Redis.Up ∅) "42").1.

(** Two events of subject 7, ten seconds apart, and
    [TrackLocationConsumer.track_location] with the same stand-ins. *)
Definition event_first : Consumers.TrackEvent :=
  Consumers.mk_TrackEvent (JStr "7") "12.9716" "77.5946"
    (Consumers.TimeOf t_day).
Definition event_second : Consumers.TrackEvent :=
  Consumers.mk_TrackEvent (JStr "7") "12.9717" "77.5946"
    (Consumers.TimeOf (t_day + 10000000)).

Definition consume (w : Consumers.World) (ev : Consumers.TrackEvent)
  : Consumers.World :=
  Consumers.track_location Example.runtime point_dumps point_loads no_loader
    clock Ok (fun d => Ok (dt_micros d)) w ev.

(** The database [db_two] (subject 7 under the user row 1), an empty
    session store, the model that always votes "anomaly" and an empty
    channel layer; then the same after [event_first]. *)
Definition cworld : Consumers.World :=
  Consumers.mk_World db_two (Redis.Up ∅) model_alarm (Some []).
Definition cworld_one : Consumers.World := consume cworld event_first.

End Scenario.

(* ===================================================================== *)
(** * Vocabulary of the properties                                        *)
(* ===================================================================== *)

Module Spec.

Import FeatureEngineering.

(** The number of indicators that fire on the four features read. *)
Definition indicator_count (speed_mean speed_max bearing_change_max
                            acceleration_max : float) : Z :=
  Z.b2z (high_speed speed_max)
  + Z.b2z (sudden_turn bearing_change_max)
  + Z.b2z (high_acceleration acceleration_max)
  + Z.b2z (erratic speed_mean bearing_change_max).







(** The last [n] elements of a list, in order. *)
Definition last_n {A} (n : nat) (l : list A) : list A :=
  drop (length l - n) l.

(** The parsed timestamp of a point, as the first loop obtains it. *)
Definition parsed (R : Runtime) (p : Point) : option datetime :=
  fromisoformat R (replace_Z (timestamp p)).

(** A consecutive pair that yields no speed and no bearing sample: one of
    the two timestamps does not parse, or the time difference is [<= 0]. *)
Inductive unusable (R : Runtime) (prev curr : Point) : Prop :=
| unparseable_prev : parsed R prev = None -> unusable R prev curr
| unparseable_curr : parsed R curr = None -> unusable R prev curr
| not_increasing tp tc td :
    parsed R prev = Some tp -> parsed R curr = Some tc ->
    datetime_sub tc tp = Ok td ->
    PrimFloat.leb (total_seconds td) 0 = true ->
    unusable R prev curr.

(** A consecutive pair that yields a sample: both timestamps parse, they
    can be subtracted, and the time difference is not [<= 0]. *)
Inductive usable (R : Runtime) (prev curr : Point) : Prop :=
| increasing tp tc td :
    parsed R prev = Some tp -> parsed R curr = Some tc ->
    datetime_sub tc tp = Ok td ->
    PrimFloat.leb (total_seconds td) 0 = false ->
    usable R prev curr.

(** A value of a response body. *)
Fixpoint body_get (key : string) (b : list (string * Views.json))
  : option Views.json :=
  match b with
  | [] => None
  | (k, v) :: b' => if String.eqb k key then Some v else body_get key b'
  end.

(** The number of anomaly records of a subject whose timestamp is at or
    after [now] minus 24 hours. *)
Definition recent_count (db : Orm.database) (subject : string) (now : Z)
  : Z :=
  Z.of_nat (length (List.filter
                      (fun a => now - Utils.one_day <=? Orm.alert_timestamp a)
                      (Views.records_of db subject))).

(** The time-of-day penalty at an instant. *)
Definition night_penalty (t : Z) : Z :=
  if Utils.late_night (Utils.kolkata_hour t) then 10 else 0.

Definition clamp (x lo hi : Z) : Z := Z.max lo (Z.min hi x).

(** The subject has a user row, that is, an anomaly was recorded for it at
    some time. *)
Definition known (db : Orm.database) (subject : string) : Prop :=
  exists user,
    Orm.User_objects_get db (Utils.username_of subject) = Ok user.

(** No user row carries the subject's name. *)
Definition never_seen (db : Orm.database) (subject : string) : Prop :=
  Forall (fun u => Orm.username u <> Utils.username_of subject)
         (Orm.users db).

(** The uniqueness constraint on [auth_user.username]. *)
Definition unique_usernames (db : Orm.database) : Prop :=
  NoDup (Orm.username <$> Orm.users db).

(** Two points whose timestamps parse to the same instant. *)
Definition same_instant (R : Runtime) (a b : Point) : Prop :=
  exists ta tb,
    parsed R a = Some ta /\ parsed R b = Some tb
    /\ datetime_sub tb ta = Ok 0.


(** Both coordinates of a point are numerals that [float] accepts. *)
Definition coordinates_parse (R : Runtime) (p : Point) : Prop :=
  is_Some (float_of_str R (latitude p))
  /\ is_Some (float_of_str R (longitude p)).

(** Two parsed timestamps are both naive or both aware. *)
Definition same_awareness (ta tb : datetime) : Prop :=
  dt_utcoffset ta = None <-> dt_utcoffset tb = None.

(** The order in which [sorted] puts the points of a window. *)
Definition before (a b : Point) : Prop :=
  String.ltb (timestamp a) (timestamp b) = true.

(** [b] does not sort before [a]. *)
Definition not_after (a b : Point) : Prop :=
  String.ltb (timestamp b) (timestamp a) = false.

(** What Redis holds for a subject is the same in two servers: the
    journey marker and the stored window. *)
Definition same_session (srv srv' : Redis.server) (user_id : string)
  : Prop :=
  RedisClient.is_journey_active srv' user_id
  = RedisClient.is_journey_active srv user_id
  /\ RedisClient.stored_window srv' user_id
     = RedisClient.stored_window srv user_id.

(** The constraints that the database enforces on the two tables: user
    names and primary keys are unique, alert keys are unique, and every
    alert points to a user row. *)
Record well_formed (db : Orm.database) : Prop := mk_well_formed {
  wf_usernames : NoDup (Orm.username <$> Orm.users db);
  wf_ids : NoDup (Orm.id <$> Orm.users db);
  wf_alert_ids : NoDup (Orm.alert_id <$> Orm.alerts db);
  wf_foreign_keys :
    Forall (fun a => Orm.user_id a ∈ Orm.id <$> Orm.users db)
           (Orm.alerts db)
}.

(** Every consecutive pair of a (sorted) window is unusable. *)
Definition all_unusable (R : Runtime) (l : list Point) : Prop :=
  forall (i : nat) (prev curr : Point),
    l !! i = Some prev -> l !! S i = Some curr -> unusable R prev curr.

End Spec.

(* ===================================================================== *)
(** * Properties of the fallback scorer                                   *)
(* ===================================================================== *)

Section Scorer.

Import FeatureEngineering Spec.

Lemma getitem2_row (r : list float) (j : nat) (x : float) :
  r !! j = Some x -> getitem2 [r] 0 j = Ok x.
Proof. intros H. unfold getitem2. simpl. now rewrite H. Qed.

(** The scorer reads cells 0, 2, 6 and 9 of the single row, counts the
    four indicators, and answers [count >= 2] and [count / 4.0]. *)
Lemma scorer_counts (r : list float) (m s b a : float) :
  r !! 0%nat = Some m -> r !! 2%nat = Some s ->
  r !! 6%nat = Some b -> r !! 9%nat = Some a ->
  is_anomalous_behavior (Some [r])
  = Ok (2 <=? indicator_count m s b a,
        PrimFloat.div (Z2float (indicator_count m s b a)) 4).
Proof.
  intros H0 H2 H6 H9. unfold is_anomalous_behavior.
  rewrite (getitem2_row _ _ _ H0), (getitem2_row _ _ _ H2),
          (getitem2_row _ _ _ H6), (getitem2_row _ _ _ H9).
  unfold indicator_count, incr_if. cbn [mbind result_bind Py.bind].
  destruct (high_speed s), (sudden_turn b), (high_acceleration a),
           (erratic m b); reflexivity.
Qed.

(** C10.  Called without features ([features is None]) the rule-based
    scorer returns [(False, 0.0)]; it does not raise and never reports an
    anomaly. *)
Theorem scorer_absent_features :
  is_anomalous_behavior None = Ok (false, 0%float).
Proof. reflexivity. Qed.

(** Speed 60 and turn 130 with a maximal acceleration of 20 m/s^2:
    three indicators fire and the confidence is 0.75, not 0.5. *)
Lemma scorer_three_indicators :
  is_anomalous_behavior (Some [Example.row 30 60 130 20])
  = Ok (true, 0.75%float)
  /\ is_anomalous_behavior (Some [Example.row 30 60 130 20])
     <> Ok (true, 0.5%float).
Proof. split; [reflexivity | vm_compute; discriminate]. Qed.

(** C3 (amended).  For every feature vector the scorer counts exactly the
    four indicators (max speed > 50; max bearing change > 120;
    |max acceleration| > 10; mean speed < 1 and max bearing change > 90)
    and returns [isAnomaly = (count >= 2)], [confidence = count / 4.0].
    With max speed 60 and max bearing change 130 the verdict is
    anomalous with confidence 0.5, 0.75 or 1.0, and it is 0.5 exactly
    when neither of the two other indicators fires. *)
Theorem scorer_rule (r : list float) (m s b a : float) :
  length r = 14%nat ->
  r !! 0%nat = Some m -> r !! 2%nat = Some s ->
  r !! 6%nat = Some b -> r !! 9%nat = Some a ->
  is_anomalous_behavior (Some [r])
  = Ok (2 <=? indicator_count m s b a,
        PrimFloat.div (Z2float (indicator_count m s b a)) 4)
  /\ 0 <= indicator_count m s b a <= 4
  /\ (s = 60%float -> b = 130%float ->
      exists c, is_anomalous_behavior (Some [r]) = Ok (true, c)
                /\ (c = 0.5%float \/ c = 0.75%float \/ c = 1%float)
                /\ (c = 0.5%float <->
                    high_acceleration a = false
                    /\ PrimFloat.ltb m 1 = false)).
Proof.
  intros _ H0 H2 H6 H9.
  rewrite (scorer_counts r m s b a H0 H2 H6 H9).
  split; [reflexivity|]. split.
  - unfold indicator_count.
    destruct (high_speed s), (sudden_turn b), (high_acceleration a),
             (erratic m b); simpl; lia.
  - intros -> ->. unfold indicator_count, erratic.
    change (high_speed 60) with true. change (sudden_turn 130) with true.
    change (PrimFloat.ltb 90 130) with true.
    destruct (high_acceleration a), (PrimFloat.ltb m 1); simpl;
      eexists; (split; [reflexivity|]); (split; [auto|]);
      (split; [intros Hc | intros [Ha Hm]]);
      first [ reflexivity | discriminate
            | apply (f_equal (PrimFloat.ltb 0.625)) in Hc; discriminate Hc
            | split; reflexivity ].
Qed.

Lemma scorer_rule_witness :
  is_anomalous_behavior (Some [Example.row 30 60 130 2])
  = Ok (true, 0.5%float).
Proof.
  destruct (scorer_rule (Example.row 30 60 130 2) 30 60 130 2
              eq_refl eq_refl eq_refl eq_refl eq_refl)
    as (_ & _ & H).
  destruct (H eq_refl eq_refl) as (c & Hc & _ & Hhalf).
  rewrite Hc. rewrite (proj2 Hhalf (conj eq_refl eq_refl)). reflexivity.
Defined.

End Scorer.

(* ===================================================================== *)
(** * Properties of the geometry helpers and of the feature extractor     *)
(* ===================================================================== *)

Section Bearing.

Import FeatureEngineering Spec.
Local Open Scope Q_scope.











End Bearing.

Section Extractor.

Import FeatureEngineering Spec.

Variable R : Runtime.

Lemma consecutive_length {A B} (f : A -> A -> B) (l : list A) :
  length (consecutive f l) = (length l - 1)%nat.
Proof.
  induction l as [|a [|b l] IH]; simpl in *; try reflexivity.
  rewrite IH. lia.
Qed.

Lemma consecutive_lookup {A B} (f : A -> A -> B) (l : list A) (i : nat)
    (prev curr : A) :
  l !! i = Some prev -> l !! S i = Some curr ->
  consecutive f l !! i = Some (f prev curr).
Proof.
  revert i. induction l as [|a [|b l] IH]; intros i Hp Hc; try discriminate.
  destruct i as [|i]; simpl in *.
  - now inversion Hp; inversion Hc.
  - now apply IH.
Qed.

(** The series record holds the accelerations of its own speeds. *)
Lemma kinematic_series_accelerations (w : list Point) (s : Series) :
  kinematic_series R w = Ok (Some s) ->
  s_accelerations s = accelerations_of (s_speeds s)
  /\ s_speeds s <> [].
Proof.
  unfold kinematic_series. destruct (length w <? 2)%nat; [discriminate|].
  destruct (sorted timestamp w) as [|first rest]; [discriminate|].
  destruct (pair_loop R first rest [] []) as [[speeds bearings]|e];
    [|discriminate].
  simpl. destruct speeds; [discriminate|].
  intros [= <-]. split; [reflexivity | discriminate].
Qed.

(** C5.  Whenever [extract_features] has obtained at least two speed
    samples from a window, its acceleration series has one element per
    consecutive pair of speeds, and the element for the pair
    [speeds[i-1]], [speeds[i]] is [(speeds[i] - speeds[i-1]) / 10.0]: the
    divisor is the constant 10.0, not a difference of timestamps.  The
    returned row is the aggregation of these series. *)
Theorem acceleration_fixed_interval (w : list Point) (s : Series) :
  kinematic_series R w = Ok (Some s) ->
  (2 <= length (s_speeds s))%nat ->
  extract_features R w = Ok (Some [aggregate R s])
  /\ length (s_accelerations s) = (length (s_speeds s) - 1)%nat
  /\ forall i : nat, (1 <= i < length (s_speeds s))%nat ->
       exists prev curr : float,
         s_speeds s !! (i - 1)%nat = Some prev
         /\ s_speeds s !! i = Some curr
         /\ s_accelerations s !! (i - 1)%nat
            = Some (PrimFloat.div (PrimFloat.sub curr prev) 10).
Proof.
  intros Hs _. destruct (kinematic_series_accelerations w s Hs) as [-> _].
  split; [|split].
  - unfold extract_features. now rewrite Hs.
  - apply consecutive_length.
  - intros i Hi.
    destruct (lookup_lt_is_Some_2 (s_speeds s) (i - 1)) as [prev Hp]; [lia|].
    destruct (lookup_lt_is_Some_2 (s_speeds s) i) as [curr Hc]; [lia|].
    exists prev, curr. repeat split; try assumption.
    unfold accelerations_of.
    rewrite (consecutive_lookup _ _ (i - 1) prev curr); [reflexivity | assumption |].
    replace (S (i - 1)) with i by lia. assumption.
Qed.

End Extractor.

(** On three samples taken 10 s and then 30 s apart the single
    acceleration is still the speed difference over 10.0. *)
Lemma acceleration_fixed_interval_witness :
  exists (s : FeatureEngineering.Series) (prev curr : float),
    FeatureEngineering.kinematic_series Example.runtime
      [Example.p_early; Example.p_late; Example.p_later] = Ok (Some s)
    /\ FeatureEngineering.s_speeds s = [prev; curr]
    /\ FeatureEngineering.s_accelerations s
       = [PrimFloat.div (PrimFloat.sub curr prev) 10].
Proof.
  pose (s := match FeatureEngineering.kinematic_series Example.runtime
                     [Example.p_early; Example.p_late; Example.p_later] with
             | Ok (Some s) => s
             | _ => FeatureEngineering.mk_Series [] [] [] []
             end).
  assert (E : FeatureEngineering.kinematic_series Example.runtime
                [Example.p_early; Example.p_late; Example.p_later]
              = Ok (Some s)) by (vm_compute; reflexivity).
  pose (prev := default 0%float (FeatureEngineering.s_speeds s !! 0%nat)).
  pose (curr := default 0%float (FeatureEngineering.s_speeds s !! 1%nat)).
  assert (Hsp : FeatureEngineering.s_speeds s = [prev; curr])
    by (vm_compute; reflexivity).
  clearbody prev curr. clearbody s.
  destruct (acceleration_fixed_interval Example.runtime _ s E)
    as (_ & Hl & Ha).
  { rewrite Hsp. simpl. lia. }
  exists s, prev, curr. split; [exact E|]. split; [exact Hsp|].
  destruct (Ha 1%nat) as (p & c & Hp & Hc & Hacc).
  { rewrite Hsp. simpl. lia. }
  rewrite Hsp in Hp, Hc, Hl. simpl in Hp, Hc, Hl.
  injection Hp as <-. injection Hc as <-.
  destruct (FeatureEngineering.s_accelerations s) as [|a [|a' l]];
    try discriminate Hl.
  simpl in Hacc. injection Hacc as ->. reflexivity.
Defined.

Section Absent.

Import FeatureEngineering Spec.

Variable R : Runtime.

Lemma ltb_irrefl (s : string) : String.ltb s s = false.
Proof.
  unfold String.ltb. pose proof (String.compare_antisym s s) as H.
  destruct (String.compare s s); try reflexivity; discriminate.
Qed.

Lemma ltb_asym (s t : string) :
  String.ltb s t = true -> String.ltb t s = false.
Proof.
  unfold String.ltb. rewrite (String.compare_antisym t s).
  destruct (String.compare s t); simpl; intros; try reflexivity; discriminate.
Qed.

Lemma pair_time_diff_unusable (prev curr : Point) :
  unusable R prev curr -> pair_time_diff R prev curr = Ok None.
Proof.
  intros [Hp | Hc | tp tc td Hp Hc Hsub Hle];
    unfold pair_time_diff; unfold parsed in *.
  - now rewrite Hp.
  - rewrite Hc. now destruct (fromisoformat R (replace_Z (timestamp prev))).
  - rewrite Hp, Hc, Hsub. simpl. now rewrite Hle.
Qed.

(** An unusable pair leaves both accumulators as they are. *)
Lemma pair_loop_skip (prev curr : Point) (rest : list Point)
    (speeds bearings : list float) :
  unusable R prev curr ->
  pair_loop R prev (curr :: rest) speeds bearings
  = pair_loop R curr rest speeds bearings.
Proof.
  intros H. simpl. now rewrite (pair_time_diff_unusable _ _ H).
Qed.

Lemma pair_loop_all_unusable (rest : list Point) :
  forall (first : Point) (speeds bearings : list float),
    all_unusable R (first :: rest) ->
    pair_loop R first rest speeds bearings = Ok (speeds, bearings).
Proof.
  induction rest as [|curr rest IH]; intros first speeds bearings H.
  - reflexivity.
  - rewrite pair_loop_skip by exact (H 0%nat first curr eq_refl eq_refl).
    apply IH. intros i p c Hp Hc. exact (H (S i) p c Hp Hc).
Qed.

Lemma extract_short (w : list Point) :
  (length w < 2)%nat -> extract_features R w = Ok None.
Proof.
  intros H. unfold extract_features, kinematic_series.
  apply Nat.ltb_lt in H. now rewrite H.
Qed.

Lemma extract_all_unusable (w : list Point) :
  all_unusable R (sorted timestamp w) -> extract_features R w = Ok None.
Proof.
  intros H. unfold extract_features, kinematic_series.
  destruct (length w <? 2)%nat; [reflexivity|].
  destruct (sorted timestamp w) as [|first rest]; [reflexivity|].
  now rewrite (pair_loop_all_unusable rest first [] [] H).
Qed.

Lemma sorted_pair (a b : Point) :
  sorted timestamp [a; b]
  = if String.ltb (timestamp b) (timestamp a) then [b; a] else [a; b].
Proof. reflexivity. Qed.

Lemma all_unusable_pair (a b : Point) :
  unusable R a b -> all_unusable R [a; b].
Proof.
  intros H [|[|i]] p c Hp Hc; try discriminate.
  injection Hp as <-. injection Hc as <-. exact H.
Qed.

Lemma datetime_sub_diag (d : datetime) : datetime_sub d d = Ok 0.
Proof.
  unfold datetime_sub. destruct (dt_utcoffset d); f_equal; lia.
Qed.

(** Two points that carry the same timestamp text form an unusable pair. *)
Lemma unusable_same_timestamp (a b : Point) :
  timestamp a = timestamp b -> unusable R a b.
Proof.
  intros H. destruct (parsed R a) as [d|] eqn:Ha.
  - apply (not_increasing R a b d d 0); try assumption.
    + unfold parsed in *. now rewrite <- H.
    + apply datetime_sub_diag.
    + reflexivity.
  - now apply unparseable_prev.
Qed.

Lemma datetime_sub_swap (ta tb : datetime) :
  datetime_sub tb ta = Ok 0 -> datetime_sub ta tb = Ok 0.
Proof.
  unfold datetime_sub.
  destruct (dt_utcoffset ta), (dt_utcoffset tb); try discriminate;
    intros [= H]; f_equal; lia.
Qed.

(** Two points at the same instant form an unusable pair, in both
    orders. *)
Lemma unusable_same_instant (a b : Point) :
  same_instant R a b -> unusable R a b /\ unusable R b a.
Proof.
  intros (ta & tb & Ha & Hb & Hsub). split.
  - now apply (not_increasing R a b ta tb 0).
  - apply (not_increasing R b a tb ta 0); try assumption; [|reflexivity].
    now apply datetime_sub_swap.
Qed.

Lemma pair_time_diff_usable (prev curr : Point) :
  usable R prev curr ->
  exists time_diff, pair_time_diff R prev curr = Ok (Some time_diff).
Proof.
  intros [tp tc td Hp Hc Hsub Hle]. unfold pair_time_diff. unfold parsed in *.
  rewrite Hp, Hc, Hsub. cbn [mbind result_bind Py.bind]. rewrite Hle. eauto.
Qed.

(** Two points in timestamp order that form a usable pair: the loop
    appends a speed sample, unless a coordinate or the geometry raises;
    the result is never [None]. *)
Lemma usable_pair_not_absent (a b : Point) :
  String.ltb (timestamp b) (timestamp a) = false ->
  usable R a b ->
  extract_features R [a; b] <> Ok None.
Proof.
  intros Hord Hu. destruct (pair_time_diff_usable a b Hu) as [t Ht].
  unfold extract_features, kinematic_series.
  change (length [a; b] <? 2)%nat with false. cbv iota.
  rewrite sorted_pair, Hord. cbn [pair_loop]. rewrite Ht.
  cbn [mbind result_bind Py.bind].
  destruct (float_ R (latitude a)); [|discriminate].
  destruct (float_ R (longitude a)); [|discriminate].
  destruct (float_ R (latitude b)); [|discriminate].
  destruct (float_ R (longitude b)); [|discriminate].
  cbn [mbind result_bind Py.bind].
  destruct (haversine_distance R _ _ _ _); [|discriminate].
  cbn [mbind result_bind Py.bind].
  destruct (calculate_bearing R _ _ _ _); discriminate.
Qed.

(** C4 (amended).  [extract_features] returns [None] for every window of
    fewer than two points.  In the window sorted by timestamp, a
    consecutive pair whose time difference is [<= 0], or one of whose
    timestamps does not parse, is skipped without an error and adds no
    speed or bearing sample; when every pair is skipped the result is
    [None].  In particular two points with equal timestamps (the same
    text, or the same instant) yield [None].  Two points given in reverse
    order are sorted first: the result is that of the same two points in
    order; it is [None] if the pair is unusable in both orders, and it is
    not [None] if the sorted pair is usable. *)
Theorem extract_absent (w : list Point) :
  ((length w < 2)%nat -> extract_features R w = Ok None)
  /\ (forall (prev curr : Point) (rest : list Point)
             (speeds bearings : list float),
        unusable R prev curr ->
        pair_loop R prev (curr :: rest) speeds bearings
        = pair_loop R curr rest speeds bearings)
  /\ (all_unusable R (sorted timestamp w) -> extract_features R w = Ok None)
  /\ (forall a b : Point,
        w = [a; b] -> timestamp a = timestamp b \/ same_instant R a b ->
        extract_features R w = Ok None)
  /\ (forall a b : Point,
        w = [a; b] -> String.ltb (timestamp b) (timestamp a) = true ->
        extract_features R w = extract_features R [b; a])
  /\ (forall a b : Point,
        w = [a; b] -> unusable R a b -> unusable R b a ->
        extract_features R w = Ok None)
  /\ (forall a b : Point,
        w = [a; b] -> String.ltb (timestamp b) (timestamp a) = true ->
        usable R b a ->
        extract_features R w <> Ok None).
Proof.
  split; [apply extract_short|].
  split; [apply pair_loop_skip|].
  split; [apply extract_all_unusable|].
  split; [|split; [|split]].
  - intros a b -> [Heq | Hsame]; apply extract_all_unusable.
    + rewrite sorted_pair, <- Heq, ltb_irrefl.
      now apply all_unusable_pair, unusable_same_timestamp.
    + destruct (unusable_same_instant a b Hsame) as [Hab Hba].
      rewrite sorted_pair.
      destruct (String.ltb (timestamp b) (timestamp a));
        now apply all_unusable_pair.
  - intros a b -> Hlt. unfold extract_features, kinematic_series.
    simpl length. cbv iota beta. rewrite !sorted_pair, Hlt.
    now rewrite (ltb_asym _ _ Hlt).
  - intros a b -> Hab Hba. apply extract_all_unusable. rewrite sorted_pair.
    destruct (String.ltb (timestamp b) (timestamp a));
      now apply all_unusable_pair.
  - intros a b -> Hlt Hu.
    assert (Hswap : extract_features R [a; b] = extract_features R [b; a]).
    { unfold extract_features, kinematic_series.
      simpl length. cbv iota beta. rewrite !sorted_pair, Hlt.
      now rewrite (ltb_asym _ _ Hlt). }
    rewrite Hswap. apply usable_pair_not_absent; [|exact Hu].
    now apply ltb_asym.
Qed.

End Absent.

(** Two samples that arrive latest first are put back in order by the
    sort; their time difference is then 10 s and a feature row comes
    back, not [None]. *)
Lemma reversed_pair_not_absent :
  String.ltb (FeatureEngineering.timestamp Example.p_early)
             (FeatureEngineering.timestamp Example.p_late) = true
  /\ FeatureEngineering.extract_features Example.runtime
       [Example.p_late; Example.p_early] <> Ok None.
Proof. split; [reflexivity | vm_compute; discriminate]. Qed.

Lemma extract_absent_witness :
  FeatureEngineering.extract_features Example.runtime [Example.p_early]
  = Ok None
  /\ FeatureEngineering.extract_features Example.runtime
       [Example.p_early; Example.p_garbled] = Ok None
  /\ FeatureEngineering.extract_features Example.runtime
       [Example.p_early; Example.p_same] = Ok None
  /\ FeatureEngineering.extract_features Example.runtime
       [Example.p_late; Example.p_early]
     = FeatureEngineering.extract_features Example.runtime
         [Example.p_early; Example.p_late]
  /\ FeatureEngineering.extract_features Example.runtime
       [Example.p_later; Example.p_late] <> Ok None.
Proof.
  split; [|split; [|split; [|split]]].
  - destruct (extract_absent Example.runtime [Example.p_early]) as (H & _).
    apply H. simpl. lia.
  - destruct (extract_absent Example.runtime
                [Example.p_early; Example.p_garbled])
      as (_ & _ & _ & _ & _ & H & _).
    apply (H _ _ eq_refl).
    + apply Spec.unparseable_curr. reflexivity.
    + apply Spec.unparseable_prev. reflexivity.
  - destruct (extract_absent Example.runtime
                [Example.p_early; Example.p_same])
      as (_ & _ & _ & H & _).
    apply (H _ _ eq_refl). left. reflexivity.
  - destruct (extract_absent Example.runtime
                [Example.p_late; Example.p_early])
      as (_ & _ & _ & _ & H & _).
    apply (H _ _ eq_refl). reflexivity.
  - destruct (extract_absent Example.runtime
                [Example.p_later; Example.p_late])
      as (_ & _ & _ & _ & _ & _ & H).
    apply (H _ _ eq_refl); [reflexivity|].
    eapply Spec.increasing; reflexivity.
Defined.

(* ===================================================================== *)
(** * Properties of the window store                                      *)
(* ===================================================================== *)

Section Window.

Import Redis RedisClient Spec.

(** Inversion of one monadic step. *)
Lemma bind_Ok {X Y} (m : result X) (k : X -> result Y) (y : Y) :
  (x ← m; k x) = Ok y -> exists x, m = Ok x /\ k x = Ok y.
Proof. destruct m as [x|e]; [eauto | discriminate]. Qed.

Ltac inv_bind H :=
  let x := fresh "x" in
  let Hx := fresh "Hx" in
  apply bind_Ok in H; destruct H as (x & Hx & H).

Ltac case_cmp :=
  repeat match goal with
         | |- context [?a <? ?b] => destruct (Z.ltb_spec a b)
         | |- context [?a <=? ?b] => destruct (Z.leb_spec a b)
         end.

Lemma range_tail (n : nat) :
  (0 < n)%nat ->
  range (Z.of_nat n) (-30) (-1) = ((n - 30)%nat, (n - (n - 30))%nat).
Proof.
  intros H. unfold range. cbv zeta.
  change (-30 <? 0) with true. change (-1 <? 0) with true. cbv iota.
  case_cmp; simpl; try (exfalso; lia); f_equal; lia.
Qed.

Lemma range_whole (n : nat) :
  (0 < n)%nat -> range (Z.of_nat n) 0 (-1) = (0%nat, n).
Proof.
  intros H. unfold range. cbv zeta.
  change (0 <? 0) with false. change (-1 <? 0) with true. cbv iota.
  case_cmp; simpl; try (exfalso; lia); f_equal; lia.
Qed.

Lemma slice_tail (l : list string) : slice l (-30) (-1) = last_n 30 l.
Proof.
  destruct l as [|a l]; [reflexivity|].
  unfold slice, last_n. rewrite range_tail by (simpl; lia).
  apply take_ge. rewrite length_drop. lia.
Qed.

Lemma slice_whole (l : list string) : slice l 0 (-1) = l.
Proof.
  destruct l as [|a l]; [reflexivity|].
  unfold slice. rewrite range_whole by (simpl; lia).
  rewrite drop_0. now apply take_ge.
Qed.

Lemma last_n_length {X} (n : nat) (l : list X) : (length (last_n n l) <= n)%nat.
Proof. unfold last_n. rewrite length_drop. lia. Qed.

Lemma last_n_fmap {X Y} (f : X -> Y) (n : nat) (l : list X) :
  last_n n (f <$> l) = f <$> last_n n l.
Proof. unfold last_n. now rewrite fmap_drop, length_fmap. Qed.

Lemma last_n_app {X} (n : nat) (a b : list X) :
  last_n n (last_n n a ++ b) = last_n n (a ++ b).
Proof.
  unfold last_n. rewrite !length_app, length_drop.
  rewrite <- (drop_app_le a b (length a - n)) by lia.
  rewrite drop_drop. f_equal. lia.
Qed.

Lemma list_at_put_list (key : string) (l : list string) (db : keyspace) :
  list_at key (put_list key l db) = Ok l.
Proof.
  unfold list_at, put_list. destruct l.
  - now rewrite lookup_delete_eq.
  - now rewrite lookup_insert_eq.
Qed.

Lemma put_list_put_list (key : string) (l l' : list string) (db : keyspace) :
  put_list key l' (put_list key l db) = put_list key l' db.
Proof.
  unfold put_list. destruct l, l'.
  - apply delete_delete_eq.
  - apply insert_delete_eq.
  - apply delete_insert_eq.
  - apply insert_insert_eq.
Qed.

Lemma lookup_put_list_ne (key key' : string) (l : list string)
    (db : keyspace) :
  key <> key' -> put_list key l db !! key' = db !! key'.
Proof.
  intros H. unfold put_list. destruct l.
  - now apply lookup_delete_ne.
  - now apply lookup_insert_ne.
Qed.

Lemma stored_window_put_list (u : string) (l : list string) (db : keyspace) :
  stored_window (Up (put_list (location_key u) l db)) u = l.
Proof.
  unfold stored_window, put_list. destruct l.
  - now rewrite lookup_delete_eq.
  - now rewrite lookup_insert_eq.
Qed.

Lemma journey_ne_location (u u' : string) : journey_key u <> location_key u'.
Proof. discriminate. Qed.

(** The server after [add_location_point], for any payload. *)
Lemma add_location_point_server {A} (dumps : A -> string)
    (loads : string -> option A) (db : keyspace) (u : string) (x : A)
    (srv' : server) (w : list A) :
  add_location_point dumps loads (Up db) u x = Ok (srv', w) ->
  exists l,
    list_at (location_key u) db = Ok l
    /\ srv' = Up (put_list (location_key u) (last_n 30 (l ++ [dumps x])) db)
    /\ loads_all loads (last_n 30 (l ++ [dumps x])) = Ok w.
Proof.
  unfold add_location_point, connect. intros H. simpl in H.
  unfold RPUSH in H. inv_bind H. inv_bind Hx. injection Hx as <-.
  unfold LTRIM in H. rewrite list_at_put_list in H. simpl in H.
  rewrite put_list_put_list, slice_tail in H.
  unfold LRANGE in H. rewrite list_at_put_list in H. simpl in H.
  rewrite slice_whole in H. inv_bind H. injection H as <- <-.
  eauto.
Qed.

Lemma loads_all_length {A} (loads : string -> option A) (l : list string) :
  forall w, loads_all loads l = Ok w -> length w = length l.
Proof.
  induction l as [|s l IH]; intros w H; simpl in H.
  - now injection H as <-.
  - destruct (loads s); [|discriminate]. inv_bind H. injection H as <-.
    simpl. f_equal. now apply IH.
Qed.

(** Every client operation keeps every stored window within 30 entries. *)
Lemma step_bounded (srv srv' : server) :
  step srv srv' ->
  (forall u, (length (stored_window srv u) <= 30)%nat) ->
  forall u, (length (stored_window srv' u) <= 30)%nat.
Proof.
  intros Hstep IH u'. destruct Hstep as
    [srv u srv' b H | srv u srv' b H | A dumps loads srv u x srv' w H].
  - unfold start_journey, connect in H. destruct srv as [db|]; [|discriminate].
    simpl in H. injection H as <- _. specialize (IH u').
    unfold stored_window, DEL, SET in *.
    destruct (decide (location_key u = location_key u')) as [->|Hne].
    + rewrite lookup_delete_eq. simpl. lia.
    + rewrite lookup_delete_ne by assumption.
      rewrite lookup_insert_ne by apply journey_ne_location. exact IH.
  - unfold end_journey, connect in H. destruct srv as [db|]; [|discriminate].
    simpl in H. injection H as <- _. specialize (IH u').
    unfold stored_window, DEL in *.
    destruct (decide (location_key u = location_key u')) as [->|Hne].
    + rewrite lookup_delete_eq. simpl. lia.
    + rewrite lookup_delete_ne by assumption.
      rewrite lookup_delete_ne by apply journey_ne_location. exact IH.
  - destruct srv as [db|]; [|discriminate].
    apply add_location_point_server in H. destruct H as (l & _ & -> & _).
    destruct (decide (location_key u = location_key u')) as [E|Hne].
    + unfold stored_window. rewrite <- E.
      change (length (stored_window
                (Up (put_list (location_key u)
                       (last_n 30 (l ++ [dumps x])) db)) u) <= 30)%nat.
      rewrite stored_window_put_list. apply last_n_length.
    + specialize (IH u'). unfold stored_window in *.
      now rewrite lookup_put_list_ne.
Qed.

Lemma reachable_bounded (srv : server) :
  reachable srv -> forall u, (length (stored_window srv u) <= 30)%nat.
Proof.
  induction 1 as [|srv srv' _ IH Hstep].
  - intros u. unfold stored_window. rewrite lookup_empty. simpl. lia.
  - now apply (step_bounded srv srv').
Qed.

Context {A : Type}.
Variable json_dumps : A -> string.
Variable json_loads : string -> option A.
Hypothesis json_roundtrip : forall a : A, json_loads (json_dumps a) = Some a.

Lemma loads_all_dumps (xs : list A) :
  loads_all json_loads (json_dumps <$> xs) = Ok xs.
Proof.
  induction xs as [|x xs IH]; [reflexivity|].
  change (loads_all json_loads (json_dumps <$> x :: xs))
    with (match json_loads (json_dumps x) with
          | None => Raise ValueError
          | Some a => t ← loads_all json_loads (json_dumps <$> xs); Ok (a :: t)
          end).
  rewrite json_roundtrip, IH. reflexivity.
Qed.

(** One append on a window that holds the encodings of [old]. *)
Lemma add_location_point_spec (db : keyspace) (u : string) (old : list A)
    (x : A) :
  list_at (location_key u) db = Ok (json_dumps <$> old) ->
  add_location_point json_dumps json_loads (Up db) u x
  = Ok (Up (put_list (location_key u)
              (json_dumps <$> last_n 30 (old ++ [x])) db),
        last_n 30 (old ++ [x])).
Proof.
  intros Hl. unfold add_location_point, connect. simpl.
  unfold RPUSH. rewrite Hl. simpl.
  unfold LTRIM. rewrite list_at_put_list. simpl.
  rewrite put_list_put_list, slice_tail.
  unfold LRANGE. rewrite list_at_put_list. simpl. rewrite slice_whole.
  replace ((json_dumps <$> old) ++ [json_dumps x])
    with (json_dumps <$> (old ++ [x])) by now rewrite fmap_app.
  rewrite last_n_fmap, loads_all_dumps. reflexivity.
Qed.

Lemma append_all_spec (xs : list A) :
  forall (db : keyspace) (u : string) (old : list A) (x : A),
    list_at (location_key u) db = Ok (json_dumps <$> old) ->
    append_all json_dumps json_loads (Up db) u (x :: xs)
    = Ok (Up (put_list (location_key u)
                (json_dumps <$> last_n 30 (old ++ x :: xs)) db),
          last_n 30 (old ++ x :: xs)).
Proof.
  induction xs as [|y xs IH]; intros db u old x Hl.
  - simpl. now apply add_location_point_spec.
  - change (append_all json_dumps json_loads (Up db) u (x :: y :: xs))
      with ('(srv', _) ← add_location_point json_dumps json_loads (Up db) u x;
            append_all json_dumps json_loads srv' u (y :: xs)).
    rewrite (add_location_point_spec db u old x Hl).
    cbn [mbind result_bind Py.bind].
    rewrite (IH _ u (last_n 30 (old ++ [x])) y)
      by apply list_at_put_list.
    rewrite put_list_put_list, last_n_app.
    now rewrite <- app_assoc.
Qed.

(** C2.  In every state that the client can reach, every subject's
    window holds at most 30 entries.  [add_location_point] returns the
    full current window, of at most 30 entries.  Appending a sequence of
    samples to a window leaves exactly the last 30 entries, in insertion
    order (the oldest are dropped first); on a fresh window these are
    the last 30 samples: of 35 samples the first 5 are gone. *)
Theorem window_bounded (srv : server) (user_id : string) (samples : list A) :
  (reachable srv ->
   forall u : string, (length (stored_window srv u) <= 30)%nat)
  /\ (forall (x : A) (srv' : server) (w : list A),
        add_location_point json_dumps json_loads srv user_id x
        = Ok (srv', w) ->
        get_location_window json_loads srv' user_id = Ok w
        /\ length w = length (stored_window srv' user_id)
        /\ (length w <= 30)%nat)
  /\ (forall (db : keyspace) (old : list A) (x : A) (xs : list A),
        srv = Up db ->
        list_at (location_key user_id) db = Ok (json_dumps <$> old) ->
        samples = x :: xs ->
        exists srv' : server,
          append_all json_dumps json_loads srv user_id samples
          = Ok (srv', last_n 30 (old ++ samples))
          /\ stored_window srv' user_id
             = json_dumps <$> last_n 30 (old ++ samples))
  /\ (forall db : keyspace,
        srv = Up db -> db !! location_key user_id = None ->
        exists srv' : server,
          append_all json_dumps json_loads srv user_id samples
          = Ok (srv', last_n 30 samples)
          /\ stored_window srv' user_id = json_dumps <$> last_n 30 samples
          /\ get_location_window json_loads srv' user_id
             = Ok (last_n 30 samples)
          /\ (length (last_n 30 samples) <= 30)%nat
          /\ (length samples = 35%nat ->
              last_n 30 samples = drop 5 samples)).
Proof.
  split; [apply reachable_bounded|]. split.
  - intros x srv' w H. destruct srv as [db|]; [|discriminate].
    apply add_location_point_server in H. destruct H as (l & _ & -> & Hw).
    split; [|split].
    + unfold get_location_window, connect. cbn [mbind result_bind Py.bind].
      unfold LRANGE. rewrite list_at_put_list.
      cbn [mbind result_bind Py.bind]. now rewrite slice_whole.
    + rewrite stored_window_put_list. exact (loads_all_length _ _ _ Hw).
    + rewrite (loads_all_length _ _ _ Hw). apply last_n_length.
  - split.
    { intros db old x xs -> Hl ->. eexists.
      rewrite (append_all_spec xs db user_id old x Hl).
      split; [reflexivity | apply stored_window_put_list]. }
    intros db -> Hfresh.
    assert (Hl : list_at (location_key user_id) db = Ok (json_dumps <$> [])).
    { unfold list_at. now rewrite Hfresh. }
    destruct samples as [|x xs].
    + exists (Up db). unfold append_all, get_location_window, connect.
      cbn [mbind result_bind Py.bind]. unfold LRANGE. rewrite Hl.
      unfold stored_window. rewrite Hfresh.
      repeat split; try reflexivity; simpl; try lia; try discriminate.
    + eexists. rewrite (append_all_spec xs db user_id [] x Hl).
      split; [reflexivity|]. rewrite stored_window_put_list.
      split; [reflexivity|]. split.
      * unfold get_location_window, connect. simpl. unfold LRANGE.
        rewrite list_at_put_list. simpl.
        now rewrite slice_whole, loads_all_dumps.
      * split; [apply last_n_length|].
        intros H35. unfold last_n. simpl app. now rewrite H35.
Qed.

End Window.

Lemma window_bounded_witness :
  exists srv' : Redis.server,
    RedisClient.append_all id Some (Redis.Up ∅) "s" Scenario.samples35
    = Ok (srv', drop 5 Scenario.samples35)
    /\ RedisClient.stored_window srv' "s" = drop 5 Scenario.samples35.
Proof.
  destruct (window_bounded id Some (fun a => eq_refl) (Redis.Up ∅) "s"
              Scenario.samples35) as (_ & _ & _ & H).
  destruct (H ∅ eq_refl eq_refl) as (srv' & Happ & Hst & _ & _ & H35).
  exists srv'. rewrite <- (H35 eq_refl). split; [exact Happ|].
  rewrite Hst. apply list_fmap_id.
Defined.

(* ===================================================================== *)
(** * Properties of the safety score and of the resets                    *)
(* ===================================================================== *)

Section Safety.

Import Orm Utils Views Spec.

Lemma filter_never_seen (name : string) (l : list User) :
  Forall (fun u => username u <> name) l ->
  List.filter (fun u => String.eqb (username u) name) l = [].
Proof.
  induction 1 as [|u l Hu _ IH]; [reflexivity|].
  simpl. apply String.eqb_neq in Hu. now rewrite Hu.
Qed.

Lemma get_never_seen (db : database) (subject : string) :
  never_seen db subject ->
  User_objects_get db (username_of subject) = Raise DoesNotExist.
Proof.
  intros H. unfold User_objects_get. now rewrite filter_never_seen.
Qed.

(** Under the uniqueness constraint at most one row has a given name. *)
Lemma filter_unique (name : string) (l : list User) :
  NoDup (username <$> l) ->
  (length (List.filter (fun u => String.eqb (username u) name) l) <= 1)%nat.
Proof.
  induction l as [|u l IH]; intros Hnd; [simpl; lia|].
  rewrite fmap_cons in Hnd. apply NoDup_cons in Hnd as [Hu Hnd].
  simpl. destruct (String.eqb (username u) name) eqn:E.
  - apply String.eqb_eq in E. rewrite filter_never_seen; [simpl; lia|].
    apply Forall_forall. intros v Hv Hname. apply Hu.
    rewrite E, <- Hname. apply list_elem_of_fmap. exists v. split; [reflexivity|].
    exact Hv.
  - now apply IH.
Qed.

Lemma get_unique (db : database) (name : string) :
  unique_usernames db ->
  (exists user, User_objects_get db name = Ok user)
  \/ User_objects_get db name = Raise DoesNotExist.
Proof.
  intros H. pose proof (filter_unique name (users db) H) as Hl.
  unfold User_objects_get.
  destruct (List.filter _ (users db)) as [|u [|v l]]; simpl in Hl;
    [right | left; eexists | lia]; reflexivity.
Qed.

Lemma recent_count_known (db : database) (subject : string) (user : User)
    (now : Z) :
  User_objects_get db (username_of subject) = Ok user ->
  recent_count db subject now = count_since db user (now - one_day).
Proof. intros H. unfold recent_count, records_of, count_since. now rewrite H. Qed.

Lemma recent_count_nonneg (db : database) (subject : string) (now : Z) :
  0 <= recent_count db subject now.
Proof. unfold recent_count. lia. Qed.

Lemma night_penalty_cases (t : Z) : night_penalty t = 0 \/ night_penalty t = 10.
Proof. unfold night_penalty. destruct (late_night _); auto. Qed.

(** The score of a subject that has a user row. *)
Lemma score_known (db : database) (now now' : Z) (subject : string)
    (user : User) :
  User_objects_get db (username_of subject) = Ok user ->
  exists fs,
    calculate_safety_score_by_user_id db now now' subject
    = Ok (mk_SafetyScore
            (clamp (100 - 15 * recent_count db subject now
                        - night_penalty now') 0 100) fs).
Proof.
  intros H. rewrite (recent_count_known db subject user now H).
  unfold calculate_safety_score_by_user_id, night_penalty, clamp.
  rewrite H. destruct (late_night (kolkata_hour now')); eexists;
    do 2 f_equal; lia.
Qed.




(** For a subject that was never seen the factor reads
    "No tracking history available", with a capital N. *)
Lemma never_seen_factor_text :
  calculate_safety_score_by_user_id Scenario.empty_db
    Scenario.t_day Scenario.t_day "42"
  <> Ok (mk_SafetyScore 100 ["no tracking history available"%string]).
Proof. vm_compute. discriminate. Qed.

(** C8 (amended).  For a subject with no tracking history at all (no user
    row carries its name) the computation does not raise: it returns the
    score 100 with the single factor "No tracking history available". *)
Theorem safety_score_never_seen (db : database) (now now' : Z)
    (subject : string) :
  never_seen db subject ->
  calculate_safety_score_by_user_id db now now' subject
  = Ok (mk_SafetyScore 100 ["No tracking history available"%string]).
Proof.
  intros Hnever. unfold calculate_safety_score_by_user_id.
  assert (Hget : User_objects_get db (username_of subject)
                 = Raise DoesNotExist).
  { unfold User_objects_get. unfold never_seen in Hnever.
    now rewrite (filter_never_seen _ _ Hnever). }
  rewrite Hget. reflexivity.
Qed.

Lemma safety_score_never_seen_witness :
  calculate_safety_score_by_user_id Scenario.empty_db
    Scenario.t_night Scenario.t_night "42"
  = Ok (mk_SafetyScore 100 ["No tracking history available"%string]).
Proof.
  apply (safety_score_never_seen Scenario.empty_db). constructor.
Defined.

Lemma filter_filter_negb {X} (f : X -> bool) (l : list X) :
  List.filter f (List.filter (fun a => negb (f a)) l) = [].
Proof.
  induction l as [|a l IH]; [reflexivity|].
  simpl. destruct (f a) eqn:E; simpl; [|rewrite E]; exact IH.
Qed.

Lemma alerts_of_delete (db : database) (pk : Z) :
  alerts_of (delete_alerts_of db pk).1 pk = [].
Proof. unfold alerts_of, delete_alerts_of. simpl. apply filter_filter_negb. Qed.






Lemma bind_integer_Ok (z : Z) :
  - 2 ^ 63 <= z < 2 ^ 63 -> bind_integer z = Ok z.
Proof.
  intros Hz. unfold bind_integer.
  destruct (Z.leb_spec (- 2 ^ 63) z); [|lia].
  destruct (Z.ltb_spec z (2 ^ 63)); [reflexivity | lia].
Qed.

(** What the reset does: it deletes by primary key. *)
Lemma reset_by_primary_key (db : database) (pk : Z) :
  pk <> 0 -> - 2 ^ 63 <= pk < 2 ^ 63 ->
  exists resp,
    ResetAnomaliesView_post db (Some (JInt pk))
    = Ok ((delete_alerts_of db pk).1, resp)
    /\ alerts_of (delete_alerts_of db pk).1 pk = []
    /\ body_get "message" (body resp)
       = Some (JStr ("Successfully deleted "
                       ++ str_of_Z (Z.of_nat (length (alerts_of db pk)))
                       ++ " anomalies for user " ++ str_of_Z pk ++ ".")).
Proof.
  intros Hpk Hrange. unfold ResetAnomaliesView_post, truthy, prep_pk.
  apply Z.eqb_neq in Hpk. rewrite Hpk. rewrite (bind_integer_Ok pk Hrange).
  simpl. eexists. split; [reflexivity|]. split; [apply alerts_of_delete | reflexivity].
Qed.

(** C7.  [TrackLocationView] files the alerts of subject "7" under the
    user row named "user_7", whose primary key is 1.  The reset for "7"
    compares the foreign key with 7: it deletes nothing, reports 0, and
    both records are still there.  For a subject whose identifier is not
    a number the query raises.  The journey end, which looks the user up
    by name, deletes both. *)
Theorem reset_misses_tracked_subject :
  length (records_of Scenario.db_two "7") = 2%nat
  /\ ResetAnomaliesView_post Scenario.db_two (Some (JStr "7"))
     = Ok (Scenario.db_two,
           mk_Response 200
             [("message"%string,
                JStr "Successfully deleted 0 anomalies for user 7.")])
  /\ ResetAnomaliesView_post Scenario.db_two
       (Some (JStr "test_anomaly_user"))
     = Raise ValueError
  /\ records_of (EndJourneyView_post Scenario.db_two Redis.Down "7").1.1 "7"
     = [].
Proof. repeat split. Qed.

End Safety.

(* ===================================================================== *)
(** * Further properties: the session store                               *)
(* ===================================================================== *)

Section Sessions.

Import Redis RedisClient Spec.

Lemma location_key_inj (u u' : string) :
  location_key u = location_key u' -> u = u'.
Proof. unfold location_key. intros H. cbn in H. now injection H. Qed.

Lemma journey_key_inj (u u' : string) :
  journey_key u = journey_key u' -> u = u'.
Proof. unfold journey_key. intros H. cbn in H. now injection H. Qed.

Lemma location_ne_journey (u u' : string) : location_key u <> journey_key u'.
Proof. discriminate. Qed.

Lemma get_location_window_empty {A} (json_loads : string -> option A)
    (db : keyspace) (u : string) :
  db !! location_key u = None ->
  get_location_window json_loads (Up db) u = Ok [].
Proof.
  intros H. unfold get_location_window, connect, LRANGE, list_at.
  cbn [mbind result_bind Py.bind]. now rewrite H.
Qed.

(** X1.  [start_journey] on a reachable server succeeds; afterwards the
    journey of the subject is active and its window is empty, whatever the
    window held before. *)
Theorem start_journey_opens_session {A} (json_loads : string -> option A)
    (db : keyspace) (u : string) :
  exists srv',
    start_journey (Up db) u = Ok (srv', true)
    /\ is_journey_active srv' u = Ok true
    /\ stored_window srv' u = []
    /\ get_location_window json_loads srv' u = Ok [].
Proof.
  eexists. split; [reflexivity|].
  assert (Hloc : DEL (location_key u) (SET (journey_key u) journey_marker db)
                   !! location_key u = None)
    by apply lookup_delete_eq.
  split; [|split].
  - unfold is_journey_active, connect, EXISTS, DEL, SET.
    cbn [mbind result_bind Py.bind]. f_equal. apply bool_decide_eq_true.
    rewrite lookup_delete_ne by apply location_ne_journey.
    rewrite lookup_insert_eq. eauto.
  - unfold stored_window. now rewrite Hloc.
  - now apply get_location_window_empty.
Qed.

(** X2.  [end_journey] on a reachable server succeeds; afterwards the
    journey of the subject is not active and its window is empty. *)
Theorem end_journey_closes_session {A} (json_loads : string -> option A)
    (db : keyspace) (u : string) :
  exists srv',
    end_journey (Up db) u = Ok (srv', true)
    /\ is_journey_active srv' u = Ok false
    /\ stored_window srv' u = []
    /\ get_location_window json_loads srv' u = Ok [].
Proof.
  eexists. split; [reflexivity|].
  assert (Hloc : DEL (location_key u) (DEL (journey_key u) db)
                   !! location_key u = None)
    by apply lookup_delete_eq.
  split; [|split].
  - unfold is_journey_active, connect, EXISTS, DEL.
    cbn [mbind result_bind Py.bind]. f_equal. apply bool_decide_eq_false.
    rewrite lookup_delete_ne by apply location_ne_journey.
    rewrite lookup_delete_eq. now intros [x Hx].
  - unfold stored_window. now rewrite Hloc.
  - now apply get_location_window_empty.
Qed.

Lemma same_session_lookup (db db' : keyspace) (u : string) :
  db' !! journey_key u = db !! journey_key u ->
  db' !! location_key u = db !! location_key u ->
  same_session (Up db) (Up db') u.
Proof.
  intros Hj Hl. unfold same_session, is_journey_active, connect, EXISTS,
    stored_window. cbn [mbind result_bind Py.bind]. now rewrite Hj, Hl.
Qed.

(** X3.  The three writing methods, called for one subject, leave the
    journey marker and the window of every other subject as they are; an
    append also leaves the subject's own journey marker as it is. *)
Theorem sessions_are_isolated {A} (json_dumps : A -> string)
    (json_loads : string -> option A) (srv srv' : server) (u u' : string) :
  u <> u' ->
  (forall b, start_journey srv u = Ok (srv', b) -> same_session srv srv' u')
  /\ (forall b, end_journey srv u = Ok (srv', b) -> same_session srv srv' u')
  /\ (forall x w,
        add_location_point json_dumps json_loads srv u x = Ok (srv', w) ->
        same_session srv srv' u'
        /\ is_journey_active srv' u = is_journey_active srv u).
Proof.
  intros Hne.
  assert (Hl : location_key u <> location_key u')
    by (intros E; now apply Hne, location_key_inj).
  assert (Hj : journey_key u <> journey_key u')
    by (intros E; now apply Hne, journey_key_inj).
  split; [|split].
  - intros b H. destruct srv as [db|]; [|discriminate].
    injection H as <- _. apply same_session_lookup; unfold DEL, SET.
    + rewrite lookup_delete_ne by apply location_ne_journey.
      now rewrite lookup_insert_ne.
    + rewrite lookup_delete_ne by assumption.
      rewrite lookup_insert_ne by apply journey_ne_location. reflexivity.
  - intros b H. destruct srv as [db|]; [|discriminate].
    injection H as <- _. apply same_session_lookup; unfold DEL.
    + rewrite lookup_delete_ne by apply location_ne_journey.
      now rewrite lookup_delete_ne.
    + rewrite lookup_delete_ne by assumption.
      rewrite lookup_delete_ne by apply journey_ne_location. reflexivity.
  - intros x w H. destruct srv as [db|]; [|discriminate].
    apply add_location_point_server in H. destruct H as (l & _ & -> & _).
    split.
    + apply same_session_lookup.
      * now rewrite lookup_put_list_ne by apply location_ne_journey.
      * now rewrite lookup_put_list_ne.
    + unfold is_journey_active, connect, EXISTS.
      cbn [mbind result_bind Py.bind].
      now rewrite lookup_put_list_ne by apply location_ne_journey.
Qed.

(** X4.  What [add_location_point] returns is what [get_location_window]
    reads back from the server it leaves behind, one value per stored
    entry. *)
Theorem window_read_back {A} (json_dumps : A -> string)
    (json_loads : string -> option A) (srv srv' : server) (u : string)
    (x : A) (w : list A) :
  add_location_point json_dumps json_loads srv u x = Ok (srv', w) ->
  get_location_window json_loads srv' u = Ok w
  /\ length w = length (stored_window srv' u).
Proof.
  intros H. destruct srv as [db|]; [|discriminate H].
  apply add_location_point_server in H as (l & _ & -> & Hw).
  rewrite stored_window_put_list.
  pose proof (loads_all_length json_loads _ _ Hw) as Hlen.
  split; [|exact Hlen].
  unfold get_location_window, connect, LRANGE.
  cbn [mbind result_bind Py.bind]. rewrite list_at_put_list.
  cbn [mbind result_bind Py.bind]. now rewrite slice_whole.
Qed.

End Sessions.

Lemma sessions_are_isolated_witness :
  exists srv' w,
    RedisClient.add_location_point id Some (Redis.Up ∅) "a" "p"%string
    = Ok (srv', w)
    /\ Spec.same_session (Redis.Up ∅) srv' "b".
Proof.
  destruct (RedisClient.add_location_point id Some (Redis.Up ∅) "a"
              "p"%string) as [[srv' w]|e] eqn:E; [|discriminate E].
  exists srv', w. split; [reflexivity|].
  destruct (sessions_are_isolated id Some (Redis.Up ∅) srv' "a" "b")
    as (_ & _ & H); [discriminate|].
  exact (proj1 (H _ _ E)).
Defined.

Lemma window_read_back_witness :
  exists srv',
    RedisClient.add_location_point id Some (Redis.Up ∅) "a" "p"%string
    = Ok (srv', ["p"%string])
    /\ RedisClient.get_location_window Some srv' "a" = Ok ["p"%string].
Proof.
  eexists. split; [reflexivity|].
  refine (proj1 (window_read_back id Some (Redis.Up ∅) _ "a" "p"%string
                   ["p"%string] _)).
  reflexivity.
Defined.

(* ===================================================================== *)
(** * Further properties: the feature extractor and the scorer            *)
(* ===================================================================== *)

Section Ordering.

Import FeatureEngineering Spec.

Lemma ltb_trans (a b c : string) :
  String.ltb a b = true -> String.ltb b c = true -> String.ltb a c = true.
Proof.
  unfold String.ltb. intros H1 H2.
  destruct (String.compare a b) eqn:E1; try discriminate H1.
  destruct (String.compare b c) eqn:E2; try discriminate H2.
  apply OrderedTypeEx.String_as_OT.cmp_lt in E1, E2.
  pose proof (OrderedTypeEx.String_as_OT.lt_trans _ _ _ E1 E2) as H.
  apply OrderedTypeEx.String_as_OT.cmp_lt in H.
  unfold OrderedTypeEx.String_as_OT.cmp in H. now rewrite H.
Qed.

Lemma ltb_total (s t : string) :
  String.ltb s t = false -> String.ltb t s = false -> s = t.
Proof.
  unfold String.ltb. rewrite (String.compare_antisym t s).
  destruct (String.compare s t) eqn:E; simpl; try discriminate.
  intros _ _. now apply String.compare_eq_iff.
Qed.

Lemma not_after_trans (a b c : Point) :
  not_after a b -> not_after b c -> not_after a c.
Proof.
  unfold not_after. intros Hab Hbc.
  destruct (String.ltb (timestamp c) (timestamp a)) eqn:Hca; [|reflexivity].
  destruct (String.ltb (timestamp a) (timestamp b)) eqn:Hab'.
  - rewrite (ltb_trans _ _ _ Hca Hab') in Hbc. discriminate Hbc.
  - rewrite <- (ltb_total _ _ Hab' Hab) in Hbc. congruence.
Qed.

Lemma insert_by_perm (x : Point) (l : list Point) :
  insert_by timestamp x l ≡ₚ x :: l.
Proof.
  induction l as [|y l IH]; simpl; [reflexivity|].
  destruct (String.ltb _ _); [|reflexivity].
  rewrite IH. apply Permutation_swap.
Qed.

Lemma sorted_perm (l : list Point) : sorted timestamp l ≡ₚ l.
Proof.
  induction l as [|x l IH]; [reflexivity|].
  change (sorted timestamp (x :: l))
    with (insert_by timestamp x (sorted timestamp l)).
  now rewrite insert_by_perm, IH.
Qed.

Lemma sorted_length (l : list Point) :
  length (sorted timestamp l) = length l.
Proof. apply Permutation_length, sorted_perm. Qed.

Lemma insert_by_sorted (x : Point) (l : list Point) :
  StronglySorted not_after l ->
  StronglySorted not_after (insert_by timestamp x l).
Proof.
  induction 1 as [|y l Hs IH Hall]; simpl.
  - repeat constructor.
  - destruct (String.ltb (timestamp y) (timestamp x)) eqn:E.
    + constructor; [exact IH|]. rewrite insert_by_perm.
      constructor; [|exact Hall]. now apply ltb_asym.
    + constructor; [now constructor|]. constructor; [exact E|].
      eapply Forall_impl; [exact Hall|].
      intros z Hz. eapply not_after_trans; [exact E | exact Hz].
Qed.

Lemma sorted_sorted (l : list Point) :
  StronglySorted not_after (sorted timestamp l).
Proof.
  induction l as [|x l IH]; [constructor|].
  change (sorted timestamp (x :: l))
    with (insert_by timestamp x (sorted timestamp l)).
  now apply insert_by_sorted.
Qed.

Lemma strict_of_distinct (l : list Point) :
  StronglySorted not_after l -> NoDup (timestamp <$> l) ->
  StronglySorted before l.
Proof.
  induction 1 as [|x l Hs IH Hall]; intros Hnd; [constructor|].
  rewrite fmap_cons in Hnd. apply NoDup_cons in Hnd as [Hx Hnd].
  constructor; [now apply IH|].
  apply Forall_forall. intros z Hz. rewrite Forall_forall in Hall.
  unfold before.
  destruct (String.ltb (timestamp x) (timestamp z)) eqn:E; [reflexivity|].
  exfalso. apply Hx. rewrite (ltb_total _ _ E (Hall z Hz)).
  now apply list_elem_of_fmap_2.
Qed.

Lemma sorted_strict (l : list Point) :
  NoDup (timestamp <$> l) -> StronglySorted before (sorted timestamp l).
Proof.
  intros H. apply strict_of_distinct; [apply sorted_sorted|].
  now rewrite sorted_perm.
Qed.

Lemma before_antisym : AntiSymm eq before.
Proof.
  intros a b H1 H2. unfold before in *.
  rewrite (ltb_asym _ _ H1) in H2. discriminate H2.
Qed.

End Ordering.

Section Features.

Import FeatureEngineering Spec.

Variable R : Runtime.

Ltac step_ok H x Hx := apply bind_Ok in H; destruct H as (x & Hx & H).

Lemma float_ok (s : string) (x : float) :
  float_ R s = Ok x -> is_Some (float_of_str R s).
Proof.
  unfold float_. destruct (float_of_str R s); [eauto | discriminate].
Qed.

Lemma float_good (s : string) (x : float) :
  float_of_str R s = Some x -> float_ R s = Ok x.
Proof. unfold float_. now intros ->. Qed.

Lemma float_bad (s : string) :
  ~ is_Some (float_of_str R s) -> float_ R s = Raise ValueError.
Proof.
  unfold float_. destruct (float_of_str R s); [|reflexivity].
  intros H. exfalso. apply H. eauto.
Qed.

(** One iteration of the first loop that did not raise: the pair was
    skipped, or both points had numeric coordinates and one sample was
    appended to each accumulator. *)
Lemma pair_loop_step (prev curr : Point) (rest : list Point)
    (sp be : list float) (r : list float * list float) :
  pair_loop R prev (curr :: rest) sp be = Ok r ->
  (pair_time_diff R prev curr = Ok None
   /\ pair_loop R curr rest sp be = Ok r)
  \/ (exists t speed bearing,
        pair_time_diff R prev curr = Ok (Some t)
        /\ coordinates_parse R prev /\ coordinates_parse R curr
        /\ pair_loop R curr rest (sp ++ [speed]) (be ++ [bearing]) = Ok r).
Proof.
  intros H. cbn [pair_loop] in H. step_ok H o Ho. destruct o as [t|].
  - right. step_ok H lat1 Hlat1. step_ok H lon1 Hlon1.
    step_ok H lat2 Hlat2. step_ok H lon2 Hlon2.
    step_ok H distance Hd. step_ok H bearing Hb.
    exists t. eexists. exists bearing. split; [exact Ho|].
    split; [split; eapply float_ok; eassumption|].
    split; [split; eapply float_ok; eassumption|]. exact H.
  - left. now split.
Qed.

Lemma pair_loop_grows (rest : list Point) :
  forall (prev : Point) (sp be sp' be' : list float),
    pair_loop R prev rest sp be = Ok (sp', be') ->
    exists sp2 be2,
      sp' = sp ++ sp2 /\ be' = be ++ be2
      /\ length be2 = length sp2 /\ (length sp2 <= length rest)%nat.
Proof.
  induction rest as [|curr rest IH]; intros prev sp be sp' be' H.
  - injection H as <- <-. exists [], []. rewrite !app_nil_r. auto.
  - apply pair_loop_step in H
      as [[_ H] | (t & speed & bearing & _ & _ & _ & H)];
      apply IH in H as (sp2 & be2 & -> & -> & Hl & Hle).
    + exists sp2, be2. simpl. auto with lia.
    + exists (speed :: sp2), (bearing :: be2).
      rewrite <- !app_assoc. simpl. auto with lia.
Qed.

Lemma pair_time_diff_Some (prev curr : Point) (t : float) :
  pair_time_diff R prev curr = Ok (Some t) -> usable R prev curr.
Proof.
  unfold pair_time_diff. intros H.
  destruct (fromisoformat R (replace_Z (timestamp prev))) as [tp|] eqn:Hp;
    [|discriminate H].
  destruct (fromisoformat R (replace_Z (timestamp curr))) as [tc|] eqn:Hc;
    [|discriminate H].
  step_ok H td Htd.
  destruct (PrimFloat.leb (total_seconds td) 0) eqn:Hle; [discriminate H|].
  now apply (increasing R prev curr tp tc td).
Qed.

Lemma datetime_sub_aware (tc tp : datetime) (td : Z) :
  datetime_sub tc tp = Ok td -> same_awareness tp tc.
Proof.
  unfold datetime_sub, same_awareness.
  destruct (dt_utcoffset tc), (dt_utcoffset tp); try discriminate;
    intros _; split; congruence.
Qed.

Lemma datetime_sub_mixed (tc tp : datetime) :
  ~ same_awareness tp tc -> datetime_sub tc tp = Raise TypeError.
Proof.
  unfold datetime_sub, same_awareness.
  destruct (dt_utcoffset tc), (dt_utcoffset tp); try reflexivity;
    intros H; exfalso; apply H; split; congruence.
Qed.

Lemma pair_time_diff_aware (prev curr : Point) (o : option float)
    (tp tc : datetime) :
  pair_time_diff R prev curr = Ok o ->
  parsed R prev = Some tp -> parsed R curr = Some tc ->
  same_awareness tp tc.
Proof.
  unfold pair_time_diff, parsed. intros H Hp Hc. rewrite Hp, Hc in H.
  step_ok H td Htd. eapply datetime_sub_aware, Htd.
Qed.

Lemma pair_loop_wellformed (rest : list Point) :
  forall (first : Point) (sp be : list float) r,
    pair_loop R first rest sp be = Ok r ->
    forall (i : nat) (prev curr : Point),
      (first :: rest) !! i = Some prev ->
      (first :: rest) !! S i = Some curr ->
      (forall tp tc, parsed R prev = Some tp -> parsed R curr = Some tc ->
                     same_awareness tp tc)
      /\ (usable R prev curr ->
          coordinates_parse R prev /\ coordinates_parse R curr).
Proof.
  induction rest as [|next rest IH]; intros first sp be r H i prev curr Hp Hc.
  - destruct i; discriminate Hc.
  - destruct i as [|i].
    + injection Hp as <-. injection Hc as <-.
      apply pair_loop_step in H
        as [[Ho _] | (t & speed & bearing & Ho & Hf & Hn & _)].
      * split; [intros tp tc; now apply (pair_time_diff_aware _ _ _ _ _ Ho)|].
        intros Hu. destruct (pair_time_diff_usable R _ _ Hu) as [t Ht].
        congruence.
      * split; [intros tp tc; now apply (pair_time_diff_aware _ _ _ _ _ Ho)|].
        now intros _.
    + apply pair_loop_step in H
        as [[_ H] | (t & speed & bearing & _ & _ & _ & H)];
        exact (IH _ _ _ _ H i prev curr Hp Hc).
Qed.

Lemma kinematic_series_inv (w : list Point) (s : Series) :
  kinematic_series R w = Ok (Some s) ->
  exists first rest speeds bearings,
    (2 <= length w)%nat
    /\ sorted timestamp w = first :: rest
    /\ pair_loop R first rest [] [] = Ok (speeds, bearings)
    /\ speeds <> []
    /\ s = mk_Series (sorted timestamp w) speeds
                     (bearing_changes_of bearings) (accelerations_of speeds).
Proof.
  unfold kinematic_series.
  destruct (Nat.ltb_spec (length w) 2) as [Hlt|Hge]; [discriminate|].
  destruct (sorted timestamp w) as [|first rest] eqn:Hs; [discriminate|].
  intros H. step_ok H r Hr. destruct r as [speeds bearings].
  destruct speeds as [|v speeds]; [discriminate H|].
  injection H as <-. exists first, rest, (v :: speeds), bearings.
  repeat split; auto.
Qed.

Lemma extract_features_inv (w : list Point) (a : ndarray) :
  extract_features R w = Ok (Some a) ->
  exists s, kinematic_series R w = Ok (Some s) /\ a = [aggregate R s].
Proof.
  unfold extract_features. intros H. step_ok H o Ho.
  destruct o as [s|]; [|discriminate H]. injection H as <-. eauto.
Qed.

(** An extracted row has the ten cells the scorer reads. *)
Lemma scorer_on_aggregate (s : Series) :
  exists verdict, is_anomalous_behavior (Some [aggregate R s]) = Ok verdict.
Proof.
  eexists. apply (scorer_counts (aggregate R s)); reflexivity.
Qed.

(** X5.  Every window of which [extract_features] makes features has at
    least two points, and the features are one row of 14 cells whose cell 11
    is the number of points of the window; the rule-based scorer accepts
    that row without an error. *)
Theorem extract_features_shape (w : list Point) (a : ndarray) :
  extract_features R w = Ok (Some a) ->
  exists row,
    a = [row] /\ length row = 14%nat
    /\ row !! 11%nat = Some (Z2float (Z.of_nat (length w)))
    /\ (2 <= length w)%nat
    /\ exists verdict, is_anomalous_behavior (Some a) = Ok verdict.
Proof.
  intros H. apply extract_features_inv in H as (s & Hs & ->).
  destruct (kinematic_series_inv w s Hs)
    as (first & rest & speeds & bearings & Hlen & _ & _ & _ & ->).
  eexists. split; [reflexivity|]. split; [reflexivity|].
  split; [|split; [exact Hlen | apply scorer_on_aggregate]].
  cbn. now rewrite sorted_length.
Qed.

(** X6.  The series of a window: the sorted window is a rearrangement of the
    window in which no point sorts before an earlier one; there is at least
    one speed sample and at most one per consecutive pair; and there is one
    bearing change and one acceleration fewer than speed samples. *)
Theorem series_invariants (w : list Point) (s : Series) :
  kinematic_series R w = Ok (Some s) ->
  Permutation (s_sorted_window s) w
  /\ StronglySorted not_after (s_sorted_window s)
  /\ (1 <= length (s_speeds s) <= length w - 1)%nat
  /\ length (s_bearing_changes s) = (length (s_speeds s) - 1)%nat
  /\ length (s_accelerations s) = (length (s_speeds s) - 1)%nat.
Proof.
  intros H. destruct (kinematic_series_inv w s H)
    as (first & rest & speeds & bearings & Hlen & Hs & Hloop & Hne & ->).
  cbn [s_sorted_window s_speeds s_bearing_changes s_accelerations].
  apply pair_loop_grows in Hloop as (sp2 & be2 & -> & -> & Hl & Hle).
  simpl in *. pose proof (sorted_length w) as Hsl. rewrite Hs in Hsl.
  simpl in Hsl.
  split; [apply sorted_perm|]. split; [apply sorted_sorted|].
  split; [|split].
  - destruct sp2; [congruence|]. simpl in *. lia.
  - unfold bearing_changes_of. rewrite consecutive_length. lia.
  - unfold accelerations_of. apply consecutive_length.
Qed.

(** X7.  A window whose points carry pairwise different timestamps gives the
    same result in whatever order the points arrive. *)
Theorem extract_order_independent (w w' : list Point) :
  Permutation w w' -> NoDup (timestamp <$> w) ->
  extract_features R w = extract_features R w'.
Proof.
  intros Hp Hnd.
  assert (Hs : sorted timestamp w = sorted timestamp w').
  { apply (@StronglySorted_unique _ before before_antisym).
    - now apply sorted_strict.
    - apply sorted_strict. now rewrite <- Hp.
    - now rewrite !sorted_perm. }
  unfold extract_features, kinematic_series.
  now rewrite Hs, (Permutation_length Hp).
Qed.

(** X8.  [extract_features] has no handler around the coordinates and around
    the subtraction of timestamps.  If it returns, then in the sorted window
    every two neighbours whose timestamps parse are both naive or both
    aware, and both points of every usable pair have numeric coordinates.
    When the first two points of the sorted window break one of the two
    conditions the call raises:  [TypeError] for mixed awareness,
    [ValueError] for a coordinate that is not a number. *)
Theorem extract_rejects_malformed (w : list Point) :
  (forall o, extract_features R w = Ok o ->
     forall (i : nat) (prev curr : Point),
       sorted timestamp w !! i = Some prev ->
       sorted timestamp w !! S i = Some curr ->
       (forall tp tc, parsed R prev = Some tp -> parsed R curr = Some tc ->
                      same_awareness tp tc)
       /\ (usable R prev curr ->
           coordinates_parse R prev /\ coordinates_parse R curr))
  /\ (forall a b rest tp tc,
        sorted timestamp w = a :: b :: rest ->
        parsed R a = Some tp -> parsed R b = Some tc ->
        ~ same_awareness tp tc ->
        extract_features R w = Raise TypeError)
  /\ (forall a b rest,
        sorted timestamp w = a :: b :: rest ->
        usable R a b ->
        ~ coordinates_parse R a \/ ~ coordinates_parse R b ->
        extract_features R w = Raise ValueError).
Proof.
  split; [|split].
  - intros o H i prev curr Hp Hc. unfold extract_features in H.
    step_ok H os Hos. clear H. unfold kinematic_series in Hos.
    destruct (length w <? 2)%nat eqn:Hlen.
    + apply Nat.ltb_lt in Hlen. apply lookup_lt_Some in Hc.
      rewrite sorted_length in Hc. lia.
    + destruct (sorted timestamp w) as [|first rest]; [discriminate Hp|].
      step_ok Hos r Hr. exact (pair_loop_wellformed _ _ _ _ _ Hr i _ _ Hp Hc).
  - intros a b rest tp tc Hs Hp Hc Hmixed.
    assert (Hlen : (length w <? 2)%nat = false).
    { apply Nat.ltb_ge. rewrite <- sorted_length, Hs. simpl. lia. }
    unfold extract_features, kinematic_series. rewrite Hlen, Hs.
    cbn [pair_loop]. unfold pair_time_diff. unfold parsed in Hp, Hc.
    rewrite Hp, Hc, (datetime_sub_mixed _ _ Hmixed). reflexivity.
  - intros a b rest Hs Hu Hbad.
    assert (Hlen : (length w <? 2)%nat = false).
    { apply Nat.ltb_ge. rewrite <- sorted_length, Hs. simpl. lia. }
    destruct (pair_time_diff_usable R a b Hu) as [t Ht].
    unfold extract_features, kinematic_series. rewrite Hlen, Hs.
    cbn [pair_loop]. rewrite Ht. cbn [mbind result_bind Py.bind].
    unfold coordinates_parse in Hbad.
    destruct (float_of_str R (latitude a)) as [lat1|] eqn:Hlat1;
      [|rewrite (float_bad (latitude a));
         [reflexivity | rewrite Hlat1; now intros [x Hx]]].
    rewrite (float_good _ _ Hlat1). cbn [mbind result_bind Py.bind].
    destruct (float_of_str R (longitude a)) as [lon1|] eqn:Hlon1;
      [|rewrite (float_bad (longitude a));
         [reflexivity | rewrite Hlon1; now intros [x Hx]]].
    rewrite (float_good _ _ Hlon1). cbn [mbind result_bind Py.bind].
    destruct (float_of_str R (latitude b)) as [lat2|] eqn:Hlat2;
      [|rewrite (float_bad (latitude b));
         [reflexivity | rewrite Hlat2; now intros [x Hx]]].
    rewrite (float_good _ _ Hlat2). cbn [mbind result_bind Py.bind].
    destruct (float_of_str R (longitude b)) as [lon2|] eqn:Hlon2;
      [|rewrite (float_bad (longitude b));
         [reflexivity | rewrite Hlon2; now intros [x Hx]]].
    exfalso. destruct Hbad as [Hbad | Hbad]; apply Hbad; split; eauto.
Qed.

End Features.

Section ScorerMore.

Import FeatureEngineering Spec.

Ltac step_ok H x Hx := apply bind_Ok in H; destruct H as (x & Hx & H).

Lemma getitem2_Ok (a : ndarray) (i j : nat) (x : float) :
  getitem2 a i j = Ok x <-> exists row, a !! i = Some row /\ row !! j = Some x.
Proof.
  unfold getitem2. split.
  - destruct (a !! i) as [row|]; [|discriminate].
    destruct (row !! j) eqn:E; [|discriminate]. intros [= ->]. eauto.
  - intros (row & -> & ->). reflexivity.
Qed.

Lemma getitem2_Raise (a : ndarray) (i j : nat) (e : exn) :
  getitem2 a i j = Raise e -> e = IndexError.
Proof.
  unfold getitem2. destruct (a !! i) as [row|]; [|congruence].
  destruct (row !! j); [discriminate | congruence].
Qed.

(** X9.  The scorer raises nothing but [IndexError], and it returns exactly
    when the array has a first row of at least ten cells. *)
Theorem scorer_index_error (a : ndarray) :
  (forall e, is_anomalous_behavior (Some a) = Raise e -> e = IndexError)
  /\ ((exists verdict, is_anomalous_behavior (Some a) = Ok verdict)
      <-> exists row rest, a = row :: rest /\ (10 <= length row)%nat).
Proof.
  split.
  - intros e. unfold is_anomalous_behavior.
    destruct (getitem2 a 0 0) eqn:E0;
      [|intros [= <-]; eapply getitem2_Raise, E0].
    destruct (getitem2 a 0 2) eqn:E2;
      [|intros [= <-]; eapply getitem2_Raise, E2].
    destruct (getitem2 a 0 6) eqn:E6;
      [|intros [= <-]; eapply getitem2_Raise, E6].
    destruct (getitem2 a 0 9) eqn:E9;
      [|intros [= <-]; eapply getitem2_Raise, E9].
    discriminate.
  - split.
    + intros [verdict H]. unfold is_anomalous_behavior in H.
      step_ok H m Hm. step_ok H s Hs. step_ok H b Hb. step_ok H c Hc.
      apply getitem2_Ok in Hc as (row & Hrow & Hc).
      destruct a as [|row' rest]; [discriminate Hrow|].
      injection Hrow as ->. exists row, rest. split; [reflexivity|].
      apply lookup_lt_Some in Hc. lia.
    + intros (row & rest & -> & Hlen).
      destruct (lookup_lt_is_Some_2 row 0) as [m Hm]; [lia|].
      destruct (lookup_lt_is_Some_2 row 2) as [s Hs]; [lia|].
      destruct (lookup_lt_is_Some_2 row 6) as [b Hb]; [lia|].
      destruct (lookup_lt_is_Some_2 row 9) as [c Hc]; [lia|].
      eexists. unfold is_anomalous_behavior, getitem2. simpl.
      rewrite Hm, Hs, Hb, Hc. reflexivity.
Qed.

(** X10.  Whatever the scorer returns, the confidence is one of 0, 0.25,
    0.5, 0.75 and 1, and the verdict is [True] exactly when the confidence
    is at least 0.5. *)
Theorem scorer_verdict_confidence (features : option ndarray) (b : bool)
    (c : float) :
  is_anomalous_behavior features = Ok (b, c) ->
  (c = 0 \/ c = 0.25 \/ c = 0.5 \/ c = 0.75 \/ c = 1)%float
  /\ (b = true <-> PrimFloat.leb 0.5 c = true).
Proof.
  assert (Hcases : forall n : Z,
            n = 0 \/ n = 1 \/ n = 2 \/ n = 3 \/ n = 4 ->
            let c := PrimFloat.div (Z2float n) 4 in
            (c = 0 \/ c = 0.25 \/ c = 0.5 \/ c = 0.75 \/ c = 1)%float
            /\ ((2 <=? n) = true <-> PrimFloat.leb 0.5 c = true)).
  { intros n [-> | [-> | [-> | [-> | ->]]]]; vm_compute;
      (split; [auto 6|]; split; intros H;
       first [reflexivity | discriminate H]). }
  destruct features as [a|].
  - unfold is_anomalous_behavior. intros H.
    step_ok H m Hm. step_ok H s Hs. step_ok H bc Hbc. step_ok H ac Hac.
    injection H as <- <-. apply Hcases. unfold incr_if.
    destruct (high_speed s), (sudden_turn bc), (high_acceleration ac),
             (erratic m bc); simpl; auto 6.
  - intros [= <- <-]. exact (Hcases 0 (or_introl eq_refl)).
Qed.

End ScorerMore.

Section SingleSample.

Import FeatureEngineering Spec.

Variable R : Runtime.

Lemma single_sample_verdict (s : Series) :
  length (s_speeds s) = 1%nat -> s_bearing_changes s = [] ->
  s_accelerations s = [] ->
  exists c : float,
    is_anomalous_behavior (Some [aggregate R s]) = Ok (false, c)
    /\ (c = 0 \/ c = 0.25)%float.
Proof.
  intros Hsp Hb Ha.
  rewrite (scorer_counts (aggregate R s) _ _ _ _ eq_refl eq_refl eq_refl
             eq_refl).
  rewrite Hb, Ha. cbn [is_nil]. unfold indicator_count.
  change (sudden_turn 0) with false.
  change (high_acceleration 0) with false.
  unfold erratic. change (PrimFloat.ltb 90 0) with false.
  rewrite andb_false_r.
  destruct (high_speed _); eexists; (split; [reflexivity|]); auto.
Qed.

(** X11.  A window from which one speed sample comes out (every window of
    two points that yields features is one) is never flagged by the
    rule-based scorer: only the speed indicator can fire, and the confidence
    is 0 or 0.25. *)
Theorem single_sample_never_flagged (w : list Point) :
  (forall s, kinematic_series R w = Ok (Some s) ->
     length (s_speeds s) = 1%nat ->
     exists c : float,
       is_anomalous_behavior (Some [aggregate R s]) = Ok (false, c)
       /\ (c = 0 \/ c = 0.25)%float)
  /\ (length w = 2%nat ->
      forall a, extract_features R w = Ok (Some a) ->
        exists c : float,
          is_anomalous_behavior (Some a) = Ok (false, c)
          /\ (c = 0 \/ c = 0.25)%float).
Proof.
  assert (Hone : forall s, kinematic_series R w = Ok (Some s) ->
                   length (s_speeds s) = 1%nat ->
                   s_bearing_changes s = [] /\ s_accelerations s = []).
  { intros s Hs Hlen.
    destruct (kinematic_series_inv R w s Hs)
      as (first & rest & speeds & bearings & _ & _ & Hloop & _ & ->).
    apply pair_loop_grows in Hloop as (sp2 & be2 & -> & -> & Hl & _).
    simpl in *. rewrite Hlen in Hl.
    destruct sp2 as [|v [|v' sp2]]; try discriminate Hlen.
    destruct be2 as [|x [|x' be2]]; try discriminate Hl.
    split; reflexivity. }
  split.
  - intros s Hs Hlen. destruct (Hone s Hs Hlen).
    now apply single_sample_verdict.
  - intros Hw a Ha. apply extract_features_inv in Ha as (s & Hs & ->).
    assert (Hlen : length (s_speeds s) = 1%nat).
    { destruct (kinematic_series_inv R w s Hs)
        as (first & rest & speeds & bearings & _ & Hsort & Hloop & Hne & ->).
      pose proof (sorted_length w) as Hsl. rewrite Hsort, Hw in Hsl.
      apply pair_loop_grows in Hloop as (sp2 & be2 & -> & -> & _ & Hle).
      simpl in *. destruct sp2; [congruence|]. simpl in *. lia. }
    destruct (Hone s Hs Hlen). now apply single_sample_verdict.
Qed.

End SingleSample.

(** Two samples ten seconds apart give one row of 14 cells. *)
Lemma extract_features_shape_witness :
  exists row,
    FeatureEngineering.extract_features Example.runtime
      [Example.p_early; Example.p_late] = Ok (Some [row])
    /\ length row = 14%nat.
Proof.
  pose (a := match FeatureEngineering.extract_features Example.runtime
                     [Example.p_early; Example.p_late] with
             | Ok (Some a) => a
             | _ => []
             end).
  assert (E : FeatureEngineering.extract_features Example.runtime
                [Example.p_early; Example.p_late] = Ok (Some a))
    by (vm_compute; reflexivity).
  clearbody a.
  destruct (extract_features_shape Example.runtime _ a E)
    as (row & Ha & Hlen & _).
  exists row. split; [now rewrite <- Ha | exact Hlen].
Defined.

(** Three samples give one or two speed samples. *)
Lemma series_invariants_witness :
  exists s,
    FeatureEngineering.kinematic_series Example.runtime
      [Example.p_later; Example.p_early; Example.p_late] = Ok (Some s)
    /\ (1 <= length (FeatureEngineering.s_speeds s) <= 2)%nat.
Proof.
  pose (s := match FeatureEngineering.kinematic_series Example.runtime
                     [Example.p_later; Example.p_early; Example.p_late] with
             | Ok (Some s) => s
             | _ => FeatureEngineering.mk_Series [] [] [] []
             end).
  assert (E : FeatureEngineering.kinematic_series Example.runtime
                [Example.p_later; Example.p_early; Example.p_late]
              = Ok (Some s)) by (vm_compute; reflexivity).
  clearbody s.
  destruct (series_invariants Example.runtime _ s E) as (_ & _ & H & _).
  exists s. split; [exact E | exact H].
Defined.

(** Three samples, latest first and earliest first. *)
Lemma extract_order_independent_witness :
  FeatureEngineering.extract_features Example.runtime
    [Example.p_later; Example.p_late; Example.p_early]
  = FeatureEngineering.extract_features Example.runtime
      [Example.p_early; Example.p_later; Example.p_late].
Proof.
  apply extract_order_independent.
  - etransitivity; [apply perm_swap|].
    etransitivity; [apply perm_skip, perm_swap|].
    etransitivity; [apply perm_swap|]. apply perm_skip, perm_swap.
  - apply (bool_decide_unpack _). vm_compute. reflexivity.
Defined.

(** A sample whose latitude is not a number, ten seconds before a good
    one: the extraction raises [ValueError]. *)
Lemma extract_rejects_malformed_witness :
  FeatureEngineering.extract_features Example.runtime
    [Example.p_late; Example.p_no_fix] = Raise ValueError.
Proof.
  destruct (extract_rejects_malformed Example.runtime
              [Example.p_late; Example.p_no_fix]) as (_ & _ & H).
  apply (H Example.p_no_fix Example.p_late []).
  - reflexivity.
  - eapply pair_time_diff_Some. vm_compute. reflexivity.
  - left. intros [[x Hx] _]. vm_compute in Hx. discriminate Hx.
Defined.

(** A row of 14 cells is accepted. *)
Lemma scorer_index_error_witness :
  exists verdict,
    FeatureEngineering.is_anomalous_behavior
      (Some [Example.row 30 60 130 20]) = Ok verdict.
Proof.
  apply (proj2 (scorer_index_error [Example.row 30 60 130 20])).
  eexists _, _. split; [reflexivity | simpl; lia].
Defined.

(** Three indicators: confidence 0.75, verdict [True]. *)
Lemma scorer_verdict_confidence_witness :
  FeatureEngineering.is_anomalous_behavior (Some [Example.row 30 60 130 20])
  = Ok (true, 0.75%float)
  /\ PrimFloat.leb 0.5 0.75 = true.
Proof.
  assert (E : FeatureEngineering.is_anomalous_behavior
                (Some [Example.row 30 60 130 20]) = Ok (true, 0.75%float))
    by reflexivity.
  split; [exact E|].
  destruct (scorer_verdict_confidence _ _ _ E) as [_ H]. now apply H.
Defined.

(** Two samples ten seconds apart are not flagged. *)
Lemma single_sample_never_flagged_witness :
  exists a c,
    FeatureEngineering.extract_features Example.runtime
      [Example.p_early; Example.p_late] = Ok (Some a)
    /\ FeatureEngineering.is_anomalous_behavior (Some a) = Ok (false, c).
Proof.
  pose (a := match FeatureEngineering.extract_features Example.runtime
                     [Example.p_early; Example.p_late] with
             | Ok (Some a) => a
             | _ => []
             end).
  assert (E : FeatureEngineering.extract_features Example.runtime
                [Example.p_early; Example.p_late] = Ok (Some a))
    by (vm_compute; reflexivity).
  clearbody a.
  destruct (single_sample_never_flagged Example.runtime
              [Example.p_early; Example.p_late]) as [_ H].
  destruct (H eq_refl a E) as (c & Hc & _).
  exists a, c. split; [exact E | exact Hc].
Defined.

(* ===================================================================== *)
(** * Further properties: the safety score and the alert records          *)
(* ===================================================================== *)

Section Scores.

Import Orm Utils Views Spec.

Lemma string_app_assoc (a b c : string) :
  ((a ++ b) ++ c = a ++ (b ++ c))%string.
Proof.
  induction a as [|x a IH]; [reflexivity|].
  change (String x ((a ++ b) ++ c) = String x (a ++ (b ++ c)))%string.
  now f_equal.
Qed.

(** X12.  The two score functions compute the same score for a subject and
    its user row; the factor texts of [calculate_safety_score] are those of
    [calculate_safety_score_by_user_id] with a full stop appended. *)
Theorem score_variants_agree (db : database) (now now' : Z)
    (subject : string) (user : User) :
  User_objects_get db (username_of subject) = Ok user ->
  exists r,
    calculate_safety_score_by_user_id db now now' subject = Ok r
    /\ score (calculate_safety_score db now now' user) = score r
    /\ factors (calculate_safety_score db now now' user)
       = (fun f => (f ++ ".")%string) <$> factors r.
Proof.
  intros H. unfold calculate_safety_score_by_user_id, calculate_safety_score.
  rewrite H.
  destruct (0 <? count_since db user (now - one_day) * 15),
           (late_night (kolkata_hour now'));
    eexists; (split; [reflexivity|]); (split; [reflexivity|]);
    cbn [app fmap list_fmap factors]; rewrite ?string_app_assoc;
    reflexivity.
Qed.

(** X13.  The factors account for the score: there are at most two; a score
    below 100 always comes with a factor; an empty list of factors means a
    subject with a user row, no recent anomaly and day time; and for a
    subject with a user row the score 100 comes with no factor. *)
Theorem factors_explain_score (db : database) (now now' : Z)
    (subject : string) (r : SafetyScore) :
  calculate_safety_score_by_user_id db now now' subject = Ok r ->
  (length (factors r) <= 2)%nat
  /\ (score r < 100 -> factors r <> [])
  /\ (factors r = [] ->
      known db subject /\ recent_count db subject now = 0
      /\ night_penalty now' = 0)
  /\ (known db subject -> score r = 100 -> factors r = []).
Proof.
  unfold calculate_safety_score_by_user_id, known, night_penalty.
  destruct (User_objects_get db (username_of subject)) as [user|e] eqn:Hu.
  - rewrite (recent_count_known db subject user now Hu).
    pose proof (recent_count_nonneg db subject now) as Hn.
    rewrite (recent_count_known db subject user now Hu) in Hn.
    destruct (Z.ltb_spec 0 (count_since db user (now - one_day) * 15)),
             (late_night (kolkata_hour now'));
      intros [= <-]; cbn [score factors app length];
      repeat split; intros; eauto; try discriminate; lia.
  - destruct e; try discriminate. intros [= <-]. cbn [score factors app length].
    repeat split; intros; try discriminate; try lia.
    destruct H as [u Hk]. discriminate Hk.
Qed.

Lemma username_of_inj (s s' : string) :
  username_of s = username_of s' -> s = s'.
Proof. unfold username_of. intros H. cbn in H. now injection H. Qed.

Lemma next_pk_above (seq : Z) (pks : list Z) (x : Z) :
  x ∈ pks -> x < next_pk seq pks.
Proof.
  unfold next_pk. induction pks as [|y pks IH]; intros Hin.
  - inversion Hin.
  - simpl. apply elem_of_cons in Hin as [-> | Hin]; [lia|].
    specialize (IH Hin). lia.
Qed.

Lemma next_pk_after (seq : Z) (pks : list Z) : seq < next_pk seq pks.
Proof. unfold next_pk. lia. Qed.

Lemma filter_nil_never_seen (name : string) (l : list User) :
  List.filter (fun u => String.eqb (username u) name) l = [] ->
  Forall (fun u => username u <> name) l.
Proof.
  induction l as [|u l IH]; [constructor|].
  simpl. destruct (String.eqb (username u) name) eqn:E; [discriminate|].
  intros H. constructor; [now apply String.eqb_neq | now apply IH].
Qed.

Lemma get_DoesNotExist (db : database) (name : string) :
  User_objects_get db name = Raise DoesNotExist ->
  Forall (fun u => username u <> name) (users db).
Proof.
  unfold User_objects_get. intros H. apply filter_nil_never_seen.
  destruct (List.filter _ (users db)) as [|u [|v l]];
    [reflexivity | discriminate H | discriminate H].
Qed.

Lemma get_Ok (db : database) (name : string) (u : User) :
  User_objects_get db name = Ok u -> u ∈ users db /\ username u = name.
Proof.
  unfold User_objects_get. intros H.
  destruct (List.filter _ (users db)) as [|v [|v' l]] eqn:E;
    try discriminate H.
  injection H as ->.
  assert (Hin : In u (List.filter (fun u => String.eqb (username u) name)
                        (users db))) by (rewrite E; now left).
  apply filter_In in Hin as [Hin Hname].
  split; [now apply list_elem_of_In | now apply String.eqb_eq].
Qed.

Lemma get_app_other (db : database) (u : User) (als : list AnomalyAlert)
    (useq aseq : Z) (name : string) :
  username u <> name ->
  User_objects_get (mk_database (users db ++ [u]) als useq aseq) name
  = User_objects_get db name.
Proof.
  intros H. unfold User_objects_get. cbn [users].
  rewrite List.filter_app. cbn [List.filter].
  apply String.eqb_neq in H. now rewrite H, app_nil_r.
Qed.

Lemma get_app_new (db : database) (u : User) (als : list AnomalyAlert)
    (useq aseq : Z) :
  Forall (fun v => username v <> username u) (users db) ->
  User_objects_get (mk_database (users db ++ [u]) als useq aseq) (username u)
  = Ok u.
Proof.
  intros H. unfold User_objects_get. cbn [users].
  rewrite List.filter_app, (filter_never_seen _ _ H). cbn [List.filter].
  now rewrite String.eqb_refl.
Qed.

Lemma NoDup_fmap_eq {X Y} (f : X -> Y) (l : list X) (x y : X) :
  NoDup (f <$> l) -> x ∈ l -> y ∈ l -> f x = f y -> x = y.
Proof.
  induction l as [|z l IH]; intros Hnd Hx Hy Hf; [inversion Hx|].
  rewrite fmap_cons in Hnd. apply NoDup_cons in Hnd as [Hz Hnd].
  apply elem_of_cons in Hx as [-> | Hx]; apply elem_of_cons in Hy as [-> | Hy].
  - reflexivity.
  - exfalso. apply Hz. rewrite Hf. now apply list_elem_of_fmap_2.
  - exfalso. apply Hz. rewrite <- Hf. now apply list_elem_of_fmap_2.
  - now apply IH.
Qed.

(** No alert of a well-formed database points to the next primary key. *)
Lemma alerts_of_next_pk (db : database) :
  well_formed db ->
  alerts_of db (next_pk (user_seq db) (id <$> users db)) = [].
Proof.
  intros Hwf. unfold alerts_of.
  pose proof (wf_foreign_keys db Hwf) as Hfk.
  induction Hfk as [|a l Ha _ IH]; [reflexivity|].
  simpl. apply (next_pk_above (user_seq db)) in Ha.
  destruct (Z.eqb_spec (user_id a)
              (next_pk (user_seq db) (id <$> users db))); [lia|].
  exact IH.
Qed.

(** What [create_alert] does to a well-formed database. *)
Lemma create_alert_effect (db : database) (subject lat lon : string)
    (ts : Z) (sc : float) :
  well_formed db ->
  exists db' a user,
    create_alert db subject lat lon ts sc = Ok (db', a)
    /\ well_formed db'
    /\ User_objects_get db' (username_of subject) = Ok user
    /\ a = mk_AnomalyAlert
             (next_pk (alert_seq db) (alert_id <$> alerts db)) (id user)
             lat lon ts sc false None
    /\ alerts db' = alerts db ++ [a]
    /\ alerts_of db (id user) = records_of db subject
    /\ (users db' = users db \/ users db' = users db ++ [user])
    /\ (forall other, other <> subject ->
          User_objects_get db' (username_of other)
          = User_objects_get db (username_of other)
          /\ forall u', User_objects_get db (username_of other) = Ok u' ->
                        id u' <> id user).
Proof.
  intros Hwf. pose proof Hwf as [Hnames Hids Haids Hfk].
  assert (Hfresh : NoDup ((alert_id <$> alerts db)
                          ++ [next_pk (alert_seq db)
                                (alert_id <$> alerts db)])).
  { apply NoDup_app. split; [exact Haids|]. split; [|apply NoDup_singleton].
    intros x Hx Hx'. apply list_elem_of_singleton in Hx'.
    apply (next_pk_above (alert_seq db)) in Hx. lia. }
  unfold create_alert, User_objects_get_or_create.
  destruct (get_unique db (username_of subject) Hnames) as [[user Hu]|Hu];
    rewrite Hu; cbn [mbind result_bind Py.bind AnomalyAlert_objects_create].
  - destruct (get_Ok db _ user Hu) as [Hin Hname].
    do 3 eexists. split; [reflexivity|].
    split; [|split; [exact Hu|split; [reflexivity|split; [reflexivity|]]]].
    + constructor; cbn [users alerts]; try assumption.
      * rewrite fmap_app. exact Hfresh.
      * apply Forall_app. split; [exact Hfk|]. constructor; [|constructor].
        cbn [user_id]. now apply list_elem_of_fmap_2.
    + split; [unfold records_of; now rewrite Hu|]. split; [now left|].
      intros other Hother. split; [reflexivity|].
      intros u' Hu' Heq. destruct (get_Ok db _ u' Hu') as [Hin' Hname'].
      apply Hother, username_of_inj. rewrite <- Hname, <- Hname'.
      f_equal. exact (NoDup_fmap_eq id _ _ _ Hids Hin' Hin Heq).
  - pose proof (get_DoesNotExist db _ Hu) as Hnever.
    set (user := mk_User (next_pk (user_seq db) (id <$> users db))
                   (username_of subject)
                   (username_of subject ++ "@test.com")).
    do 2 eexists. exists user. split; [reflexivity|].
    split; [|split; [|split; [reflexivity|split; [reflexivity|]]]].
    + constructor; cbn [users alerts].
      * rewrite fmap_app. apply NoDup_app. split; [exact Hnames|].
        split; [|apply NoDup_singleton].
        intros x Hx Hx'. apply list_elem_of_singleton in Hx'. subst x.
        apply list_elem_of_fmap in Hx as (v & Hv & Hin).
        rewrite Forall_forall in Hnever. now apply (Hnever v Hin).
      * rewrite fmap_app. apply NoDup_app. split; [exact Hids|].
        split; [|apply NoDup_singleton].
        intros x Hx Hx'. apply list_elem_of_singleton in Hx'.
        apply (next_pk_above (user_seq db)) in Hx. cbn in Hx'. lia.
      * rewrite fmap_app. exact Hfresh.
      * apply Forall_app. split.
        -- eapply Forall_impl; [exact Hfk|]. intros a Ha. rewrite fmap_app.
           apply elem_of_app. now left.
        -- constructor; [|constructor]. cbn [user_id]. rewrite fmap_app.
           apply elem_of_app. right. now apply list_elem_of_singleton.
    + exact (get_app_new db user _ _ _ Hnever).
    + split.
      { unfold records_of. rewrite Hu. now apply alerts_of_next_pk. }
      split; [now right|].
      intros other Hother. split.
      * apply get_app_other. intros Heq. now apply Hother, username_of_inj.
      * intros u' Hu' Heq. destruct (get_Ok db _ u' Hu') as [Hin' _].
        apply (list_elem_of_fmap_2 id) in Hin'.
        apply (next_pk_above (user_seq db)) in Hin'.
        cbn in Heq. lia.
Qed.

Lemma alerts_of_appended (db db' : database) (a : AnomalyAlert) (pk : Z) :
  alerts db' = alerts db ++ [a] ->
  alerts_of db' pk
  = alerts_of db pk ++ (if user_id a =? pk then [a] else []).
Proof.
  intros Hal. unfold alerts_of. rewrite Hal, List.filter_app. reflexivity.
Qed.

(** [create_alert] keeps the constraints of the database and does not
    raise on a database that satisfies them.  It appends one alert: the
    record of the subject, stamped and scored as asked and unresolved;
    the records of every other subject are as before. *)
Lemma create_alert_records (db : database)
    (subject lat lon : string) (ts : Z) (sc : float) :
  well_formed db ->
  exists db' a,
    create_alert db subject lat lon ts sc = Ok (db', a)
    /\ well_formed db'
    /\ known db' subject
    /\ alerts db' = alerts db ++ [a]
    /\ records_of db' subject = records_of db subject ++ [a]
    /\ (forall other, other <> subject ->
          records_of db' other = records_of db other)
    /\ alert_timestamp a = ts /\ anomaly_score a = sc
    /\ is_resolved a = false.
Proof.
  intros Hwf.
  destruct (create_alert_effect db subject lat lon ts sc Hwf)
    as (db' & a & user & Hc & Hwf' & Hu & Ha & Hal & Hrec & _ & Hother).
  exists db', a. split; [exact Hc|]. split; [exact Hwf'|].
  split; [now exists user|]. split; [exact Hal|].
  split; [|split; [|now rewrite Ha]].
  - unfold records_of at 1. rewrite Hu.
    rewrite (alerts_of_appended db db' a (id user) Hal), Hrec.
    rewrite Ha. cbn [user_id]. now rewrite Z.eqb_refl.
  - intros other Hne. destruct (Hother other Hne) as [Hget Hid].
    unfold records_of. rewrite Hget.
    destruct (User_objects_get db (username_of other)) as [u'|e] eqn:Hu';
      [|reflexivity].
    rewrite (alerts_of_appended db db' a (id u') Hal).
    rewrite Ha. cbn [user_id].
    destruct (Z.eqb_spec (id user) (id u')) as [Heq|_];
      [|apply app_nil_r].
    exfalso. now apply (Hid u' eq_refl).
Qed.

Lemma score_depends (db db' : database) (now now' : Z) (s : string) :
  User_objects_get db' (username_of s) = User_objects_get db (username_of s) ->
  (forall u, User_objects_get db (username_of s) = Ok u ->
             alerts_of db' (id u) = alerts_of db (id u)) ->
  calculate_safety_score_by_user_id db' now now' s
  = calculate_safety_score_by_user_id db now now' s.
Proof.
  intros Hget Hal. unfold calculate_safety_score_by_user_id. rewrite Hget.
  destruct (User_objects_get db (username_of s)) as [u|e]; [|reflexivity].
  unfold count_since. now rewrite (Hal u eq_refl).
Qed.

(** The score before and after [create_alert] for an alert stamped
    within the last 24 hours. *)
Lemma create_alert_score (db db' : database) (subject lat lon : string)
    (ts : Z) (sc : float) (a : AnomalyAlert) (now now' : Z) :
  well_formed db ->
  create_alert db subject lat lon ts sc = Ok (db', a) ->
  now - one_day <= ts ->
  exists r r',
    calculate_safety_score_by_user_id db now now' subject = Ok r
    /\ calculate_safety_score_by_user_id db' now now' subject = Ok r'
    /\ (known db subject -> score r' = Z.max 0 (score r - 15))
    /\ (never_seen db subject ->
        score r = 100 /\ score r' = 85 - night_penalty now')
    /\ (forall other, other <> subject ->
          calculate_safety_score_by_user_id db' now now' other
          = calculate_safety_score_by_user_id db now now' other).
Proof.
  intros Hwf Hc Hts.
  destruct (create_alert_effect db subject lat lon ts sc Hwf)
    as (db2 & a2 & user & Hc2 & Hwf' & Hu & Ha & Hal & Hrec & _ & Hother).
  rewrite Hc in Hc2. injection Hc2 as <- <-.
  assert (Hcount : recent_count db' subject now
                   = recent_count db subject now + 1).
  { unfold recent_count, records_of at 1. rewrite Hu.
    rewrite (alerts_of_appended db db' a (id user) Hal), Hrec.
    rewrite Ha. cbn [user_id]. rewrite Z.eqb_refl, List.filter_app.
    cbn [List.filter alert_timestamp].
    destruct (Z.leb_spec (now - one_day) ts); [|lia].
    rewrite length_app. simpl. lia. }
  pose proof (recent_count_nonneg db subject now) as Hn.
  destruct (score_known db' now now' subject user Hu) as [fs' Hs'].
  destruct (get_unique db (username_of subject) (wf_usernames db Hwf))
    as [[u Hk]|Hk].
  - destruct (score_known db now now' subject u Hk) as [fs Hs].
    do 2 eexists. split; [exact Hs|]. split; [exact Hs'|].
    split; [|split].
    + intros _. cbn [score]. rewrite Hcount. unfold clamp.
      destruct (night_penalty_cases now') as [-> | ->]; lia.
    + intros Hnever. apply get_never_seen in Hnever. congruence.
    + intros other Hne. destruct (Hother other Hne) as [Hget Hid].
      apply score_depends; [exact Hget|]. intros u' Hu'.
      rewrite (alerts_of_appended db db' a (id u') Hal).
      rewrite Ha. cbn [user_id].
      destruct (Z.eqb_spec (id user) (id u')) as [Heq|_]; [|apply app_nil_r].
      exfalso. now apply (Hid u' Hu').
  - eexists. eexists. split.
    { unfold calculate_safety_score_by_user_id. rewrite Hk. reflexivity. }
    split; [exact Hs'|]. split; [|split].
    + intros [u Hu']. congruence.
    + intros _. split; [reflexivity|]. cbn [score]. rewrite Hcount.
      assert (H0 : recent_count db subject now = 0).
      { unfold recent_count, records_of. now rewrite Hk. }
      rewrite H0. unfold clamp.
      destruct (night_penalty_cases now') as [-> | ->]; lia.
    + intros other Hne. destruct (Hother other Hne) as [Hget Hid].
      apply score_depends; [exact Hget|]. intros u' Hu'.
      rewrite (alerts_of_appended db db' a (id u') Hal).
      rewrite Ha. cbn [user_id].
      destruct (Z.eqb_spec (id user) (id u')) as [Heq|_]; [|apply app_nil_r].
      exfalso. now apply (Hid u' Hu').
Qed.

End Scores.

(* ===================================================================== *)
(** * Further properties: the journey, score and reset views              *)
(* ===================================================================== *)

Section SmallViews.

Import Orm Utils Views Spec.

(** X16.  [StartJourneyView.post] always answers 200.  With the session
    store up, the journey of the subject is active afterwards and its window
    is empty.  With the store down nothing is started: the answer is still
    200, with the text of the exception under [error]. *)
Theorem start_journey_view_answers_200 (srv srv' : Redis.server)
    (subject : string) (resp : Response) :
  StartJourneyView_post srv subject = (srv', resp) ->
  status resp = 200
  /\ (forall kdb, srv = Redis.Up kdb ->
        RedisClient.is_journey_active srv' subject = Ok true
        /\ RedisClient.stored_window srv' subject = []
        /\ body resp
           = [("message"%string, JStr "Journey started successfully")])
  /\ (srv = Redis.Down ->
        srv' = Redis.Down
        /\ body_get "error" (body resp) = Some (JStr "ConnectionError")
        /\ body_get "message" (body resp)
           = Some (JStr
               "Journey acknowledged (Redis not available - fallback mode)")).
Proof.
  unfold StartJourneyView_post. destruct srv as [kdb|].
  - intros [= <- <-]. split; [reflexivity|]. split; [|discriminate].
    intros kdb' _. split; [|split; [|reflexivity]].
    + unfold RedisClient.is_journey_active, RedisClient.connect,
        Redis.EXISTS, Redis.DEL, Redis.SET.
      cbn [mbind result_bind Py.bind]. f_equal. apply bool_decide_eq_true.
      rewrite lookup_delete_ne by apply location_ne_journey.
      rewrite lookup_insert_eq. eauto.
    + unfold RedisClient.stored_window, Redis.DEL.
      now rewrite lookup_delete_eq.
  - intros [= <- <-]. split; [reflexivity|]. split; [discriminate|].
    intros _. repeat split.
Qed.

(** X18.  [SafetyScoreView.get] answers 400 exactly when the [user_id]
    parameter is missing or empty, and 500 exactly when two user rows carry
    the name of the subject, which the uniqueness constraint on user names
    excludes.  A score that it returns lies between 0 and 100. *)
Theorem score_view_status (db : database) (now now' : Z)
    (user_id : option string) :
  (score_status (SafetyScoreView_get db now now' user_id) = 400
   <-> user_id = None \/ user_id = Some ""%string)
  /\ (score_status (SafetyScoreView_get db now now' user_id) = 500
      <-> exists subject,
            user_id = Some subject /\ subject <> ""%string
            /\ User_objects_get db (username_of subject)
               = Raise MultipleObjectsReturned)
  /\ (unique_usernames db ->
      score_status (SafetyScoreView_get db now now' user_id) <> 500)
  /\ (forall d, SafetyScoreView_get db now now' user_id = ScoreOk d ->
        0 <= score d <= 100).
Proof.
  assert (Hget : forall name e,
            User_objects_get db name = Raise e ->
            e = DoesNotExist \/ e = MultipleObjectsReturned).
  { intros name e. unfold User_objects_get.
    destruct (List.filter _ (users db)) as [|u [|v l]]; intros [= <-]; auto. }
  assert (Hcalc : forall subject,
            match calculate_safety_score_by_user_id db now now' subject with
            | Ok d => 0 <= score d <= 100
                      /\ User_objects_get db (username_of subject)
                         <> Raise MultipleObjectsReturned
            | Raise e => e = MultipleObjectsReturned
                         /\ User_objects_get db (username_of subject)
                            = Raise MultipleObjectsReturned
            end).
  { intros subject. unfold calculate_safety_score_by_user_id.
    destruct (User_objects_get db (username_of subject)) as [u|e] eqn:Hu.
    - destruct (late_night (kolkata_hour now')); cbn [score];
        (split; [lia | discriminate]).
    - destruct (Hget _ _ Hu) as [-> | ->]; [|now split].
      cbn [score]. split; [lia | discriminate]. }
  assert (H500 : score_status (SafetyScoreView_get db now now' user_id) = 500
                 <-> exists subject,
                       user_id = Some subject /\ subject <> ""%string
                       /\ User_objects_get db (username_of subject)
                          = Raise MultipleObjectsReturned).
  { unfold SafetyScoreView_get. destruct user_id as [[|c s]|]; cbn.
    - split; [discriminate | intros (s' & [= <-] & Hne & _); congruence].
    - specialize (Hcalc (String c s)).
      destruct (calculate_safety_score_by_user_id db now now' (String c s))
        as [d|e]; cbn; split.
      + discriminate.
      + intros (s' & [= <-] & _ & Hm). now destruct Hcalc.
      + intros _. exists (String c s). now destruct Hcalc.
      + reflexivity.
    - split; [discriminate | intros (s' & Hs & _); discriminate Hs]. }
  split; [|split; [exact H500|split]].
  - unfold SafetyScoreView_get. destruct user_id as [[|c s]|]; cbn.
    + split; auto.
    + destruct (calculate_safety_score_by_user_id db now now' (String c s));
        cbn; split; try discriminate; intros [H|H]; discriminate H.
    + split; auto.
  - intros Huniq H. apply H500 in H as (subject & _ & _ & Hm).
    destruct (get_unique db (username_of subject) Huniq) as [[u Hu]|Hu];
      congruence.
  - intros d. unfold SafetyScoreView_get. destruct user_id as [[|c s]|];
      cbn; try discriminate.
    specialize (Hcalc (String c s)).
    destruct (calculate_safety_score_by_user_id db now now' (String c s))
      as [d'|e]; [|discriminate]. intros [= <-]. now destruct Hcalc.
Qed.

(** X17.  [EndJourneyView.post] always answers 200 and never touches the
    user rows.  With the session store up, the journey of the subject is no
    longer active afterwards, its window is empty, and the sessions of all
    other subjects are as before.  With the store down the store is as
    before and the answer carries the text of the exception. *)
Theorem end_journey_view_closes_session (db db' : database)
    (srv srv' : Redis.server) (subject : string) (resp : Response) :
  EndJourneyView_post db srv subject = (db', srv', resp) ->
  status resp = 200
  /\ users db' = users db
  /\ (forall kdb, srv = Redis.Up kdb ->
        RedisClient.is_journey_active srv' subject = Ok false
        /\ RedisClient.stored_window srv' subject = []
        /\ forall other, other <> subject -> same_session srv srv' other)
  /\ (srv = Redis.Down ->
        srv' = Redis.Down
        /\ body_get "error" (body resp) = Some (JStr "ConnectionError")).
Proof.
  assert (Hclear : forall r, clear_anomalies db subject = Ok r ->
                             users r.1 = users db).
  { intros r. unfold clear_anomalies.
    destruct (User_objects_get db (username_of subject)); [|discriminate].
    now intros [= <-]. }
  assert (Hfall : forall s e d s' r,
            end_journey_fallback db s subject e = (d, s', r) ->
            status r = 200 /\ users d = users db /\ s' = s
            /\ body_get "error" (body r) = Some (JStr (str_of_exn e))).
  { intros s e d s' r. unfold end_journey_fallback, clear_anomalies_2.
    destruct (clear_anomalies db subject) as [[d' n]|e'] eqn:Hc;
      intros [= <- <- <-]; repeat split.
    exact (Hclear _ eq_refl). }
  unfold EndJourneyView_post. destruct srv as [kdb|].
  - cbn [RedisClient.end_journey RedisClient.connect mbind result_bind
         Py.bind].
    set (kdb' := Redis.DEL _ (Redis.DEL _ kdb)).
    assert (Hsess : RedisClient.is_journey_active (Redis.Up kdb') subject
                    = Ok false
                    /\ RedisClient.stored_window (Redis.Up kdb') subject = []
                    /\ forall other, other <> subject ->
                         same_session (Redis.Up kdb) (Redis.Up kdb') other).
    { unfold kdb', Redis.DEL. split; [|split].
      - unfold RedisClient.is_journey_active, RedisClient.connect,
          Redis.EXISTS. cbn [mbind result_bind Py.bind]. f_equal.
        apply bool_decide_eq_false.
        rewrite lookup_delete_ne by apply location_ne_journey.
        rewrite lookup_delete_eq. now intros [x Hx].
      - unfold RedisClient.stored_window. now rewrite lookup_delete_eq.
      - intros other Hne. apply same_session_lookup.
        + rewrite lookup_delete_ne by apply location_ne_journey.
          rewrite lookup_delete_ne; [reflexivity|].
          intros E. now apply Hne, eq_sym, journey_key_inj.
        + rewrite lookup_delete_ne.
          * now rewrite lookup_delete_ne by apply journey_ne_location.
          * intros E. now apply Hne, eq_sym, location_key_inj. }
    unfold clear_anomalies_1.
    destruct (clear_anomalies db subject) as [[d n]|e] eqn:Hc.
    + intros [= <- <- <-]. split; [reflexivity|].
      split; [exact (Hclear _ eq_refl)|]. split; [intros k _; exact Hsess|].
      discriminate.
    + destruct e;
        try (intros H; apply Hfall in H as (Hst & Hus & -> & _);
             split; [exact Hst|]; split; [exact Hus|];
             split; [intros k _; exact Hsess | discriminate]).
      intros [= <- <- <-]. split; [reflexivity|]. split; [reflexivity|].
      split; [intros k _; exact Hsess | discriminate].
  - cbn [RedisClient.end_journey RedisClient.connect mbind result_bind
         Py.bind].
    intros H. apply Hfall in H as (Hst & Hus & -> & Herr).
    split; [exact Hst|]. split; [exact Hus|]. split; [discriminate|].
    intros _. now split.
Qed.

Lemma filter_negb_idem {X} (f : X -> bool) (l : list X) :
  List.filter (fun a => negb (f a)) (List.filter (fun a => negb (f a)) l)
  = List.filter (fun a => negb (f a)) l.
Proof.
  induction l as [|a l IH]; [reflexivity|].
  simpl. destruct (f a) eqn:E; simpl; [|rewrite E; simpl; f_equal]; exact IH.
Qed.

(** X19.  [ResetAnomaliesView.post], when it does not raise, never touches
    the user rows.  Either it answers 400, for a missing or falsy [user_id],
    and changes nothing; or it answers 200 and has removed exactly the
    alerts whose foreign key is the number given, so that the same request
    sent again finds nothing to delete. *)
Theorem reset_effect (db db' : database) (v : option json) (resp : Response) :
  ResetAnomaliesView_post db v = Ok (db', resp) ->
  users db' = users db
  /\ ((status resp = 400 /\ db' = db /\ truthy v = false)
      \/ exists value pk,
           v = Some value /\ truthy v = true /\ prep_pk value = Ok pk
           /\ status resp = 200
           /\ (forall a, In a (alerts db')
                         <-> In a (alerts db) /\ user_id a <> pk)
           /\ ResetAnomaliesView_post db' v
              = Ok (db',
                    mk_Response 200
                      [("message"%string,
                         JStr ("Successfully deleted 0 anomalies for user "
                                 ++ str_of_json value ++ "."))])).
Proof.
  unfold ResetAnomaliesView_post. destruct v as [value|].
  - destruct (truthy (Some value)) eqn:Ht.
    + destruct (prep_pk value) as [pk|e] eqn:Hpk; [|discriminate].
      cbn [mbind result_bind Py.bind]. unfold delete_alerts_of.
      intros [= <- <-]. split; [reflexivity|]. right.
      exists value, pk. split; [reflexivity|]. split; [reflexivity|].
      split; [exact Hpk|]. split; [reflexivity|]. split.
      * intros a. cbn [alerts]. rewrite filter_In.
        destruct (Z.eqb_spec (user_id a) pk); simpl; intuition congruence.
      * cbn [users alerts]. unfold alerts_of. cbn [alerts].
        rewrite filter_negb_idem.
        rewrite (filter_filter_negb (fun a => user_id a =? pk)).
        reflexivity.
    + intros [= <- <-]. split; [reflexivity|]. left. now repeat split.
  - intros [= <- <-]. split; [reflexivity|]. left. now repeat split.
Qed.

End SmallViews.

(* ===================================================================== *)
(** * Further properties: the tracking view                               *)
(* ===================================================================== *)

Section Tracking.

Import FeatureEngineering MlModels Redis RedisClient Orm Utils Views Spec.

Variable R : Runtime.
Variable json_dumps : Point -> string.
Variable json_loads : string -> option Point.
Variable load_model : AnomalyDetectionModel -> AnomalyDetectionModel * bool.
Variable isoformat : Z -> string.
Variable db_prep_decimal : string -> result string.

Local Abbreviation post :=
  (TrackLocationView_post R json_dumps json_loads load_model isoformat
     db_prep_decimal).
Local Abbreviation record :=
  (record_anomaly db_prep_decimal).
Local Abbreviation point req :=
  (mk_Point (tr_latitude req) (tr_longitude req)
            (isoformat (tr_timestamp req))).

Lemma after_push_list (kdb : keyspace) (u v : string) (l : list string) :
  list_at (location_key u) kdb = Ok l ->
  after_push (Up kdb) u v
  = Up (put_list (location_key u) (last_n 30 (l ++ [v])) kdb).
Proof.
  intros H. unfold after_push, RPUSH, LTRIM. rewrite H.
  cbn [mbind result_bind Py.bind]. rewrite list_at_put_list.
  cbn [mbind result_bind Py.bind].
  now rewrite put_list_put_list, slice_tail.
Qed.

Lemma add_location_point_pushed {A} (dumps : A -> string)
    (loads : string -> option A) (srv srv' : server) (u : string) (x : A)
    (win : list A) :
  add_location_point dumps loads srv u x = Ok (srv', win) ->
  srv' = after_push srv u (dumps x).
Proof.
  intros H. destruct srv as [kdb|]; [|discriminate H].
  apply add_location_point_server in H as (l & Hl & -> & _).
  symmetry. now apply after_push_list.
Qed.

(** The ways in which one request ends. *)
Lemma track_cases (w w' : World) (req : TrackRequest) (resp : TrackResponse) :
  post w req = (w', resp) ->
  (exists e, is_journey_active (w_srv w) (tr_user_id req) = Raise e
             /\ w' = w /\ resp = fallback_response e)
  \/ (is_journey_active (w_srv w) (tr_user_id req) = Ok false
      /\ w' = w /\ resp = no_journey_response)
  \/ (is_journey_active (w_srv w) (tr_user_id req) = Ok true
      /\ w_srv w' = after_push (w_srv w) (tr_user_id req)
                      (json_dumps (point req))
      /\ ((w_db w' = w_db w
           /\ (resp = no_anomaly_response
               \/ exists e, resp = fallback_response e))
          \/ exists window features score r,
               add_location_point json_dumps json_loads (w_srv w)
                 (tr_user_id req) (point req) = Ok (w_srv w', window)
               /\ (2 <= length window)%nat
               /\ extract_features R window = Ok (Some features)
               /\ predict_anomaly load_model (w_model w) features
                  = (w_model w', (true, score))
               /\ record (w_db w) req score = (w_db w', r)
               /\ match r with
                  | Ok alert => resp = anomaly_response score alert
                  | Raise e => resp = fallback_response e
                  end)).
Proof.
  unfold TrackLocationView_post.
  destruct (is_journey_active (w_srv w) (tr_user_id req)) as [[|]|e] eqn:Ha.
  - destruct (add_location_point json_dumps json_loads (w_srv w)
                (tr_user_id req) (point req)) as [[srv window]|e] eqn:Hadd.
    + pose proof (add_location_point_pushed _ _ _ _ _ _ _ Hadd) as Hsrv.
      destruct (Nat.leb_spec 2 (length window)) as [Hlen|Hlen].
      * destruct (extract_features R window) as [[features|]|e] eqn:Hx.
        -- destruct (predict_anomaly load_model (w_model w) features)
             as [ml [[|] score]] eqn:Hp.
           ++ destruct (record (w_db w) req score) as [db r] eqn:Hr.
              destruct r as [alert|e]; intros [= <- <-]; right; right;
                (split; [reflexivity|]); (split; [exact Hsrv|]); right;
                exists window, features, score; eexists;
                (split; [reflexivity|]); (split; [exact Hlen|]);
                (split; [exact Hx|]); (split; [exact Hp|]);
                (split; [exact Hr|]); reflexivity.
           ++ intros [= <- <-]. right; right. split; [reflexivity|].
              split; [exact Hsrv|]. left. split; [reflexivity|]. now left.
        -- intros [= <- <-]. right; right. split; [reflexivity|].
           split; [exact Hsrv|]. left. split; [reflexivity|]. now left.
        -- intros [= <- <-]. right; right. split; [reflexivity|].
           split; [exact Hsrv|]. left. split; [reflexivity|]. right. eauto.
      * intros [= <- <-]. right; right. split; [reflexivity|].
        split; [exact Hsrv|]. left. split; [reflexivity|]. now left.
    + intros [= <- <-]. right; right. split; [reflexivity|].
      split; [reflexivity|]. left. split; [reflexivity|]. right. eauto.
  - intros [= <- <-]. right; left. now repeat split.
  - intros [= <- <-]. left. exists e. now repeat split.
Qed.

Lemma record_anomaly_effect (db db' : database) (req : TrackRequest)
    (score : float) (r : result AnomalyAlert) :
  record db req score = (db', r) ->
  (users db' = users db
   \/ exists user, users db' = users db ++ [user]
                   /\ username user = username_of (tr_user_id req))
  /\ match r with
     | Ok alert =>
         alerts db' = alerts db ++ [alert]
         /\ alert_id alert
            = next_pk (alert_seq db) (alert_id <$> alerts db)
         /\ alert_seq db' = alert_id alert
         /\ alert_timestamp alert = tr_timestamp req
         /\ anomaly_score alert = score
         /\ is_resolved alert = false
         /\ exists user, user ∈ users db'
                         /\ username user = username_of (tr_user_id req)
                         /\ user_id alert = id user
     | Raise _ => alerts db' = alerts db
     end.
Proof.
  unfold record_anomaly, User_objects_get_or_create.
  destruct (User_objects_get db (username_of (tr_user_id req)))
    as [user|e] eqn:Hu.
  - destruct (get_Ok db _ user Hu) as [Hin Hname].
    destruct (db_prep_decimal (tr_latitude req)) as [lat|e];
      [|intros [= <- <-]; split; [now left | reflexivity]].
    destruct (db_prep_decimal (tr_longitude req)) as [lon|e];
      [|intros [= <- <-]; split; [now left | reflexivity]].
    cbn [AnomalyAlert_objects_create]. intros [= <- <-].
    split; [now left|]. repeat split. now exists user.
  - destruct e; try (intros [= <- <-]; split; [now left | reflexivity]).
    set (user := mk_User _ _ _).
    destruct (db_prep_decimal (tr_latitude req)) as [lat|e];
      [|intros [= <- <-]; split; [right; now exists user | reflexivity]].
    destruct (db_prep_decimal (tr_longitude req)) as [lon|e];
      [|intros [= <- <-]; split; [right; now exists user | reflexivity]].
    cbn [AnomalyAlert_objects_create]. intros [= <- <-].
    split; [right; now exists user|]. repeat split. exists user. cbn [users].
    split; [|now split]. apply elem_of_app. right.
    now apply list_elem_of_singleton.
Qed.

Lemma predict_anomaly_true (self ml : AnomalyDetectionModel)
    (features : ndarray) (score : float) :
  predict_anomaly load_model self features = (ml, (true, score)) ->
  exists forest sc scaled labels scores,
    model ml = Some forest /\ scaler ml = Some sc
    /\ transform sc features = Some scaled
    /\ predict forest scaled = Some (-1 :: labels)
    /\ decision_function forest scaled = Some (score :: scores)
    /\ (ml = self
        \/ ((model self = None \/ scaler self = None)
            /\ load_model self = (ml, true))).
Proof.
  unfold predict_anomaly.
  assert (Hinfer : forall m : AnomalyDetectionModel,
            infer m features = Some (true, score) ->
            exists forest sc scaled labels scores,
              model m = Some forest /\ scaler m = Some sc
              /\ transform sc features = Some scaled
              /\ predict forest scaled = Some (-1 :: labels)
              /\ decision_function forest scaled = Some (score :: scores)).
  { intros m. unfold infer.
    destruct (scaler m) as [sc|]; [|discriminate].
    cbn [mbind option_bind].
    destruct (transform sc features) as [scaled|] eqn:Ht; [|discriminate].
    cbn [mbind option_bind].
    destruct (model m) as [forest|]; [|discriminate].
    cbn [mbind option_bind].
    destruct (predict forest scaled) as [[|p labels]|] eqn:Hp;
      try discriminate.
    cbn [mbind option_bind head].
    destruct (decision_function forest scaled) as [[|s scores]|] eqn:Hd;
      try discriminate.
    cbn [mbind option_bind head].
    destruct (Z.eqb_spec p (-1)) as [->|]; [|discriminate].
    intros [= <-]. exists forest, sc, scaled, labels, scores.
    now repeat split. }
  assert (Hrun : forall m : AnomalyDetectionModel,
            match infer m features with
            | Some verdict => (m, verdict)
            | None => (m, (false, 0%float))
            end = (ml, (true, score)) ->
            m = ml /\ infer m features = Some (true, score)).
  { intros m. destruct (infer m features) as [[b s]|]; [|discriminate].
    now intros [= -> -> ->]. }
  destruct (model self) as [f|] eqn:Hm;
    [destruct (scaler self) as [s|] eqn:Hs|].
  - intros H. apply Hrun in H as [-> H].
    destruct (Hinfer _ H) as (forest & sc & scaled & labels & scores & H').
    exists forest, sc, scaled, labels, scores.
    repeat (split; [apply H'|]). now left.
  - destruct (load_model self) as [m [|]] eqn:Hl; [|discriminate].
    intros H. apply Hrun in H as [-> H].
    destruct (Hinfer _ H) as (forest & sc & scaled & labels & scores & H').
    exists forest, sc, scaled, labels, scores.
    repeat (split; [apply H'|]). right. split; [now right | reflexivity].
  - destruct (load_model self) as [m [|]] eqn:Hl; [|discriminate].
    intros H. apply Hrun in H as [-> H].
    destruct (Hinfer _ H) as (forest & sc & scaled & labels & scores & H').
    exists forest, sc, scaled, labels, scores.
    repeat (split; [apply H'|]). right. split; [now left | reflexivity].
Qed.

Lemma record_anomaly_prepared (db : database) (req : TrackRequest)
    (score : float) (lat lon : string) :
  db_prep_decimal (tr_latitude req) = Ok lat ->
  db_prep_decimal (tr_longitude req) = Ok lon ->
  record db req score
  = match create_alert db (tr_user_id req) lat lon (tr_timestamp req)
            score with
    | Ok (db', a) => (db', Ok a)
    | Raise e => (db, Raise e)
    end.
Proof.
  intros Hlat Hlon. unfold record_anomaly, create_alert.
  destruct (User_objects_get_or_create db _ _) as [[db1 [user c]]|e];
    [|reflexivity].
  rewrite Hlat, Hlon. reflexivity.
Qed.

(** A user row appended on its own keeps the constraints. *)
Lemma new_user_well_formed (db : database) (name mail : string)
    (useq aseq : Z) :
  well_formed db ->
  Forall (fun u => username u <> name) (users db) ->
  well_formed (mk_database
                 (users db
                    ++ [mk_User (next_pk (user_seq db) (id <$> users db))
                          name mail])
                 (alerts db) useq aseq).
Proof.
  intros [Hnames Hids Haids Hfk] Hnever. constructor; cbn [users alerts].
  - rewrite fmap_app. apply NoDup_app. split; [exact Hnames|].
    split; [|apply NoDup_singleton].
    intros x Hx Hx'. apply list_elem_of_singleton in Hx'. subst x.
    apply list_elem_of_fmap in Hx as (v & Hv & Hin).
    rewrite Forall_forall in Hnever. now apply (Hnever v Hin).
  - rewrite fmap_app. apply NoDup_app. split; [exact Hids|].
    split; [|apply NoDup_singleton].
    intros x Hx Hx'. apply list_elem_of_singleton in Hx'.
    apply (next_pk_above (user_seq db)) in Hx. cbn in Hx'. lia.
  - exact Haids.
  - eapply Forall_impl; [exact Hfk|]. intros a Ha. rewrite fmap_app.
    apply elem_of_app. now left.
Qed.

(** When the creation of the alert raises, the alert table is as before
    and so are the records of every subject, also when the user row of
    the subject has just been created. *)
Lemma record_anomaly_refused (db db' : database) (req : TrackRequest)
    (score : float) (e : exn) :
  well_formed db ->
  record db req score = (db', Raise e) ->
  well_formed db' /\ alerts db' = alerts db
  /\ forall s, records_of db' s = records_of db s.
Proof.
  intros Hwf. unfold record_anomaly, User_objects_get_or_create.
  destruct (get_unique db (username_of (tr_user_id req))
              (wf_usernames db Hwf)) as [[u Hu]|Hu]; rewrite Hu.
  - destruct (db_prep_decimal (tr_latitude req)) as [lat|e2];
      [|intros [= <- <-]; split; [exact Hwf | now split]].
    destruct (db_prep_decimal (tr_longitude req)) as [lon|e2];
      [|intros [= <- <-]; split; [exact Hwf | now split]].
    discriminate.
  - pose proof (get_DoesNotExist db _ Hu) as Hnever.
    set (pk := next_pk (user_seq db) (id <$> users db)).
    set (user := mk_User pk (username_of (tr_user_id req))
                   (username_of (tr_user_id req) ++ "@test.com")).
    set (db1 := mk_database (users db ++ [user]) (alerts db) pk
                  (alert_seq db)).
    assert (Hres : well_formed db1 /\ alerts db1 = alerts db
                   /\ forall s, records_of db1 s = records_of db s).
    { split; [now apply new_user_well_formed|]. split; [reflexivity|].
      intros s. unfold records_of, db1.
      destruct (decide (s = tr_user_id req)) as [->|Hne].
      - rewrite (get_app_new db user _ _ _ Hnever), Hu.
        exact (alerts_of_next_pk db Hwf).
      - rewrite get_app_other; [reflexivity|].
        intros Heq. now apply Hne, eq_sym, username_of_inj. }
    destruct (db_prep_decimal (tr_latitude req)) as [lat|e2];
      [|intros [= <- <-]; exact Hres].
    destruct (db_prep_decimal (tr_longitude req)) as [lon|e2];
      [|intros [= <- <-]; exact Hres].
    discriminate.
Qed.

(** X14.  The creation of the alert keeps the constraints of the database.
    When it succeeds it has appended one alert: the record of the subject,
    stamped as the request, scored as given and unresolved; the records of
    every other subject are as before.  When it raises, no record of any
    subject has changed. *)
Theorem record_anomaly_keeps_constraints (db db' : database)
    (req : TrackRequest) (score : float) (r : result AnomalyAlert) :
  well_formed db ->
  record db req score = (db', r) ->
  well_formed db'
  /\ match r with
     | Ok a =>
         known db' (tr_user_id req)
         /\ alerts db' = alerts db ++ [a]
         /\ records_of db' (tr_user_id req)
            = records_of db (tr_user_id req) ++ [a]
         /\ (forall other, other <> tr_user_id req ->
               records_of db' other = records_of db other)
         /\ alert_timestamp a = tr_timestamp req
         /\ anomaly_score a = score
         /\ is_resolved a = false
     | Raise _ =>
         alerts db' = alerts db
         /\ forall s, records_of db' s = records_of db s
     end.
Proof.
  intros Hwf Hrec. destruct r as [a|e].
  - destruct (db_prep_decimal (tr_latitude req)) as [lat|e] eqn:Hlat.
    2: { unfold record_anomaly in Hrec. rewrite Hlat in Hrec.
         destruct (User_objects_get_or_create db _ _) as [[d [u c]]|e'];
           discriminate Hrec. }
    destruct (db_prep_decimal (tr_longitude req)) as [lon|e] eqn:Hlon.
    2: { unfold record_anomaly in Hrec. rewrite Hlat, Hlon in Hrec.
         destruct (User_objects_get_or_create db _ _) as [[d [u c]]|e'];
           discriminate Hrec. }
    rewrite (record_anomaly_prepared db req score lat lon Hlat Hlon) in Hrec.
    destruct (create_alert_records db (tr_user_id req) lat lon
                (tr_timestamp req) score Hwf)
      as (db2 & a2 & Hc & H).
    rewrite Hc in Hrec. injection Hrec as <- <-.
    destruct H as (Hwf' & Hk & Hal & Hr & Ho & Hf).
    split; [exact Hwf'|]. split; [exact Hk|]. split; [exact Hal|].
    split; [exact Hr|]. split; [exact Ho | exact Hf].
  - destruct (record_anomaly_refused db db' req score e Hwf Hrec)
      as (Hwf' & Hal & Hr). split; [exact Hwf' | now split].
Qed.

(** X15.  An alert stored for a request stamped within the last 24 hours
    costs the subject 15 points (down to 0) if it had a user row; a subject
    without one goes from 100 to 85, or to 75 at night, since the night
    penalty starts to apply.  The score of every other subject is as before. *)
Theorem alert_lowers_score (db db' : database) (req : TrackRequest)
    (score : float) (a : AnomalyAlert) (now now' : Z) :
  well_formed db ->
  record db req score = (db', Ok a) ->
  now - one_day <= tr_timestamp req ->
  exists r r',
    calculate_safety_score_by_user_id db now now' (tr_user_id req) = Ok r
    /\ calculate_safety_score_by_user_id db' now now' (tr_user_id req)
       = Ok r'
    /\ (known db (tr_user_id req) ->
        Utils.score r' = Z.max 0 (Utils.score r - 15))
    /\ (never_seen db (tr_user_id req) ->
        Utils.score r = 100 /\ Utils.score r' = 85 - night_penalty now')
    /\ (forall other, other <> tr_user_id req ->
          calculate_safety_score_by_user_id db' now now' other
          = calculate_safety_score_by_user_id db now now' other).
Proof.
  intros Hwf Hrec Hts.
  destruct (db_prep_decimal (tr_latitude req)) as [lat|e] eqn:Hlat.
  2: { unfold record_anomaly in Hrec. rewrite Hlat in Hrec.
       destruct (User_objects_get_or_create db _ _) as [[d [u c]]|e'];
         discriminate Hrec. }
  destruct (db_prep_decimal (tr_longitude req)) as [lon|e] eqn:Hlon.
  2: { unfold record_anomaly in Hrec. rewrite Hlat, Hlon in Hrec.
       destruct (User_objects_get_or_create db _ _) as [[d [u c]]|e'];
         discriminate Hrec. }
  rewrite (record_anomaly_prepared db req score lat lon Hlat Hlon) in Hrec.
  destruct (create_alert db (tr_user_id req) lat lon (tr_timestamp req) score)
    as [[db2 a2]|e] eqn:Hc; [|discriminate Hrec].
  injection Hrec as <- <-.
  exact (create_alert_score db db2 _ lat lon _ score a2 now now' Hwf Hc Hts).
Qed.

(** X20.  The view answers 400 or 202, never 500.  It answers 400 exactly
    when the session store is reachable and holds no journey of the subject;
    then nothing has changed.  With the store down the answer is the 202
    fallback and nothing has changed either. *)
Theorem track_location_status (w w' : World) (req : TrackRequest)
    (resp : TrackResponse) :
  post w req = (w', resp) ->
  (t_status resp = 400 \/ t_status resp = 202)
  /\ (t_status resp = 400
      <-> is_journey_active (w_srv w) (tr_user_id req) = Ok false)
  /\ (t_status resp = 400 -> w' = w /\ resp = no_journey_response)
  /\ (w_srv w = Down -> w' = w /\ resp = fallback_response ConnectionError).
Proof.
  intros H. apply track_cases in H
    as [(e & Ha & -> & ->) | [(Ha & -> & ->) | (Ha & Hsrv & Hrest)]].
  - split; [now right|]. split; [split; [discriminate | congruence]|].
    split; [discriminate|]. intros Hdown. rewrite Hdown in Ha.
    injection Ha as <-. now split.
  - split; [now left|]. split; [now split|]. split; [now split|].
    intros Hdown. rewrite Hdown in Ha. discriminate Ha.
  - assert (H202 : t_status resp = 202).
    { destruct Hrest as [(_ & [-> | (e & ->)])
                        | (win & fs & sc & r & _ & _ & _ & _ & _ & Hr)];
        try reflexivity.
      destruct r; now subst resp. }
    rewrite H202. split; [now right|].
    split; [split; [discriminate | congruence]|].
    split; [discriminate|]. intros Hdown. rewrite Hdown in Ha.
    discriminate Ha.
Qed.

(** X21.  An alert is stored exactly when the answer reports an anomaly.
    That answer carries the key of the one alert appended to the table,
    which is stamped as the request, scored as reported, unresolved, and
    points to a user row named after the subject.  The key is new: it is
    one more than the largest key that the table has ever held, also when
    rows have been deleted since, and the table's sequence advances to it.
    With any other answer the alert table is as before.  The user table
    gains at most the row of the subject. *)
Theorem track_alert_iff_reported (w w' : World) (req : TrackRequest)
    (resp : TrackResponse) :
  post w req = (w', resp) ->
  (forall score reported,
     resp = anomaly_response score reported ->
     exists alert,
       alert_id alert = alert_id reported
       /\ alerts (w_db w') = alerts (w_db w) ++ [alert]
       /\ alert_id alert
          = next_pk (alert_seq (w_db w)) (alert_id <$> alerts (w_db w))
       /\ alert_seq (w_db w) < alert_id alert
       /\ Forall (fun a => alert_id a < alert_id alert) (alerts (w_db w))
       /\ alert_seq (w_db w') = alert_id alert
       /\ alert_timestamp alert = tr_timestamp req
       /\ anomaly_score alert = score
       /\ is_resolved alert = false
       /\ exists user, user ∈ users (w_db w')
                       /\ username user = username_of (tr_user_id req)
                       /\ user_id alert = id user)
  /\ ((forall score alert, resp <> anomaly_response score alert) ->
      alerts (w_db w') = alerts (w_db w))
  /\ (users (w_db w') = users (w_db w)
      \/ exists user, users (w_db w') = users (w_db w) ++ [user]
                      /\ username user = username_of (tr_user_id req)).
Proof.
  intros H. apply track_cases in H
    as [(e & Ha & -> & ->) | [(Ha & -> & ->) | (Ha & Hsrv & Hrest)]].
  - split; [discriminate|]. split; [reflexivity | now left].
  - split; [discriminate|]. split; [reflexivity | now left].
  - destruct Hrest as [(Hdb & Hresp)
                      | (win & fs & sc & r & _ & _ & _ & _ & Hrec & Hr)].
    + rewrite Hdb. split; [|split; [reflexivity | now left]].
      intros score alert ->. destruct Hresp as [Hr | [e Hr]]; discriminate Hr.
    + apply record_anomaly_effect in Hrec as [Husers Hal].
      split; [|split; [|exact Husers]].
      * intros score reported ->. destruct r as [alert|e]; [|discriminate Hr].
        injection Hr as <- Hid. exists alert. split; [congruence|].
        destruct Hal as (Hal & Hid' & Hseq & Hrest).
        split; [exact Hal|]. split; [exact Hid'|].
        split; [rewrite Hid'; apply next_pk_after|].
        split; [|split; [exact Hseq | exact Hrest]].
        rewrite Forall_forall. intros a Hin. rewrite Hid'.
        apply next_pk_above, list_elem_of_fmap_2. exact Hin.
      * intros Hno. destruct r as [alert|e]; [|exact Hal].
        exfalso. exact (Hno _ _ Hr).
Qed.

(** X22.  Without a fitted model (none in memory and [load_model] fails) no
    request is ever answered with an anomaly and no alert is stored,
    whatever the movement: the rule-based scorer is not consulted. *)
Theorem track_without_model (w w' : World) (req : TrackRequest)
    (resp : TrackResponse) :
  post w req = (w', resp) ->
  model (w_model w) = None \/ scaler (w_model w) = None ->
  (load_model (w_model w)).2 = false ->
  w_db w' = w_db w
  /\ forall score alert, resp <> anomaly_response score alert.
Proof.
  intros H Hnone Hload. apply track_cases in H
    as [(e & Ha & -> & ->) | [(Ha & -> & ->) | (Ha & Hsrv & Hrest)]].
  - split; [reflexivity | discriminate].
  - split; [reflexivity | discriminate].
  - destruct Hrest as [(Hdb & Hresp)
                      | (win & fs & sc & r & _ & _ & _ & Hp & _)].
    + split; [exact Hdb|]. intros score alert ->.
      destruct Hresp as [Hr | [e Hr]]; discriminate Hr.
    + exfalso. apply predict_anomaly_true in Hp
        as (forest & scl & scaled & labels & scores & Hm & Hs & _ & _ & _
            & [Heq | [_ Hl]]).
      * rewrite Heq in Hm, Hs. destruct Hnone; congruence.
      * rewrite Hl in Hload. discriminate Hload.
Qed.

(** X23.  An anomaly is reported only on the vote of the forest: the window
    has at least two points, features came out of it, the first label that
    the forest predicts for the scaled features is -1, and the score
    reported is the first value of its decision function. *)
Theorem track_alert_needs_forest_vote (w w' : World) (req : TrackRequest)
    (score : float) (alert : AnomalyAlert) :
  post w req = (w', anomaly_response score alert) ->
  exists window features forest sc scaled labels scores,
    add_location_point json_dumps json_loads (w_srv w) (tr_user_id req)
      (point req) = Ok (w_srv w', window)
    /\ (2 <= length window)%nat
    /\ extract_features R window = Ok (Some features)
    /\ model (w_model w') = Some forest
    /\ scaler (w_model w') = Some sc
    /\ transform sc features = Some scaled
    /\ predict forest scaled = Some (-1 :: labels)
    /\ decision_function forest scaled = Some (score :: scores).
Proof.
  intros H. apply track_cases in H
    as [(e & _ & _ & Hr) | [(_ & _ & Hr) | (_ & _ & Hrest)]];
    try discriminate Hr.
  destruct Hrest as [(_ & [Hr | [e Hr]])
                    | (win & fs & sc & r & Hadd & Hlen & Hx & Hp & _ & Hr)];
    try discriminate Hr.
  destruct r as [alert'|e]; [|discriminate Hr]. injection Hr as <- _.
  apply predict_anomaly_true in Hp
    as (forest & scl & scaled & labels & scores & Hm & Hs & Ht & Hpr & Hd & _).
  exists win, fs, forest, scl, scaled, labels, scores. now repeat split.
Qed.

Lemma reachable_lists (srv : server) :
  reachable srv ->
  exists kdb, srv = Up kdb
              /\ forall u, exists l, list_at (location_key u) kdb = Ok l.
Proof.
  induction 1 as [|srv srv' _ (kdb & -> & IH) Hstep].
  - exists ∅. split; [reflexivity|]. intros u. exists []. reflexivity.
  - assert (Hdel : forall key u d,
              (exists l, list_at (location_key u) d = Ok l) ->
              exists l, list_at (location_key u) (DEL key d) = Ok l).
    { intros key u d [l Hl]. unfold list_at, DEL in *.
      destruct (decide (key = location_key u)) as [->|Hne].
      - rewrite lookup_delete_eq. eauto.
      - rewrite lookup_delete_ne by exact Hne. eauto. }
    inversion Hstep as [s u' s' b Hop | s u' s' b Hop
                       | A dumps loads s u' x s' win Hop]; subst.
    + injection Hop as <- _. eexists. split; [reflexivity|].
      intros u. apply Hdel. destruct (IH u) as [l Hl]. exists l.
      unfold list_at, SET in *.
      now rewrite lookup_insert_ne by apply journey_ne_location.
    + injection Hop as <- _. eexists. split; [reflexivity|].
      intros u. apply Hdel, Hdel, IH.
    + apply add_location_point_server in Hop as (l & _ & -> & _).
      eexists. split; [reflexivity|]. intros u.
      destruct (decide (location_key u' = location_key u)) as [->|Hne].
      * rewrite list_at_put_list. eauto.
      * unfold list_at. rewrite lookup_put_list_ne by exact Hne.
        apply IH.
Qed.

Lemma stored_window_list (kdb : keyspace) (u : string) (l : list string) :
  list_at (location_key u) kdb = Ok l -> stored_window (Up kdb) u = l.
Proof.
  unfold list_at, stored_window.
  destruct (kdb !! location_key u) as [[s|l']|]; congruence.
Qed.

(** X24.  Once the journey is found active, the point is stored before it is
    analysed: whatever the answer, and also when the analysis raises, the
    window of the subject is afterwards the old one with the new point
    appended, cut to its last 30 entries.  The journey stays active and the
    sessions of all other subjects are as before. *)
Theorem track_point_is_stored (w w' : World) (req : TrackRequest)
    (resp : TrackResponse) :
  post w req = (w', resp) ->
  reachable (w_srv w) ->
  is_journey_active (w_srv w) (tr_user_id req) = Ok true ->
  stored_window (w_srv w') (tr_user_id req)
  = last_n 30 (stored_window (w_srv w) (tr_user_id req)
               ++ [json_dumps (point req)])
  /\ is_journey_active (w_srv w') (tr_user_id req) = Ok true
  /\ forall other, other <> tr_user_id req ->
       same_session (w_srv w) (w_srv w') other.
Proof.
  intros H Hreach Hactive. apply track_cases in H
    as [(e & Ha & _) | [(Ha & _) | (_ & Hsrv & _)]]; try congruence.
  destruct (reachable_lists _ Hreach) as (kdb & Hup & Hlists).
  destruct (Hlists (tr_user_id req)) as [l Hl].
  rewrite Hup in *. rewrite (after_push_list _ _ _ _ Hl) in Hsrv.
  rewrite Hsrv, (stored_window_list _ _ _ Hl).
  split; [apply stored_window_put_list|]. split.
  - rewrite <- Hactive. unfold is_journey_active, connect, EXISTS.
    cbn [mbind result_bind Py.bind].
    now rewrite lookup_put_list_ne by apply location_ne_journey.
  - intros other Hne. apply same_session_lookup.
    + now rewrite lookup_put_list_ne by apply location_ne_journey.
    + rewrite lookup_put_list_ne; [reflexivity|].
      intros E. now apply Hne, eq_sym, location_key_inj.
Qed.

(** X25.  The first point after [StartJourneyView.post] is stored and not
    analysed: the answer is "no anomaly detected", the window holds this one
    point, and the database and the model are untouched. *)
Theorem first_point_not_analysed (w : World) (req : TrackRequest)
    (kdb : keyspace) :
  w_srv w = (StartJourneyView_post (Up kdb) (tr_user_id req)).1 ->
  json_loads (json_dumps (point req)) = Some (point req) ->
  exists srv',
    post w req = (mk_World (w_db w) srv' (w_model w), no_anomaly_response)
    /\ stored_window srv' (tr_user_id req) = [json_dumps (point req)].
Proof.
  intros Hsrv Hloads. cbn in Hsrv.
  set (uid := tr_user_id req) in *.
  set (kdb1 := DEL (location_key uid)
                  (SET (journey_key uid) journey_marker kdb)) in *.
  assert (Hact : is_journey_active (Up kdb1) uid = Ok true).
  { unfold is_journey_active, connect, EXISTS, kdb1, DEL, SET.
    cbn [mbind result_bind Py.bind]. f_equal. apply bool_decide_eq_true.
    rewrite lookup_delete_ne by apply location_ne_journey.
    rewrite lookup_insert_eq. eauto. }
  assert (Hl : list_at (location_key uid) kdb1 = Ok []).
  { unfold list_at, kdb1, DEL. now rewrite lookup_delete_eq. }
  assert (Hadd : add_location_point json_dumps json_loads (Up kdb1) uid
                   (point req)
                 = Ok (Up (put_list (location_key uid)
                             [json_dumps (point req)] kdb1),
                       [point req])).
  { unfold add_location_point, connect, RPUSH, LTRIM, LRANGE.
    cbn [mbind result_bind Py.bind]. rewrite Hl.
    cbn [mbind result_bind Py.bind app]. rewrite list_at_put_list.
    cbn [mbind result_bind Py.bind]. rewrite put_list_put_list.
    change (slice [json_dumps (point req)] (-30) (-1))
      with [json_dumps (point req)].
    rewrite list_at_put_list. cbn [mbind result_bind Py.bind].
    change (slice [json_dumps (point req)] 0 (-1))
      with [json_dumps (point req)].
    cbn [loads_all]. rewrite Hloads. reflexivity. }
  eexists. split.
  - unfold TrackLocationView_post. fold uid. rewrite Hsrv, Hact, Hadd.
    reflexivity.
  - apply stored_window_put_list.
Qed.

(** X26.  After [EndJourneyView.post] on a reachable session store, a
    tracking request of the same subject is answered 400 and changes
    nothing, until a journey is started again. *)
Theorem track_after_end_is_rejected (w : World) (req : TrackRequest)
    (db : database) (kdb : keyspace) :
  w_srv w = (EndJourneyView_post db (Up kdb) (tr_user_id req)).1.2 ->
  post w req = (w, no_journey_response).
Proof.
  intros Hsrv.
  assert (Hend : (EndJourneyView_post db (Up kdb) (tr_user_id req)).1.2
                 = Up (DEL (location_key (tr_user_id req))
                         (DEL (journey_key (tr_user_id req)) kdb))).
  { unfold EndJourneyView_post, end_journey, connect, end_journey_fallback.
    cbn [mbind result_bind Py.bind].
    destruct (clear_anomalies_1 db (tr_user_id req)) as [[db' n]|e];
      [reflexivity|].
    now destruct (clear_anomalies_2 db (tr_user_id req)). }
  rewrite Hend in Hsrv. unfold TrackLocationView_post. rewrite Hsrv.
  unfold is_journey_active, connect, EXISTS, DEL.
  cbn [mbind result_bind Py.bind].
  rewrite bool_decide_eq_false_2; [reflexivity|].
  rewrite lookup_delete_ne by apply location_ne_journey.
  rewrite lookup_delete_eq. now intros [x Hx].
Qed.

End Tracking.

(* ===================================================================== *)
(** * Instances of the further properties                                 *)
(* ===================================================================== *)

(** Subject 42 with one alert, asked for at midnight in Kolkata. *)
Lemma score_variants_agree_witness :
  Utils.score
    (Utils.calculate_safety_score Scenario.db_one Scenario.t_night
       Scenario.t_night (Orm.mk_User 1 "user_42" "user_42@test.com"))
  = 75.
Proof.
  destruct (score_variants_agree Scenario.db_one Scenario.t_night
              Scenario.t_night "42"
              (Orm.mk_User 1 "user_42" "user_42@test.com") eq_refl)
    as (r & Hr & Hs & _).
  rewrite Hs. vm_compute in Hr. injection Hr as <-. reflexivity.
Defined.

(** One alert by day: the score 85 comes with a factor. *)
Lemma factors_explain_score_witness :
  exists r,
    Utils.calculate_safety_score_by_user_id Scenario.db_one Scenario.t_day
      Scenario.t_day "42" = Ok r
    /\ Utils.factors r <> [].
Proof.
  eexists. split; [reflexivity|].
  refine (proj1 (proj2 (factors_explain_score Scenario.db_one Scenario.t_day
                          Scenario.t_day "42" _ eq_refl)) _).
  vm_compute. reflexivity.
Defined.

Lemma start_journey_view_answers_200_witness :
  Views.status (Views.StartJourneyView_post Redis.Down "42").2 = 200.
Proof.
  exact (proj1 (start_journey_view_answers_200 Redis.Down _ "42" _ eq_refl)).
Defined.

Lemma score_view_status_witness :
  Views.score_status
    (Views.SafetyScoreView_get Scenario.db_one Scenario.t_day Scenario.t_day
       (Some "42"%string)) <> 500.
Proof.
  destruct (score_view_status Scenario.db_one Scenario.t_day Scenario.t_day
              (Some "42"%string)) as (_ & _ & H & _).
  apply H. apply NoDup_singleton.
Defined.

(** Deleting by the primary key 1 removes the alert of subject 42. *)
Lemma reset_effect_witness :
  exists db' resp,
    Views.ResetAnomaliesView_post Scenario.db_one (Some (Views.JInt 1))
    = Ok (db', resp)
    /\ Orm.users db' = Orm.users Scenario.db_one.
Proof.
  eexists _, _. split; [reflexivity|].
  exact (proj1 (reset_effect Scenario.db_one _ (Some (Views.JInt 1)) _
                  eq_refl)).
Defined.

(** With the session store down: the 202 fallback. *)
Lemma track_location_status_witness :
  Views.t_status
    (Scenario.track
       (Views.mk_World Scenario.empty_db Redis.Down Scenario.model_alarm)
       Scenario.req_first).2 = 202.
Proof.
  destruct (track_location_status Example.runtime Scenario.point_dumps
              Scenario.point_loads Scenario.no_loader Scenario.clock Ok
              (Views.mk_World Scenario.empty_db Redis.Down
                 Scenario.model_alarm)
              _ Scenario.req_first _ eq_refl) as (_ & _ & _ & H).
  destruct (H eq_refl) as [_ Hr]. unfold Scenario.track. simpl.
  reflexivity.
Defined.

(** Start, a first point, a second point ten seconds later, with the
    model that always votes "anomaly": the second answer reports alert 1
    and the table holds one alert. *)
Lemma track_alert_iff_reported_witness :
  exists w' score reported alert,
    Scenario.track
      (Scenario.track
         (Views.mk_World Scenario.empty_db Scenario.srv_started
            Scenario.model_alarm) Scenario.req_first).1
      Scenario.req_second
    = (w', Views.anomaly_response score reported)
    /\ Orm.alerts (Views.w_db w') = [alert]
    /\ Orm.alert_id alert = 1.
Proof.
  pose (w1 := (Scenario.track
                 (Views.mk_World Scenario.empty_db Scenario.srv_started
                    Scenario.model_alarm) Scenario.req_first).1).
  pose (out := Scenario.track w1 Scenario.req_second).
  pose (reported := Orm.mk_AnomalyAlert 1 1 "12.9717" "77.5946"
                      (Scenario.t_day + 10000000) (-0.25)%float false None).
  assert (E : Scenario.track w1 Scenario.req_second
              = (out.1, Views.anomaly_response (-0.25)%float reported))
    by (vm_compute; reflexivity).
  assert (Hdb : Orm.alerts (Views.w_db w1) = []) by (vm_compute; reflexivity).
  clearbody out.
  destruct (track_alert_iff_reported Example.runtime Scenario.point_dumps
              Scenario.point_loads Scenario.no_loader Scenario.clock Ok
              w1 out.1 Scenario.req_second _ E) as (H & _).
  destruct (H _ _ eq_refl) as (alert & _ & Hal & Hid & _).
  exists out.1, (-0.25)%float, reported, alert.
  split; [exact E|]. split.
  - rewrite Hal, Hdb. reflexivity.
  - rewrite Hid, Hdb. reflexivity.
Defined.

(** The same run without a model: no alert. *)
Lemma track_without_model_witness :
  Orm.alerts
    (Views.w_db
       (Scenario.track
          (Scenario.track
             (Views.mk_World Scenario.empty_db Scenario.srv_started
                Scenario.model_none) Scenario.req_first).1
          Scenario.req_second).1) = [].
Proof.
  pose (w1 := (Scenario.track
                 (Views.mk_World Scenario.empty_db Scenario.srv_started
                    Scenario.model_none) Scenario.req_first).1).
  assert (Hm : Views.w_model w1 = Scenario.model_none)
    by (vm_compute; reflexivity).
  assert (Hdb : Views.w_db w1 = Scenario.empty_db)
    by (vm_compute; reflexivity).
  fold w1. clearbody w1.
  destruct (track_without_model Example.runtime Scenario.point_dumps
              Scenario.point_loads Scenario.no_loader Scenario.clock Ok
              w1 _ Scenario.req_second _ (surjective_pairing _)) as [H _].
  - left. now rewrite Hm.
  - reflexivity.
  - unfold Scenario.track. rewrite H, Hdb. reflexivity.
Defined.

Lemma track_alert_needs_forest_vote_witness :
  exists w' forest,
    Scenario.track
      (Scenario.track
         (Views.mk_World Scenario.empty_db Scenario.srv_started
            Scenario.model_alarm) Scenario.req_first).1
      Scenario.req_second
    = (w', Views.anomaly_response (-0.25)%float
             (Orm.mk_AnomalyAlert 1 1 "12.9717" "77.5946"
                (Scenario.t_day + 10000000) (-0.25)%float false None))
    /\ MlModels.model (Views.w_model w') = Some forest.
Proof.
  pose (w1 := (Scenario.track
                 (Views.mk_World Scenario.empty_db Scenario.srv_started
                    Scenario.model_alarm) Scenario.req_first).1).
  pose (out := Scenario.track w1 Scenario.req_second).
  assert (E : Scenario.track w1 Scenario.req_second
              = (out.1, Views.anomaly_response (-0.25)%float
                          (Orm.mk_AnomalyAlert 1 1 "12.9717" "77.5946"
                             (Scenario.t_day + 10000000) (-0.25)%float
                             false None)))
    by (vm_compute; reflexivity).
  clearbody out.
  destruct (track_alert_needs_forest_vote Example.runtime
              Scenario.point_dumps Scenario.point_loads Scenario.no_loader
              Scenario.clock Ok w1 out.1 Scenario.req_second _ _ E)
    as (window & features & forest & sc & scaled & labels & scores
        & _ & _ & _ & Hm & _).
  exists out.1, forest. split; [exact E | exact Hm].
Defined.

(** The first point of a journey is in the window afterwards. *)
Lemma track_point_is_stored_witness :
  RedisClient.stored_window
    (Views.w_srv
       (Scenario.track
          (Views.mk_World Scenario.empty_db Scenario.srv_started
             Scenario.model_none) Scenario.req_first).1) "42"
  = ["12.9716;77.5946;2024-01-01T00:00:00+00:00"%string].
Proof.
  destruct (track_point_is_stored Example.runtime Scenario.point_dumps
              Scenario.point_loads Scenario.no_loader Scenario.clock Ok
              (Views.mk_World Scenario.empty_db Scenario.srv_started
                 Scenario.model_none) _ Scenario.req_first _
              (surjective_pairing _))
    as (H & _).
  - eapply RedisClient.reachable_step; [apply RedisClient.reachable_empty|].
    eapply (RedisClient.step_start (Redis.Up ∅) "42"). reflexivity.
  - reflexivity.
  - refine (eq_trans H _). reflexivity.
Defined.

Lemma first_point_not_analysed_witness :
  (Scenario.track
     (Views.mk_World Scenario.empty_db Scenario.srv_started
        Scenario.model_alarm) Scenario.req_first).2
  = Views.no_anomaly_response.
Proof.
  destruct (first_point_not_analysed Example.runtime Scenario.point_dumps
              Scenario.point_loads Scenario.no_loader Scenario.clock Ok
              (Views.mk_World Scenario.empty_db Scenario.srv_started
                 Scenario.model_alarm) Scenario.req_first ∅)
    as (srv' & H & _).
  - reflexivity.
  - reflexivity.
  - unfold Scenario.track. rewrite H. reflexivity.
Defined.

Lemma track_after_end_is_rejected_witness :
  (Scenario.track
     (Views.mk_World Scenario.empty_db
        (Views.EndJourneyView_post Scenario.empty_db Scenario.srv_started
           "42").1.2
        Scenario.model_alarm) Scenario.req_first).2
  = Views.no_journey_response.
Proof.
  unfold Scenario.track.
  rewrite (track_after_end_is_rejected Example.runtime Scenario.point_dumps
             Scenario.point_loads Scenario.no_loader Scenario.clock Ok
             (Views.mk_World Scenario.empty_db
                (Views.EndJourneyView_post Scenario.empty_db
                   Scenario.srv_started "42").1.2
                Scenario.model_alarm) Scenario.req_first Scenario.empty_db
             (Redis.DEL (RedisClient.location_key "42")
                (Redis.SET (RedisClient.journey_key "42")
                   RedisClient.journey_marker ∅))).
  - reflexivity.
  - reflexivity.
Defined.

(** The first alert of subject 42 on an empty database. *)
Lemma record_anomaly_keeps_constraints_witness :
  exists db' a,
    Views.record_anomaly Ok Scenario.empty_db Scenario.req_first 0.5%float
    = (db', Ok a)
    /\ Views.records_of db' "42" = [a].
Proof.
  destruct (record_anomaly_keeps_constraints Ok Scenario.empty_db _
              Scenario.req_first 0.5%float _
              (Spec.mk_well_formed Scenario.empty_db (NoDup_nil_2)
                 (NoDup_nil_2) (NoDup_nil_2) (Forall_nil_2 _))
              eq_refl)
    as (_ & _ & _ & Hrec & _).
  eexists _, _. split; [reflexivity | exact Hrec].
Defined.

(** ... which takes the score of the subject from 100 to 85 by day. *)
Lemma alert_lowers_score_witness :
  exists db' a r',
    Views.record_anomaly Ok Scenario.empty_db Scenario.req_first 0.5%float
    = (db', Ok a)
    /\ Utils.calculate_safety_score_by_user_id db' Scenario.t_day
         Scenario.t_day "42" = Ok r'
    /\ Utils.score r' = 85.
Proof.
  destruct (alert_lowers_score Ok Scenario.empty_db _ Scenario.req_first
              0.5%float _ Scenario.t_day Scenario.t_day
              (Spec.mk_well_formed Scenario.empty_db (NoDup_nil_2)
                 (NoDup_nil_2) (NoDup_nil_2) (Forall_nil_2 _))
              eq_refl)
    as (r & r' & _ & Hr' & _ & Hnever & _).
  - vm_compute. discriminate.
  - eexists _, _, r'. split; [reflexivity|]. split; [exact Hr'|].
    destruct Hnever as [_ ->]; [constructor | reflexivity].
Defined.

(** With the store down the journey end is still answered 200. *)
Lemma end_journey_view_closes_session_witness :
  Views.status (Views.EndJourneyView_post Scenario.db_one Redis.Down "42").2
  = 200.
Proof.
  exact (proj1 (end_journey_view_closes_session Scenario.db_one _ Redis.Down
                  _ "42" _ eq_refl)).
Defined.

(* ===================================================================== *)
(** * Further properties: the channel consumer                            *)
(* ===================================================================== *)

Section ConsumerProperties.

Import FeatureEngineering MlModels Redis RedisClient Orm Utils Views Spec.
Import Consumers.

Variable R : Runtime.
Variable json_dumps : Point -> string.
Variable json_loads : string -> option Point.
Variable load_model : AnomalyDetectionModel -> AnomalyDetectionModel * bool.
Variable isoformat : Z -> string.
Variable db_prep_decimal : string -> result string.
Variable db_prep_datetime : datetime -> result Z.

Local Abbreviation consume :=
  (track_location R json_dumps json_loads load_model isoformat
     db_prep_decimal db_prep_datetime).
Local Abbreviation create :=
  (create_anomaly_alert R db_prep_decimal db_prep_datetime).
Local Abbreviation subject ev := (str_of_json (ev_user_id ev)).
Local Abbreviation point ev :=
  (mk_Point (ev_latitude ev) (ev_longitude ev)
            (timestamp_text isoformat (ev_timestamp ev))).
Local Abbreviation message ev score :=
  (lat ← float_ R (ev_latitude ev);
   lon ← float_ R (ev_longitude ev);
   Ok (mk_AdminAlert (ev_user_id ev) lat lon
         (timestamp_text isoformat (ev_timestamp ev)) score)).

Ltac step_ok H x Hx := apply bind_Ok in H; destruct H as (x & Hx & H).

Lemma get_id_Ok (db : database) (pk : Z) (u : User) :
  User_objects_get_id db pk = Ok u -> u ∈ users db /\ id u = pk.
Proof.
  unfold User_objects_get_id. intros H.
  destruct (List.filter _ (users db)) as [|v [|v' l]] eqn:E;
    try discriminate H.
  injection H as ->.
  assert (Hin : In u (List.filter (fun u => id u =? pk) (users db)))
    by (rewrite E; now left).
  apply filter_In in Hin as [Hin Hid].
  split; [now apply list_elem_of_In | now apply Z.eqb_eq].
Qed.

Lemma create_anomaly_alert_effect (db db' : database) (user_id : json)
    (lat lon : string) (ts : event_time) (score : float)
    (o : option AnomalyAlert) :
  create db user_id lat lon ts score = (db', o) ->
  users db' = users db
  /\ match o with
     | None => db' = db
     | Some a =>
         exists pk user,
           prep_pk user_id = Ok pk
           /\ User_objects_get_id db pk = Ok user
           /\ alerts db' = alerts db ++ [a]
           /\ Orm.user_id a = pk
           /\ anomaly_score a = score
           /\ is_resolved a = false
     end.
Proof.
  unfold create_anomaly_alert.
  destruct (prep_pk user_id) as [pk|e] eqn:Hpk;
    [|intros [= <- <-]; now split].
  cbn [mbind result_bind Py.bind].
  destruct (User_objects_get_id db pk) as [user|e] eqn:Hu;
    [|intros [= <- <-]; now split].
  cbn [mbind result_bind Py.bind].
  destruct (match ts with
            | TimeStr s =>
                match fromisoformat R (replace_Z s) with
                | Some d => db_prep_datetime d
                | None => Raise ValueError
                end
            | TimeOf t => Ok t
            end) as [t|e]; [|intros [= <- <-]; now split].
  cbn [mbind result_bind Py.bind].
  destruct (db_prep_decimal lat) as [lat'|e]; [|intros [= <- <-]; now split].
  cbn [mbind result_bind Py.bind].
  destruct (db_prep_decimal lon) as [lon'|e]; [|intros [= <- <-]; now split].
  cbn [mbind result_bind Py.bind AnomalyAlert_objects_create].
  intros [= <- <-]. split; [reflexivity|]. exists pk, user.
  destruct (get_id_Ok db pk user Hu) as [_ Hid]. now repeat split.
Qed.

(** The ways in which the handling of one event ends. *)
Lemma consumer_cases (w : World) (ev : TrackEvent) :
  c_srv (consume w ev)
  = after_push (c_srv w) (subject ev) (json_dumps (point ev))
  /\ ((c_db (consume w ev) = c_db w /\ c_layer (consume w ev) = c_layer w)
      \/ exists window features score,
           add_location_point json_dumps json_loads (c_srv w) (subject ev)
             (point ev) = Ok (c_srv (consume w ev), window)
           /\ (2 <= length window)%nat
           /\ extract_features R window = Ok (Some features)
           /\ predict_anomaly load_model (c_model w) features
              = (c_model (consume w ev), (true, score))
           /\ c_db (consume w ev)
              = (create (c_db w) (ev_user_id ev) (ev_latitude ev)
                   (ev_longitude ev) (ev_timestamp ev) score).1
           /\ c_layer (consume w ev)
              = match message ev score with
                | Ok alert_data => send_admin_alert (c_layer w) alert_data
                | Raise _ => c_layer w
                end).
Proof.
  unfold track_location.
  destruct (add_location_point json_dumps json_loads (c_srv w) (subject ev)
              (point ev)) as [[srv window]|e] eqn:Hadd.
  - pose proof (add_location_point_pushed _ _ _ _ _ _ _ Hadd) as Hsrv.
    destruct (Nat.leb_spec 2 (length window)) as [Hlen|Hlen].
    + destruct (extract_features R window) as [[features|]|e] eqn:Hx.
      * destruct (predict_anomaly load_model (c_model w) features)
          as [ml [[|] score]] eqn:Hp.
        -- destruct (create (c_db w) (ev_user_id ev) (ev_latitude ev)
                       (ev_longitude ev) (ev_timestamp ev) score)
             as [db o] eqn:Hc.
           assert (Hgoal : forall layer,
                     layer = match message ev score with
                             | Ok alert_data =>
                                 send_admin_alert (c_layer w) alert_data
                             | Raise _ => c_layer w
                             end ->
                     c_srv (mk_World db srv ml layer)
                     = after_push (c_srv w) (subject ev)
                         (json_dumps (point ev))
                     /\ ((c_db (mk_World db srv ml layer) = c_db w
                          /\ c_layer (mk_World db srv ml layer) = c_layer w)
                         \/ exists window0 features0 score0,
                              Ok (srv, window)
                              = Ok (c_srv (mk_World db srv ml layer), window0)
                              /\ (2 <= length window0)%nat
                              /\ extract_features R window0
                                 = Ok (Some features0)
                              /\ predict_anomaly load_model (c_model w)
                                   features0
                                 = (c_model (mk_World db srv ml layer),
                                    (true, score0))
                              /\ c_db (mk_World db srv ml layer)
                                 = (create (c_db w) (ev_user_id ev)
                                      (ev_latitude ev) (ev_longitude ev)
                                      (ev_timestamp ev) score0).1
                              /\ c_layer (mk_World db srv ml layer)
                                 = match message ev score0 with
                                   | Ok alert_data =>
                                       send_admin_alert (c_layer w) alert_data
                                   | Raise _ => c_layer w
                                   end)).
           { intros layer Hl. split; [exact Hsrv|]. right.
             exists window, features, score. split; [reflexivity|].
             split; [exact Hlen|]. split; [exact Hx|]. split; [exact Hp|].
             split; [now rewrite Hc | exact Hl]. }
           destruct (message ev score) as [alert_data|e];
             [|now apply Hgoal].
           destruct (c_layer w) as [sent|]; now apply Hgoal.
        -- split; [exact Hsrv|]. left. now split.
      * split; [exact Hsrv|]. left. now split.
      * split; [exact Hsrv|]. left. now split.
    + split; [exact Hsrv|]. left. now split.
  - split; [reflexivity|]. left. now split.
Qed.

(** What the handling of one event does to the database. *)
Lemma consumer_stores (w : World) (ev : TrackEvent) :
  users (c_db (consume w ev)) = users (c_db w)
  /\ (c_db (consume w ev) = c_db w
      \/ exists pk user alert,
           prep_pk (ev_user_id ev) = Ok pk
           /\ user ∈ users (c_db w) /\ id user = pk
           /\ alerts (c_db (consume w ev)) = alerts (c_db w) ++ [alert]
           /\ Orm.user_id alert = pk
           /\ is_resolved alert = false)
  /\ ((forall pk, prep_pk (ev_user_id ev) = Ok pk ->
                  Forall (fun u => id u <> pk) (users (c_db w))) ->
      c_db (consume w ev) = c_db w).
Proof.
  destruct (consumer_cases w ev)
    as [_ [[Hdb _] | (win & fs & sc & _ & _ & _ & _ & Hdb & _)]].
  - rewrite Hdb. split; [reflexivity|]. split; [now left | reflexivity].
  - destruct (create (c_db w) (ev_user_id ev) (ev_latitude ev)
                (ev_longitude ev) (ev_timestamp ev) sc) as [db o] eqn:Hc.
    cbn [fst] in Hdb. rewrite Hdb.
    apply create_anomaly_alert_effect in Hc as [Hus Ho].
    split; [exact Hus|]. destruct o as [a|].
    + destruct Ho as (pk & user & Hpk & Hu & Hal & Hid & _ & Hres).
      destruct (get_id_Ok _ _ _ Hu) as [Hin Hpk'].
      split.
      * right. exists pk, user, a. now repeat split.
      * intros Hnone. exfalso. specialize (Hnone pk Hpk).
        rewrite Forall_forall in Hnone. exact (Hnone user Hin Hpk').
    + subst db. split; [now left | reflexivity].
Qed.

(** X27.  The consumer never creates or changes a user row.  It appends
    at most one alert per event, and only for an existing user row whose
    primary key is the number that [user_id] denotes: the alert points
    to that row.  If [user_id] denotes no number, or no row has that
    primary key, the database is left as it was. *)
Theorem consumer_database_effect (w : World) (ev : TrackEvent) :
  users (c_db (consume w ev)) = users (c_db w)
  /\ (c_db (consume w ev) = c_db w
      \/ exists pk user alert,
           prep_pk (ev_user_id ev) = Ok pk
           /\ user ∈ users (c_db w) /\ id user = pk
           /\ alerts (c_db (consume w ev)) = alerts (c_db w) ++ [alert]
           /\ Orm.user_id alert = pk
           /\ is_resolved alert = false)
  /\ ((forall pk, prep_pk (ev_user_id ev) = Ok pk ->
                  Forall (fun u => id u <> pk) (users (c_db w))) ->
      c_db (consume w ev) = c_db w).
Proof. exact (consumer_stores w ev). Qed.

(** X28.  The view files a subject under the user row named after it,
    the consumer under the row whose primary key is the [user_id].
    Unless the row named after the subject has that primary key, what
    the consumer stores never shows in the subject's safety score. *)
Theorem consumer_alert_misses_score (w : World) (ev : TrackEvent)
    (now now' : Z) :
  (forall u pk,
     User_objects_get (c_db w) (username_of (subject ev)) = Ok u ->
     prep_pk (ev_user_id ev) = Ok pk -> id u <> pk) ->
  calculate_safety_score_by_user_id (c_db (consume w ev)) now now'
    (subject ev)
  = calculate_safety_score_by_user_id (c_db w) now now' (subject ev).
Proof.
  intros Hmiss.
  destruct (consumer_stores w ev)
    as (Hus & [Hdb | (pk & user & a & Hpk & _ & _ & Hal & Hid & _)] & _).
  - now rewrite Hdb.
  - apply score_depends.
    + unfold User_objects_get. now rewrite Hus.
    + intros u Hu. unfold alerts_of. rewrite Hal, List.filter_app.
      cbn [List.filter]. rewrite Hid.
      destruct (Z.eqb_spec pk (id u)) as [Heq|_]; [|apply app_nil_r].
      exfalso. exact (Hmiss u pk Hu Hpk (eq_sym Heq)).
Qed.

(** X29.  Whether the consumer alerts the administrators does not depend
    on the database: the message goes out also when the alert could not
    be stored.  At most one message is sent per event, and only on the
    vote of the forest; it carries the [user_id] of the event, its two
    coordinates as floats and the score of the forest. *)
Theorem consumer_message_independent_of_store (w : World) (ev : TrackEvent) :
  (forall db,
     c_layer (consume (mk_World db (c_srv w) (c_model w) (c_layer w)) ev)
     = c_layer (consume w ev))
  /\ (c_layer (consume w ev) = c_layer w
      \/ exists sent window features score m,
           c_layer w = Some sent
           /\ c_layer (consume w ev) = Some (sent ++ [m])
           /\ extract_features R window = Ok (Some features)
           /\ (predict_anomaly load_model (c_model w) features).2
              = (true, score)
           /\ aa_user_id m = ev_user_id ev
           /\ float_of_str R (ev_latitude ev) = Some (aa_latitude m)
           /\ float_of_str R (ev_longitude ev) = Some (aa_longitude m)
           /\ aa_anomaly_score m = score).
Proof.
  split.
  - intros db. unfold track_location. cbn [c_db c_srv c_model c_layer].
    destruct (add_location_point json_dumps json_loads (c_srv w) (subject ev)
                (point ev)) as [[srv window]|e]; [|reflexivity].
    destruct (2 <=? length window)%nat; [|reflexivity].
    destruct (extract_features R window) as [[features|]|e];
      try reflexivity.
    destruct (predict_anomaly load_model (c_model w) features)
      as [ml [[|] score]]; [|reflexivity].
    destruct (create db _ _ _ _ score) as [db1 o1].
    destruct (create (c_db w) _ _ _ _ score) as [db2 o2].
    destruct (message ev score) as [alert_data|e]; [|reflexivity].
    destruct (send_admin_alert (c_layer w) alert_data); reflexivity.
  - destruct (consumer_cases w ev)
      as [_ [[_ Hl] | (win & fs & sc & _ & _ & Hx & Hp & _ & Hl)]];
      [now left|].
    destruct (message ev sc) as [m|e] eqn:Hm; [|now left].
    unfold send_admin_alert in Hl.
    destruct (c_layer w) as [sent|] eqn:Hsent; [|now left].
    cbn [mbind option_bind] in Hl. right.
    step_ok Hm lat Hlat. step_ok Hm lon Hlon. injection Hm as <-.
    exists sent, win, fs, sc. eexists. split; [reflexivity|].
    split; [exact Hl|]. split; [exact Hx|]. split; [now rewrite Hp|].
    split; [reflexivity|]. cbn [aa_latitude aa_longitude aa_anomaly_score].
    unfold float_ in Hlat, Hlon.
    destruct (float_of_str R (ev_latitude ev)); [|discriminate Hlat].
    destruct (float_of_str R (ev_longitude ev)); [|discriminate Hlon].
    injection Hlat as ->. injection Hlon as ->. now repeat split.
Qed.

(** X30.  The consumer does not ask whether a journey is active: on
    every event it appends the point to the window of the subject, which
    afterwards is the old window with the new point, cut to its last 30
    entries.  It never starts or ends a journey, and the sessions of all
    other subjects are as before. *)
Theorem consumer_stores_point_without_journey (w : World) (ev : TrackEvent) :
  reachable (c_srv w) ->
  stored_window (c_srv (consume w ev)) (subject ev)
  = last_n 30 (stored_window (c_srv w) (subject ev)
               ++ [json_dumps (point ev)])
  /\ is_journey_active (c_srv (consume w ev)) (subject ev)
     = is_journey_active (c_srv w) (subject ev)
  /\ forall other, other <> subject ev ->
       same_session (c_srv w) (c_srv (consume w ev)) other.
Proof.
  intros Hreach. destruct (consumer_cases w ev) as [Hsrv _].
  destruct (reachable_lists _ Hreach) as (kdb & Hup & Hlists).
  destruct (Hlists (subject ev)) as [l Hl].
  rewrite Hup in *. rewrite (after_push_list _ _ _ _ Hl) in Hsrv.
  rewrite Hsrv, (stored_window_list _ _ _ Hl).
  split; [apply stored_window_put_list|]. split.
  - unfold is_journey_active, connect, EXISTS.
    cbn [mbind result_bind Py.bind].
    now rewrite lookup_put_list_ne by apply location_ne_journey.
  - intros other Hne. apply same_session_lookup.
    + now rewrite lookup_put_list_ne by apply location_ne_journey.
    + rewrite lookup_put_list_ne; [reflexivity|].
      intros E. now apply Hne, eq_sym, location_key_inj.
Qed.

End ConsumerProperties.

(** Subject 7 is filed by the view under the user row 1.  Two events
    for 7, with a model that always votes "anomaly": the consumer finds
    no row with the primary key 7 and stores nothing. *)
Lemma consumer_database_effect_witness :
  Consumers.c_db (Scenario.consume Scenario.cworld_one Scenario.event_second)
  = Scenario.db_two.
Proof.
  assert (Hdb : Consumers.c_db Scenario.cworld_one = Scenario.db_two)
    by (vm_compute; reflexivity).
  destruct (consumer_database_effect Example.runtime Scenario.point_dumps
              Scenario.point_loads Scenario.no_loader Scenario.clock Ok
              (fun d => Ok (dt_micros d)) Scenario.cworld_one
              Scenario.event_second) as (_ & _ & H).
  unfold Scenario.consume. rewrite H; [exact Hdb|].
  intros pk [= <-]. rewrite Hdb. repeat constructor; discriminate.
Defined.

(** ... so the score of subject 7 is what it was. *)
Lemma consumer_alert_misses_score_witness :
  Utils.calculate_safety_score_by_user_id
    (Consumers.c_db
       (Scenario.consume Scenario.cworld_one Scenario.event_second))
    Scenario.t_day Scenario.t_day "7"
  = Utils.calculate_safety_score_by_user_id
      (Consumers.c_db Scenario.cworld_one) Scenario.t_day Scenario.t_day "7".
Proof.
  assert (Hdb : Consumers.c_db Scenario.cworld_one = Scenario.db_two)
    by (vm_compute; reflexivity).
  apply (consumer_alert_misses_score Example.runtime Scenario.point_dumps
           Scenario.point_loads Scenario.no_loader Scenario.clock Ok
           (fun d => Ok (dt_micros d)) Scenario.cworld_one
           Scenario.event_second Scenario.t_day Scenario.t_day).
  intros u pk Hu [= <-]. rewrite Hdb in Hu. vm_compute in Hu.
  injection Hu as <-. discriminate.
Defined.

(** ... while the administrators are alerted. *)
Lemma consumer_message_independent_of_store_witness :
  exists m,
    Consumers.c_layer
      (Scenario.consume Scenario.cworld_one Scenario.event_second)
    = Some [m]
    /\ Consumers.c_layer
         (Scenario.consume
            (Consumers.mk_World Scenario.empty_db
               (Consumers.c_srv Scenario.cworld_one)
               (Consumers.c_model Scenario.cworld_one)
               (Consumers.c_layer Scenario.cworld_one))
            Scenario.event_second)
       = Some [m].
Proof.
  pose (m := match Consumers.c_layer
                     (Scenario.consume Scenario.cworld_one
                        Scenario.event_second) with
             | Some [m] => m
             | _ => Consumers.mk_AdminAlert Views.JNull 0 0 "" 0
             end).
  assert (E : Consumers.c_layer
                (Scenario.consume Scenario.cworld_one Scenario.event_second)
              = Some [m]) by (vm_compute; reflexivity).
  clearbody m. exists m. split; [exact E|].
  destruct (consumer_message_independent_of_store Example.runtime
              Scenario.point_dumps Scenario.point_loads Scenario.no_loader
              Scenario.clock Ok (fun d => Ok (dt_micros d))
              Scenario.cworld_one Scenario.event_second) as [H _].
  unfold Scenario.consume in *. rewrite H. exact E.
Defined.

(** No journey was started: the point is stored all the same. *)
Lemma consumer_stores_point_without_journey_witness :
  RedisClient.stored_window (Consumers.c_srv Scenario.cworld_one) "7"
  = ["12.9716;77.5946;2024-01-01T00:00:00+00:00"%string]
  /\ RedisClient.is_journey_active (Consumers.c_srv Scenario.cworld_one) "7"
     = Ok false.
Proof.
  destruct (consumer_stores_point_without_journey Example.runtime
              Scenario.point_dumps Scenario.point_loads Scenario.no_loader
              Scenario.clock Ok (fun d => Ok (dt_micros d)) Scenario.cworld
              Scenario.event_first RedisClient.reachable_empty)
    as (Hw & Ha & _).
  split.
  - refine (eq_trans Hw _). reflexivity.
  - refine (eq_trans Ha _). reflexivity.
Defined.
